(** * Lumina Cine-Pro: frame processor and analysis bridge

    A shallow embedding of [src/App.tsx] (camera acquisition, the per-frame
    canvas pipeline [processFrame], the two React effects and their
    cleanups) and of [src/services/geminiService.ts] ([analyzeFrame],
    [analyzeTopology]), with the properties the design document states
    about them.

    Conventions
    - a JavaScript [number] is an exact rational ([Q]); loop counters, canvas
      dimensions and pixel channels are integers ([Z]);
    - what the browser supplies and the repository does not contain
      ([JSON.parse], the conversion of a number inside a template literal)
      is a field of the class [Host];
    - the 2D context is a log of the property writes and calls made on it,
      in program order;
    - in [App] every call on the context returns: it is the frame loop
      where no call throws.  [Strict] is the same loop with the calls that
      throw on a canvas with a zero dimension, and agrees with [App] on any
      other canvas;
    - [Dom.composite] is the colour a compositing step computes; [Pixels]
      has the level between 0 and 255 the canvas stores it as. *)

From Stdlib Require Import ZArith QArith Qround List String Ascii Bool Lia Lqa.
Import ListNotations.

Set Warnings "-register-all".
Local Open Scope Z_scope.

(* ===================================================================== *)
(** * JavaScript values and completions                                   *)
(* ===================================================================== *)

(** Thrown values. *)
Inductive JSError : Type :=
| SyntaxError
| TypeError
| DOMException (name : string)
| OtherError (message : string).

(** Result of evaluating a block: a value, or an exception in flight. *)
Inductive Completion (A : Type) : Type :=
| Normal (a : A)
| Throw (e : JSError).
Arguments Normal {A} a.
Arguments Throw {A} e.

Definition bindC {A B} (c : Completion A) (k : A -> Completion B) : Completion B :=
  match c with
  | Normal a => k a
  | Throw e => Throw e
  end.

(** [try { body } catch (e) { handler }] *)
Definition try_catch {A} (body : Completion A) (handler : JSError -> Completion A)
  : Completion A :=
  match body with
  | Normal a => Normal a
  | Throw e => handler e
  end.

(** State of the promise an [async] function returns once its body ran. *)
Inductive Settled (A : Type) : Type :=
| Resolved (a : A)
| Rejected (e : JSError).
Arguments Resolved {A} a.
Arguments Rejected {A} e.

Definition async {A} (body : Completion A) : Settled A :=
  match body with
  | Normal a => Resolved a
  | Throw e => Rejected e
  end.

(** Values [JSON.parse] produces and object literals denote.  An object is
    its list of own properties in insertion order. *)
Inductive JSON : Type :=
| JNull
| JBool (b : bool)
| JNumber (n : Q)
| JString (s : string)
| JArray (items : list JSON)
| JObject (props : list (string * JSON)).

(** [o.k]: [None] is [undefined]. *)
Fixpoint assoc (k : string) (props : list (string * JSON)) : option JSON :=
  match props with
  | [] => None
  | (k', v) :: rest => if String.eqb k k' then Some v else assoc k rest
  end.

Definition getField (v : JSON) (k : string) : option JSON :=
  match v with
  | JObject props => assoc k props
  | _ => None
  end.

(** What the host environment contributes to the two source files. *)
Class Host : Type := {
  (** [JSON.parse(text)]; throws [SyntaxError] on malformed text. *)
  JSON_parse : string -> Completion JSON;
  (** a number substituted into a template literal. *)
  Number_toString : Q -> string
}.

(* ===================================================================== *)
(** * src/types.ts                                                        *)
(* ===================================================================== *)

Inductive Lut : Type := LutNone | LutLogC | LutCineTeal | LutVintage.

Record CameraSettings : Type := mkSettings {
  exposure : Q;
  brightness : Q;
  contrast : Q;
  saturation : Q;
  iso : Q;
  shutterSpeed : string;
  whiteBalance : Q;
  stabilization : bool;
  upscale : bool;
  hdr : bool;
  bokeh : Q;
  glow : Q;
  lut : Lut
}.

(* ===================================================================== *)
(** * src/services/geminiService.ts                                       *)
(* ===================================================================== *)

Module GeminiService.

(** The argument of [ai.models.generateContent]. *)
Record Request : Type := mkRequest {
  model : string;
  promptText : string;
  mimeType : string;
  inlineData : string;
  responseMimeType : string
}.

(** The value the awaited call yields: nullish, or an object whose [text]
    property is a string or [undefined]. *)
Inductive Response : Type :=
| NullishResponse
| ResponseObject (text : option string).

(** Every way [await ai.models.generateContent(...)] can end. *)
Inductive CallOutcome : Type :=
| CallThrows (e : JSError)
| CallRejects (e : JSError)
| CallFulfils (r : Response).

(** [await call]: the fulfilment value, or the exception re-thrown. *)
Definition await (o : CallOutcome) : Completion Response :=
  match o with
  | CallThrows e => Throw e
  | CallRejects e => Throw e
  | CallFulfils r => Normal r
  end.

(** [response.text]; reading a property of a nullish value throws. *)
Definition text_of (r : Response) : Completion (option string) :=
  match r with
  | NullishResponse => Throw TypeError
  | ResponseObject t => Normal t
  end.

(** [t || "{}"]: [undefined] and the empty string are falsy. *)
Definition or_empty_object (t : option string) : string :=
  match t with
  | None => "{}"
  | Some s => if String.eqb s "" then "{}" else s
  end.

Definition frameRequest (base64Image : string) : Request :=
  mkRequest "gemini-3-flash-preview"
    "Analyze this cinematic frame. Return JSON: luminance (0-100), colorTemp (string), detectedObjects (array), suggestions (string)."
    "image/jpeg" base64Image "application/json".

Definition topologyRequest (base64Image : string) : Request :=
  mkRequest "gemini-3-flash-preview"
    "Act as a 3D Scanning expert. Analyze this image of an object being scanned. Detect topology errors, UV mapping issues, or missing geometry. Return JSON: vertices (est count), topologyScore (0-100), uvStatus (string), defects (array of strings), suggestedFix (string)."
    "image/jpeg" base64Image "application/json".

Definition sceneDefault : JSON :=
  JObject [ ("luminance", JNumber 50);
            ("colorTemp", JString "Neutral");
            ("detectedObjects", JArray []);
            ("suggestions", JString "Awaiting input") ]%string.

Definition topologyDefault : JSON :=
  JObject [ ("vertices", JNumber 0);
            ("topologyScore", JNumber 0);
            ("uvStatus", JString "Error");
            ("defects", JArray []);
            ("suggestedFix", JString "Reposition for better lighting") ]%string.

Section Bridge.
Context `{Host}.
(** The external service: any function from requests to outcomes. *)
Variable generateContent : Request -> CallOutcome.

(** The [try] block shared by both functions. *)
Definition requestAndParse (req : Request) : Completion JSON :=
  bindC (await (generateContent req)) (fun response =>
  bindC (text_of response) (fun t =>
  JSON_parse (or_empty_object t))).

(** The failures the [catch] clause absorbs: the call throws, its promise
    rejects, there is no response object to read [text] from, or the
    text does not parse. *)
Inductive Fails : CallOutcome -> Prop :=
| fails_throw e : Fails (CallThrows e)
| fails_reject e : Fails (CallRejects e)
| fails_nullish : Fails (CallFulfils NullishResponse)
| fails_parse t e :
    JSON_parse (or_empty_object t) = Throw e ->
    Fails (CallFulfils (ResponseObject t)).

Definition analyzeFrame (base64Image : string) : Settled JSON :=
  async (try_catch (requestAndParse (frameRequest base64Image))
                   (fun _ => Normal sceneDefault)).

Definition analyzeTopology (base64Image : string) : Settled JSON :=
  async (try_catch (requestAndParse (topologyRequest base64Image))
                   (fun _ => Normal topologyDefault)).

End Bridge.

End GeminiService.

(* ===================================================================== *)
(** * The browser objects src/App.tsx works on                            *)
(* ===================================================================== *)

Module Dom.

(** One RGBA pixel, channels in 0..255 as [Uint8ClampedArray] holds them. *)
Record Pixel : Type := mkPixel { red : Z; green : Z; blue : Z; alpha : Z }.

(** The current video frame as [drawImage(video, 0, 0, width, height)]
    rasterises it on the destination grid: column, then row. *)
Definition Raster : Type := Z -> Z -> Pixel.

Definition pixelBytes (p : Pixel) : list Z := [red p; green p; blue p; alpha p].

(** [ImageData.data] of the rectangle (0, 0, w, h): row-major RGBA bytes. *)
Definition imageDataOf (img : Raster) (w h : Z) : list Z :=
  flat_map (fun i => pixelBytes (img (Z.of_nat i mod w) (Z.of_nat i / w)))
           (seq 0 (Z.to_nat (w * h))).

(** A number that may be [NaN]; [None] is [NaN]. *)
Definition JSNum : Type := option Q.

Definition nadd (a b : JSNum) : JSNum :=
  match a, b with
  | Some x, Some y => Some (x + y)%Q
  | _, _ => None
  end.

Definition ndiv (a : JSNum) (d : Q) : JSNum := option_map (fun x => (x / d)%Q) a.
Definition nmul (a : JSNum) (k : Q) : JSNum := option_map (fun x => (x * k)%Q) a.

(** [data[idx]]: [undefined] outside the array, which arithmetic turns
    into [NaN]. *)
Definition at_index (data : list Z) (idx : Z) : JSNum :=
  if idx <? 0 then None
  else option_map inject_Z (nth_error data (Z.to_nat idx)).

Inductive CompositeOp : Type := SourceOver | Screen.

(** Property writes and calls on the [CanvasRenderingContext2D], plus the
    reset a write to [canvas.width] or [canvas.height] causes. *)
Inductive CtxOp : Type :=
| SetFilter (f : string)
| SetGlobalCompositeOperation (op : CompositeOp)
| SetGlobalAlpha (a : Q)
| SetFillStyle (c : string)
| SetStrokeStyle (c : string)
| SetLineWidth (w : Q)
| DrawVideo (dx dy dw dh : Z)
| DrawCanvas (dx dy : Z)
| GetImageData (sx sy sw sh : Z)
| FillRect (x y w h : Z)
| BeginPath
| MoveTo (x : Z) (y : JSNum)
| LineTo (x : Z) (y : JSNum)
| Stroke
| ResetBySize.

Record MediaStreamTrack : Type := mkTrack { label : string; stopCalls : nat }.
Definition MediaStream : Type := list MediaStreamTrack.

(** [track.stop()] *)
Definition stop (t : MediaStreamTrack) : MediaStreamTrack :=
  mkTrack (label t) (S (stopCalls t)).

(** The two closures [initCamera] installs as [onloadedmetadata]. *)
Inductive MetadataHandler : Type := SizeCanvasAndPlay | PlayOnly.

Record HTMLVideoElement : Type := mkVideo {
  readyState : Z;
  videoWidth : Z;
  videoHeight : Z;
  srcObject : option MediaStream;
  onloadedmetadata : option MetadataHandler;
  playCalls : nat;
  currentFrame : Raster
}.

Record HTMLCanvasElement : Type := mkCanvas {
  width : Z;
  height : Z;
  (** whether [getContext('2d')] returns a context (not [null]) *)
  context2d : bool;
  (** everything done to the context so far, oldest first *)
  calls : list CtxOp
}.

(** The compositing part of the context state. *)
Record CtxState : Type := mkCtxState {
  globalCompositeOperation : CompositeOp;
  globalAlpha : Q
}.

Definition defaultCtxState : CtxState := mkCtxState SourceOver 1.

(** The [globalAlpha] setter ignores values outside [0, 1]. *)
Definition applyOp (st : CtxState) (op : CtxOp) : CtxState :=
  match op with
  | SetGlobalCompositeOperation o => mkCtxState o (globalAlpha st)
  | SetGlobalAlpha a =>
      if Qle_bool 0 a && Qle_bool a 1
      then mkCtxState (globalCompositeOperation st) a
      else st
  | ResetBySize => defaultCtxState
  | _ => st
  end.

Definition stateAfter (ops : list CtxOp) : CtxState :=
  fold_left applyOp ops defaultCtxState.

(** Compositing and Blending Level 1, for one colour channel in [0, 1] of
    a source drawn with coverage [a] over an opaque backdrop: the value
    computed, before the canvas stores it as a level ([Pixels.toByte]). *)
Definition blend (op : CompositeOp) (cb cs : Q) : Q :=
  match op with
  | SourceOver => cs
  | Screen => cb + cs - cb * cs
  end%Q.

Definition composite (op : CompositeOp) (a cb cs : Q) : Q :=
  ((1 - a) * cb + a * blend op cb cs)%Q.

End Dom.

(* ===================================================================== *)
(** * src/App.tsx                                                         *)
(* ===================================================================== *)

Module App.
Import Dom.

Inductive Mode : Type := Camera | Scan | Relief.

Definition INITIAL_SETTINGS : CameraSettings :=
  mkSettings 0 100 100 100 800 "1/48" 5600 true true true 0 10 LutNone.

(** [{ ...prev, lut: l }], what [updateSetting('lut', l)] stores. *)
Definition with_lut (l : Lut) (prev : CameraSettings) : CameraSettings :=
  mkSettings (exposure prev) (brightness prev) (contrast prev) (saturation prev)
             (iso prev) (shutterSpeed prev) (whiteBalance prev) (stabilization prev)
             (upscale prev) (hdr prev) (bokeh prev) (glow prev) l.

(** [{ ...prev, glow: g }], what [updateSetting('glow', g)] stores. *)
Definition with_glow (g : Q) (prev : CameraSettings) : CameraSettings :=
  mkSettings (exposure prev) (brightness prev) (contrast prev) (saturation prev)
             (iso prev) (shutterSpeed prev) (whiteBalance prev) (stabilization prev)
             (upscale prev) (hdr prev) (bokeh prev) g (lut prev).

(** What [requestAnimationFrame] is given: [processFrame] as one render
    created it, that is, with the [settings] and [mode] it closes over. *)
Inductive Callback : Type :=
| ProcessFrame (settings : CameraSettings) (mode : Mode).

(** Everything the component reads or writes. *)
Record World : Type := mkWorld {
  (* React state *)
  settings : CameraSettings;
  mode : Mode;
  cameraError : option string;
  histogramData : list Q;
  (* refs *)
  videoRef : option HTMLVideoElement;
  canvasRef : option HTMLCanvasElement;
  requestRef : option Z;
  (* the window's list of animation frame callbacks and its handle counter *)
  frameRequests : list (Z * Callback);
  nextHandle : Z;
  (* [Math.random]: the values it will return, and how many were taken *)
  randoms : nat -> Q;
  taken : nat
}.

Definition set_settings (s : CameraSettings) (w : World) : World :=
  mkWorld s (mode w) (cameraError w) (histogramData w) (videoRef w) (canvasRef w)
          (requestRef w) (frameRequests w) (nextHandle w) (randoms w) (taken w).
Definition set_mode (m : Mode) (w : World) : World :=
  mkWorld (settings w) m (cameraError w) (histogramData w) (videoRef w) (canvasRef w)
          (requestRef w) (frameRequests w) (nextHandle w) (randoms w) (taken w).
Definition set_cameraError (e : option string) (w : World) : World :=
  mkWorld (settings w) (mode w) e (histogramData w) (videoRef w) (canvasRef w)
          (requestRef w) (frameRequests w) (nextHandle w) (randoms w) (taken w).
Definition set_histogramData (h : list Q) (w : World) : World :=
  mkWorld (settings w) (mode w) (cameraError w) h (videoRef w) (canvasRef w)
          (requestRef w) (frameRequests w) (nextHandle w) (randoms w) (taken w).
Definition set_videoRef (v : option HTMLVideoElement) (w : World) : World :=
  mkWorld (settings w) (mode w) (cameraError w) (histogramData w) v (canvasRef w)
          (requestRef w) (frameRequests w) (nextHandle w) (randoms w) (taken w).
Definition set_canvasRef (c : option HTMLCanvasElement) (w : World) : World :=
  mkWorld (settings w) (mode w) (cameraError w) (histogramData w) (videoRef w) c
          (requestRef w) (frameRequests w) (nextHandle w) (randoms w) (taken w).
Definition set_requestRef (r : option Z) (w : World) : World :=
  mkWorld (settings w) (mode w) (cameraError w) (histogramData w) (videoRef w) (canvasRef w)
          r (frameRequests w) (nextHandle w) (randoms w) (taken w).
Definition set_frameRequests (q : list (Z * Callback)) (w : World) : World :=
  mkWorld (settings w) (mode w) (cameraError w) (histogramData w) (videoRef w) (canvasRef w)
          (requestRef w) q (nextHandle w) (randoms w) (taken w).
Definition set_nextHandle (n : Z) (w : World) : World :=
  mkWorld (settings w) (mode w) (cameraError w) (histogramData w) (videoRef w) (canvasRef w)
          (requestRef w) (frameRequests w) n (randoms w) (taken w).
Definition set_taken (n : nat) (w : World) : World :=
  mkWorld (settings w) (mode w) (cameraError w) (histogramData w) (videoRef w) (canvasRef w)
          (requestRef w) (frameRequests w) (nextHandle w) (randoms w) n.

(** ** Statements as world transformers *)

Definition M (A : Type) : Type := World -> A * World.

Definition ret {A} (a : A) : M A := fun w => (a, w).
Definition bind {A B} (m : M A) (k : A -> M B) : M B :=
  fun w => let (a, w') := m w in k a w'.
Definition exec {A} (m : M A) (w : World) : World := snd (m w).

Notation "x <- m ;; k" := (bind m (fun x => k))
  (at level 61, m at next level, right associativity).
Notation "m ;; k" := (bind m (fun _ => k))
  (at level 61, right associativity).

Definition skip : M unit := ret tt.

(** [Math.random()] *)
Definition Math_random : M Q :=
  fun w => (randoms w (taken w), set_taken (S (taken w)) w).

(** A call or property write on the context of [canvasRef.current], when
    it returns ([Strict.ctx] has the calls that throw). *)
Definition ctx (op : CtxOp) : M unit :=
  fun w =>
    match canvasRef w with
    | Some c =>
        (tt, set_canvasRef
               (Some (mkCanvas (width c) (height c) (context2d c) (calls c ++ [op]))) w)
    | None => (tt, w)
    end.

(** [requestAnimationFrame(cb)]: append to the callback list, return a
    fresh non-zero handle. *)
Definition requestAnimationFrame (cb : Callback) : M Z :=
  fun w =>
    let h := nextHandle w in
    (h, set_nextHandle (h + 1) (set_frameRequests (frameRequests w ++ [(h, cb)]) w)).

(** [cancelAnimationFrame(h)] *)
Definition cancelAnimationFrame (h : Z) : M unit :=
  fun w =>
    (tt, set_frameRequests
           (List.filter (fun e => negb (fst e =? h)) (frameRequests w)) w).

(** [for (let i = start; i < bound; i += step) body(i)], unrolled at most
    [fuel] times. *)
Fixpoint forFrom (fuel : nat) (i bound step : Z) (body : Z -> M unit) : M unit :=
  match fuel with
  | O => skip
  | S fuel' =>
      if i <? bound
      then body i ;; forFrom fuel' (i + step) bound step body
      else skip
  end.

(** With a positive step, [bound - start] rounds always reach the exit
    test (lemma [forFrom_fuel]). *)
Definition for_ (start bound step : Z) (body : Z -> M unit) : M unit :=
  forFrom (Z.to_nat (bound - start)) start bound step body.

(** [xs.map(() => f())] for an effectful [f]. *)
Fixpoint mapM {A B} (f : A -> M B) (xs : list A) : M (list B) :=
  match xs with
  | [] => ret []
  | x :: rest => y <- f x ;; ys <- mapM f rest ;; ret (y :: ys)
  end.

Definition Qlt_bool (x y : Q) : bool := negb (Qle_bool y x).

Definition inNum (z : Z) : JSNum := Some (inject_Z z).

Section Component.
Context `{Host}.

(** ** processFrame, lines 129-200 *)

(** Lines 152-154: the offset of the sample taken at column [x], row [y]. *)
Definition sampleOffset (data : list Z) (width x y : Z) : JSNum :=
  let idx := (y * width + x) * 4 in
  let brightness :=
    ndiv (nadd (nadd (at_index data idx) (at_index data (idx + 1)))
               (at_index data (idx + 2))) 3 in
  nmul (ndiv brightness 255) (-40).

(** Lines 139-159, [mode === 'relief'].  With the filter and the composite
    operation just reset and [globalAlpha] at 1, the canvas holds the
    video frame when [getImageData] reads it. *)
Definition wireframe (video : HTMLVideoElement) (width height : Z) : M unit :=
  ctx (DrawVideo 0 0 width height) ;;
  ctx (GetImageData 0 0 width height) ;;
  let data := imageDataOf (currentFrame video) width height in
  ctx (SetFillStyle "#0a0a0a") ;;
  ctx (FillRect 0 0 width height) ;;
  ctx (SetStrokeStyle "#22d3ee") ;;
  ctx (SetLineWidth 1) ;;
  let step := 20 in
  for_ 0 height step (fun y =>
    ctx BeginPath ;;
    for_ 0 width step (fun x =>
      let offset := sampleOffset data width x y in
      if x =? 0 then ctx (MoveTo x (nadd (inNum y) offset))
      else ctx (LineTo x (nadd (inNum y) offset))) ;;
    ctx Stroke).

(** Lines 161-163: the filter string. *)
Definition filters (settings : CameraSettings) : string :=
  let filters :=
    ("brightness(" ++ Number_toString (brightness settings) ++ "%) contrast("
       ++ Number_toString (contrast settings) ++ "%) saturate("
       ++ Number_toString (saturation settings) ++ "%) blur("
       ++ Number_toString (bokeh settings / 40)%Q ++ "px)")%string in
  let filters :=
    match lut settings with
    | LutCineTeal => (filters ++ " hue-rotate(180deg) saturate(130%)")%string
    | _ => filters
    end in
  match lut settings with
  | LutVintage => (filters ++ " sepia(40%) contrast(90%) brightness(95%)")%string
  | _ => filters
  end.

(** Lines 165-166. *)
Definition baseGrade (settings : CameraSettings) (width height : Z) : M unit :=
  ctx (SetFilter (filters settings)) ;;
  ctx (DrawVideo 0 0 width height).

(** Lines 168-175. *)
Definition glowStage (settings : CameraSettings) : M unit :=
  if Qlt_bool 0 (glow settings) then
    ctx (SetGlobalAlpha (glow settings / 150)%Q) ;;
    ctx (SetGlobalCompositeOperation Screen) ;;
    ctx (SetFilter ("blur(" ++ Number_toString (glow settings * 0.8)%Q
                      ++ "px) brightness(140%)")%string) ;;
    ctx (DrawCanvas 0 0) ;;
    ctx (SetGlobalCompositeOperation SourceOver) ;;
    ctx (SetGlobalAlpha 1)
  else skip.

(** Lines 177-191, [mode === 'scan']. *)
Definition scanOverlay (width height : Z) : M unit :=
  ctx (SetStrokeStyle "rgba(34, 211, 238, 0.4)") ;;
  ctx (SetLineWidth 0.5) ;;
  ctx BeginPath ;;
  for_ 0 width 60 (fun i => ctx (MoveTo i (inNum 0)) ;; ctx (LineTo i (inNum height))) ;;
  for_ 0 height 60 (fun i => ctx (MoveTo 0 (inNum i)) ;; ctx (LineTo width (inNum i))) ;;
  ctx Stroke ;;
  ctx (SetFillStyle "#22d3ee") ;;
  for_ 0 30 1 (fun _ =>
    r1 <- Math_random ;;
    let rx := Qfloor (r1 * inject_Z width) in
    r2 <- Math_random ;;
    let ry := Qfloor (r2 * inject_Z height) in
    ctx (FillRect rx ry 3 3)).

(** Lines 194-196. *)
Definition histogramSampling : M unit :=
  r <- Math_random ;;
  if Qlt_bool 0.85 r then
    fun w =>
      let (fresh, w') :=
        mapM (fun _ : Q => r' <- Math_random ;; ret (5 + r' * 95)%Q) (histogramData w) w in
      (tt, set_histogramData fresh w')
  else skip.

(** Lines 131-197: what runs once both refs are set and the video has
    [readyState === 4]. *)
Definition draw (settings : CameraSettings) (mode : Mode)
    (video : HTMLVideoElement) (canvas : HTMLCanvasElement) : M unit :=
  if context2d canvas then
    let width := width canvas in
    let height := height canvas in
    ctx (SetFilter "none") ;;
    ctx (SetGlobalCompositeOperation SourceOver) ;;
    match mode with
    | Relief => wireframe video width height
    | _ =>
        baseGrade settings width height ;;
        glowStage settings ;;
        match mode with
        | Scan => scanOverlay width height
        | _ => skip
        end
    end ;;
    histogramSampling
  else skip.

(** Line 130: the guard around the drawing. *)
Definition whenReady (settings : CameraSettings) (mode : Mode) : M unit :=
  fun w =>
    match videoRef w, canvasRef w with
    | Some video, Some canvas =>
        if readyState video =? 4 then draw settings mode video canvas w
        else (tt, w)
    | _, _ => (tt, w)
    end.

Definition processFrame (settings : CameraSettings) (mode : Mode) : M unit :=
  whenReady settings mode ;;
  h <- requestAnimationFrame (ProcessFrame settings mode) ;;
  fun w => (tt, set_requestRef (Some h) w).

(** ** The camera: initCamera (lines 62-99) and the mount effect (101-109) *)

(** How a [getUserMedia] request ends. *)
Inductive GetUserMedia : Type :=
| GumResolves (trackLabels : list string)
| GumRejects (message : string).

(** A stream as the browser hands it over: no track stopped yet. *)
Definition newStream (labels : list string) : MediaStream :=
  map (fun l => mkTrack l 0) labels.

(** [if (videoRef.current) { srcObject = stream; onloadedmetadata = handler }] *)
Definition attach (stream : MediaStream) (handler : MetadataHandler) : M unit :=
  fun w =>
    match videoRef w with
    | Some v =>
        (tt, set_videoRef
               (Some (mkVideo (readyState v) (videoWidth v) (videoHeight v)
                              (Some stream) (Some handler) (playCalls v)
                              (currentFrame v))) w)
    | None => (tt, w)
    end.

(** [initCamera] run to completion, given how its two requests end (the
    second is only issued when the first rejects). *)
Definition initCamera (primary fallback : GetUserMedia) : M unit :=
  (fun w => (tt, set_cameraError None w)) ;;
  match primary with
  | GumResolves labels => attach (newStream labels) SizeCanvasAndPlay
  | GumRejects _ =>
      match fallback with
      | GumResolves labels => attach (newStream labels) PlayOnly
      | GumRejects message =>
          fun w =>
            (tt, set_cameraError
                   (Some (if String.eqb message ""
                          then "Could not access rear camera."%string
                          else message)) w)
      end
  end.

(** [videoRef.current?.play()] *)
Definition play : M unit :=
  fun w =>
    match videoRef w with
    | Some v =>
        (tt, set_videoRef
               (Some (mkVideo (readyState v) (videoWidth v) (videoHeight v)
                              (srcObject v) (onloadedmetadata v) (S (playCalls v))
                              (currentFrame v))) w)
    | None => (tt, w)
    end.

(** Lines 77-80: the body of the first handler.  Each dimension write
    resets the context. *)
Definition sizeCanvas : M unit :=
  fun w =>
    match canvasRef w, videoRef w with
    | Some c, Some v =>
        (tt, set_canvasRef
               (Some (mkCanvas (videoWidth v) (videoHeight v) (context2d c)
                               (calls c ++ [ResetBySize; ResetBySize]))) w)
    | _, _ => (tt, w)
    end.

Definition runHandler (h : MetadataHandler) : M unit :=
  match h with
  | SizeCanvasAndPlay => sizeCanvas ;; play
  | PlayOnly => play
  end.

(** The element learns the stream's intrinsic size and fires
    [loadedmetadata]. *)
Definition loadedmetadata (vw vh : Z) : M unit :=
  fun w =>
    match videoRef w with
    | Some v =>
        let w1 :=
          set_videoRef
            (Some (mkVideo (Z.max (readyState v) 1) vw vh (srcObject v)
                           (onloadedmetadata v) (playCalls v) (currentFrame v))) w in
        match onloadedmetadata v with
        | Some h => runHandler h w1
        | None => (tt, w1)
        end
    | None => (tt, w)
    end.

(** The decoder moves on: a new [readyState] and current frame. *)
Definition videoProgress (rs : Z) (frame : Raster) : M unit :=
  fun w =>
    match videoRef w with
    | Some v =>
        (tt, set_videoRef
               (Some (mkVideo rs (videoWidth v) (videoHeight v) (srcObject v)
                              (onloadedmetadata v) (playCalls v) frame)) w)
    | None => (tt, w)
    end.

(** The source changes resolution while playing (the element fires
    [resize], for which the component installs no handler). *)
Definition sourceResize (vw vh : Z) : M unit :=
  fun w =>
    match videoRef w with
    | Some v =>
        (tt, set_videoRef
               (Some (mkVideo (readyState v) vw vh (srcObject v)
                              (onloadedmetadata v) (playCalls v) (currentFrame v))) w)
    | None => (tt, w)
    end.

(** Lines 103-108: cleanup of the mount effect. *)
Definition cameraEffectCleanup : M unit :=
  fun w =>
    match videoRef w with
    | Some v =>
        match srcObject v with
        | Some stream =>
            (tt, set_videoRef
                   (Some (mkVideo (readyState v) (videoWidth v) (videoHeight v)
                                  (Some (map stop stream)) (onloadedmetadata v)
                                  (playCalls v) (currentFrame v))) w)
        | None => (tt, w)
        end
    | None => (tt, w)
    end.

(** ** The frame loop: the effect of lines 202-205 *)

Definition frameEffect (settings : CameraSettings) (mode : Mode) : M unit :=
  h <- requestAnimationFrame (ProcessFrame settings mode) ;;
  fun w => (tt, set_requestRef (Some h) w).

(** [if (requestRef.current) cancelAnimationFrame(requestRef.current)];
    [null] and [0] are falsy. *)
Definition frameEffectCleanup : M unit :=
  fun w =>
    match requestRef w with
    | Some h => if h =? 0 then (tt, w) else cancelAnimationFrame h w
    | None => (tt, w)
    end.

Definition runCallback (cb : Callback) : M unit :=
  match cb with
  | ProcessFrame s m => processFrame s m
  end.

(** The browser runs the animation frame callbacks: the list is emptied,
    then each callback taken from it is invoked in order. *)
Definition animationFrame : M unit :=
  fun w =>
    (tt, fold_left (fun w' e => exec (runCallback (snd e)) w')
                   (frameRequests w) (set_frameRequests [] w)).

(** A state update that changes [settings] or [mode]: the component
    renders again, [useCallback] yields a new [processFrame], and the
    effect that depends on it is cleaned up and run again. *)
Definition rerender (s : CameraSettings) (m : Mode) : M unit :=
  (fun w => (tt, set_mode m (set_settings s w))) ;;
  frameEffectCleanup ;;
  frameEffect s m.

Definition Mode_eqb (a b : Mode) : bool :=
  match a, b with
  | Camera, Camera | Scan, Scan | Relief, Relief => true
  | _, _ => false
  end.

(** ** Life of the component *)

(** What can happen to a mounted component: [initCamera] completes, the
    video element reports progress, the browser runs the animation frame
    callbacks, the user changes a setting or the mode, or some other
    script of the page takes an animation frame handle. *)
Inductive Event : Type :=
| InitCameraDone (primary fallback : GetUserMedia)
| LoadedMetadata (vw vh : Z)
| VideoProgress (readyState : Z) (frame : Raster)
| SourceResize (vw vh : Z)
| AnimationFrame
| SetSettings (s : CameraSettings)
| SetMode (m : Mode)
| ForeignFrameRequest.

Definition step (w : World) (e : Event) : World :=
  match e with
  | InitCameraDone p f => exec (initCamera p f) w
  | LoadedMetadata vw vh => exec (loadedmetadata vw vh) w
  | VideoProgress rs fr => exec (videoProgress rs fr) w
  | SourceResize vw vh => exec (sourceResize vw vh) w
  | AnimationFrame => exec animationFrame w
  | SetSettings s => exec (rerender s (mode w)) w
  | SetMode m => if Mode_eqb m (mode w) then w else exec (rerender (settings w) m) w
  | ForeignFrameRequest => set_nextHandle (nextHandle w + 1) w
  end.

Definition run (w : World) (events : list Event) : World := fold_left step events w.

(** The first render: the JSX creates the hidden video and a 1920 x 1080
    canvas, both refs are set, and the effects run ([initCamera] only
    gets as far as its first [await]; its completion is an event). *)
Definition mounted (rnd : nat -> Q) (has2d : bool) (frame : Raster) : World :=
  exec (frameEffect INITIAL_SETTINGS Camera)
       (mkWorld INITIAL_SETTINGS Camera None (repeat 20%Q 24)
                (Some (mkVideo 0 0 0 None None 0 frame))
                (Some (mkCanvas 1920 1080 has2d []))
                None [] 1 rnd 0).

(** React takes the elements of the component out of the document and
    sets the refs it had attached to them to [null].  The value is the
    video element it took out. *)
Definition detachRefs : M (option HTMLVideoElement) :=
  fun w => (videoRef w, set_canvasRef None (set_videoRef None w)).

(** Teardown.  From React 17 on the cleanups of [useEffect] run after the
    refs were detached, in declaration order.  The value is the video
    element as teardown leaves it: what is done to it can only be done
    through [videoRef]. *)
Definition unmount : M (option HTMLVideoElement) :=
  video <- detachRefs ;;
  cameraEffectCleanup ;;
  frameEffectCleanup ;;
  ret video.

End Component.

End App.

(* ===================================================================== *)
(** * The other App component of the repository                           *)
(* ===================================================================== *)

(** The repository holds a second [App] (title LUMINA QUANTUM v4.0, modes
    cinema / topography / relief) whose [processFrame] starts with a
    resize stage.  Only that stage is needed here. *)
Module QuantumApp.
Import Dom.

(** [if (canvas.width !== videoWidth) { canvas.width = videoWidth;
    canvas.height = videoHeight; }] *)
Definition resizeOnChange (video : HTMLVideoElement) (canvas : HTMLCanvasElement)
  : HTMLCanvasElement :=
  if negb (width canvas =? videoWidth video)
  then mkCanvas (videoWidth video) (videoHeight video) (context2d canvas)
                (calls canvas ++ [ResetBySize; ResetBySize])
  else canvas.

End QuantumApp.

(* ===================================================================== *)
(** * The design document's description of the base grade                 *)
(* ===================================================================== *)

Module Design.

(** One CSS filter function: name, argument, unit. *)
Record FilterFn : Type := mkFilterFn { fname : string; farg : string; funit : string }.

Definition renderFn (f : FilterFn) : string :=
  (fname f ++ "(" ++ farg f ++ funit f ++ ")")%string.

(** A filter list is written as its functions separated by one space. *)
Definition renderFilter (fs : list FilterFn) : string :=
  String.concat " " (map renderFn fs).

(** The fixed scale constant of the blur. *)
Definition bokehScale : Q := 40.

(** The fixed adjustments a look-up-table style appends. *)
Definition lutAdjustments (l : Lut) : list FilterFn :=
  match l with
  | LutCineTeal => [mkFilterFn "hue-rotate" "180" "deg"; mkFilterFn "saturate" "130" "%"]
  | LutVintage => [mkFilterFn "sepia" "40" "%"; mkFilterFn "contrast" "90" "%";
                   mkFilterFn "brightness" "95" "%"]
  | LutNone | LutLogC => []
  end.

(** Brightness, contrast and saturation straight from the settings, blur
    from bokeh over the scale constant, then the style's adjustments. *)
Definition baseGradeFilter `{Host} (s : CameraSettings) : list FilterFn :=
  [ mkFilterFn "brightness" (Number_toString (brightness s)) "%";
    mkFilterFn "contrast" (Number_toString (contrast s)) "%";
    mkFilterFn "saturate" (Number_toString (saturation s)) "%";
    mkFilterFn "blur" (Number_toString (bokeh s / bokehScale)%Q) "px" ]
  ++ lutAdjustments (lut s).

End Design.

(* ===================================================================== *)
(** * A reference host                                                    *)
(* ===================================================================== *)

(** A concrete [Host] on which the definitions can be run: decimal
    printing of numbers and a parser for JSON texts without escapes,
    fractions or exponents. *)
Module RefHost.

Definition digitChar (d : Z) : ascii := ascii_of_nat (48 + Z.to_nat d).

Fixpoint digitsOf (fuel : nat) (n : Z) (acc : string) : string :=
  match fuel with
  | O => acc
  | S fuel' =>
      let acc' := String (digitChar (n mod 10)) acc in
      if n / 10 =? 0 then acc' else digitsOf fuel' (n / 10) acc'
  end.

Definition showZ (z : Z) : string :=
  let n := Z.abs z in
  let ds := digitsOf (S (Z.to_nat (Z.log2 n))) n "" in
  if z <? 0 then String "-" ds else ds.

Fixpoint fraction (fuel : nat) (num den : Z) : string :=
  match fuel with
  | O => ""
  | S fuel' =>
      if num =? 0 then ""
      else String (digitChar (num * 10 / den)) (fraction fuel' (num * 10 mod den) den)
  end.

Definition showQ (q : Q) : string :=
  let n := Qnum q in
  let d := Zpos (Qden q) in
  let whole := Z.abs n / d in
  let rest := Z.abs n mod d in
  let sign := if n <? 0 then "-"%string else ""%string in
  if rest =? 0 then (sign ++ showZ whole)%string
  else (sign ++ showZ whole ++ "." ++ fraction 17 rest d)%string.

Definition quote : ascii := "034"%char.
Definition backslash : ascii := "092"%char.

Definition isWs (c : ascii) : bool :=
  (c =? " ")%char || (c =? "009")%char || (c =? "010")%char || (c =? "013")%char.

Fixpoint skipWs (cs : list ascii) : list ascii :=
  match cs with
  | c :: r => if isWs c then skipWs r else cs
  | [] => []
  end.

Definition isDigit (c : ascii) : bool :=
  let n := nat_of_ascii c in (48 <=? n)%nat && (n <=? 57)%nat.

Fixpoint takeDigits (cs : list ascii) (acc : Z) : Z * list ascii :=
  match cs with
  | c :: r =>
      if isDigit c then takeDigits r (acc * 10 + Z.of_nat (nat_of_ascii c - 48))
      else (acc, cs)
  | [] => (acc, [])
  end.

(** The characters up to the closing quote. *)
Fixpoint takeString (cs : list ascii) : option (string * list ascii) :=
  match cs with
  | [] => None
  | c :: r =>
      if (c =? quote)%char then Some (EmptyString, r)
      else if (c =? backslash)%char then None
      else match takeString r with
           | Some (s, r') => Some (String c s, r')
           | None => None
           end
  end.

Fixpoint dropPrefix (p cs : list ascii) : option (list ascii) :=
  match p, cs with
  | [], _ => Some cs
  | a :: p', c :: cs' => if (a =? c)%char then dropPrefix p' cs' else None
  | _ :: _, [] => None
  end.

Definition literal (word : string) (v : JSON) (cs : list ascii)
  : option (JSON * list ascii) :=
  option_map (fun r => (v, r)) (dropPrefix (list_ascii_of_string word) cs).

Fixpoint parseValue (fuel : nat) (cs : list ascii) : option (JSON * list ascii) :=
  match fuel with
  | O => None
  | S fuel' =>
      match skipWs cs with
      | [] => None
      | c :: r =>
          if (c =? "{")%char then
            match skipWs r with
            | c' :: r' =>
                if (c' =? "}")%char then Some (JObject [], r')
                else option_map (fun p => (JObject (fst p), snd p))
                                (parseMembers fuel' (c' :: r'))
            | [] => None
            end
          else if (c =? "[")%char then
            match skipWs r with
            | c' :: r' =>
                if (c' =? "]")%char then Some (JArray [], r')
                else option_map (fun p => (JArray (fst p), snd p))
                                (parseElements fuel' (c' :: r'))
            | [] => None
            end
          else if (c =? quote)%char then
            option_map (fun p => (JString (fst p), snd p)) (takeString r)
          else if (c =? "-")%char then
            match r with
            | d :: _ =>
                if isDigit d
                then let (n, r') := takeDigits r 0 in Some (JNumber (inject_Z (- n)), r')
                else None
            | [] => None
            end
          else if isDigit c then
            let (n, r') := takeDigits (c :: r) 0 in Some (JNumber (inject_Z n), r')
          else if (c =? "t")%char then literal "true" (JBool true) (c :: r)
          else if (c =? "f")%char then literal "false" (JBool false) (c :: r)
          else if (c =? "n")%char then literal "null" JNull (c :: r)
          else None
      end
  end
with parseElements (fuel : nat) (cs : list ascii) : option (list JSON * list ascii) :=
  match fuel with
  | O => None
  | S fuel' =>
      match parseValue fuel' cs with
      | Some (v, r) =>
          match skipWs r with
          | c :: r' =>
              if (c =? ",")%char then
                option_map (fun p => (v :: fst p, snd p)) (parseElements fuel' r')
              else if (c =? "]")%char then Some ([v], r')
              else None
          | [] => None
          end
      | None => None
      end
  end
with parseMembers (fuel : nat) (cs : list ascii)
  : option (list (string * JSON) * list ascii) :=
  match fuel with
  | O => None
  | S fuel' =>
      match skipWs cs with
      | q :: r =>
          if (q =? quote)%char then
            match takeString r with
            | Some (k, r1) =>
                match skipWs r1 with
                | c :: r2 =>
                    if (c =? ":")%char then
                      match parseValue fuel' r2 with
                      | Some (v, r3) =>
                          match skipWs r3 with
                          | c' :: r4 =>
                              if (c' =? ",")%char then
                                option_map (fun p => ((k, v) :: fst p, snd p))
                                           (parseMembers fuel' r4)
                              else if (c' =? "}")%char then Some ([(k, v)], r4)
                              else None
                          | [] => None
                          end
                      | None => None
                      end
                    else None
                | [] => None
                end
            | None => None
            end
          else None
      | [] => None
      end
  end.

Definition parse (s : string) : Completion JSON :=
  let cs := list_ascii_of_string s in
  match parseValue (2 * List.length cs + 2) cs with
  | Some (v, rest) =>
      match skipWs rest with
      | [] => Normal v
      | _ :: _ => Throw SyntaxError
      end
  | None => Throw SyntaxError
  end.

#[export] Instance host : Host := {| JSON_parse := parse; Number_toString := showQ |}.

End RefHost.

(* ===================================================================== *)
(** * Vocabulary of the properties                                        *)
(* ===================================================================== *)

Module Props.
Import Dom App.


(** What one step leaves alone when all it does is draw, take random
    numbers and refresh the histogram. *)
Definition sameOutside (w w' : World) : Prop :=
  settings w' = settings w /\ mode w' = mode w /\ cameraError w' = cameraError w /\
  videoRef w' = videoRef w /\ requestRef w' = requestRef w /\
  frameRequests w' = frameRequests w /\ nextHandle w' = nextHandle w /\
  randoms w' = randoms w.

(** [w'] has the canvas of [w] with [ops] appended to its context log. *)
Definition emitted (w w' : World) (ops : list CtxOp) : Prop :=
  match canvasRef w with
  | Some c =>
      canvasRef w' = Some (mkCanvas (width c) (height c) (context2d c) (calls c ++ ops))
  | None => canvasRef w' = None
  end.

(** The world with [ops] appended to the context log of its canvas. *)
Definition emit (ops : list CtxOp) (w : World) : World :=
  match canvasRef w with
  | Some c =>
      set_canvasRef (Some (mkCanvas (width c) (height c) (context2d c) (calls c ++ ops))) w
  | None => w
  end.

(** [m] only draws, and what it draws satisfies [P]. *)
Definition Draws {A} (P : list CtxOp -> Prop) (m : M A) : Prop :=
  forall w, sameOutside w (snd (m w)) /\ exists ops, emitted w (snd (m w)) ops /\ P ops.

(** Properties of logs that hold of the empty log and of concatenations. *)
Class Closed (P : list CtxOp -> Prop) : Prop := {
  closed_nil : P [];
  closed_app : forall a b, P a -> P b -> P (a ++ b)
}.

(** Running [ops] from a context with [globalAlpha] 1 ends with
    [globalAlpha] 1. *)
Definition keepsAlpha (ops : list CtxOp) : Prop :=
  forall st, globalAlpha st = 1%Q -> globalAlpha (fold_left applyOp ops st) = 1%Q.

(** Operations that leave [globalAlpha] alone. *)
Definition alphaNeutral (op : CtxOp) : Prop :=
  match op with
  | SetGlobalAlpha _ | ResetBySize => False
  | _ => True
  end.

(** What the glow pass does to the context when it runs. *)
Definition glowOps `{Host} (s : CameraSettings) : list CtxOp :=
  [ SetGlobalAlpha (glow s / 150)%Q;
    SetGlobalCompositeOperation Screen;
    SetFilter ("blur(" ++ Number_toString (glow s * 0.8)%Q ++ "px) brightness(140%)")%string;
    DrawCanvas 0 0;
    SetGlobalCompositeOperation SourceOver;
    SetGlobalAlpha 1 ].

(** What every frame of the standard pipeline starts with: the reset of
    the context, then the base grade. *)
Definition baseOps `{Host} (s : CameraSettings) (c : HTMLCanvasElement) : list CtxOp :=
  [ SetFilter "none";
    SetGlobalCompositeOperation SourceOver;
    SetFilter (filters s);
    DrawVideo 0 0 (width c) (height c) ].


(** Column [x], row [y] is a point the wireframe loops visit. *)
Definition sampled (width height x y : Z) : Prop :=
  0 <= x < width /\ 0 <= y < height /\ x mod 20 = 0 /\ y mod 20 = 0.


(** A path operation of the wireframe goes through a sampled point moved
    by the offset computed there. *)
Definition atSample (data : list Z) (width height : Z) (op : CtxOp) : Prop :=
  match op with
  | MoveTo x y | LineTo x y =>
      exists row, sampled width height x row /\
                  y = nadd (inNum row) (sampleOffset data width x row)
  | _ => True
  end.

(** What a loop appends to the log when round [i] appends [f i]. *)
Fixpoint loopOps (fuel : nat) (i bound step : Z) (f : Z -> list CtxOp) : list CtxOp :=
  match fuel with
  | O => []
  | S fuel' => if i <? bound then f i ++ loopOps fuel' (i + step) bound step f else []
  end.

(** The path operation of the sample at column [x], row [y]. *)
Definition pathOp (data : list Z) (width x y : Z) : CtxOp :=
  if x =? 0 then MoveTo x (nadd (inNum y) (sampleOffset data width x y))
  else LineTo x (nadd (inNum y) (sampleOffset data width x y)).

(** Everything the relief branch does to the context. *)
Definition wireframeOps (frame : Raster) (width height : Z) : list CtxOp :=
  let data := imageDataOf frame width height in
  [ DrawVideo 0 0 width height; GetImageData 0 0 width height;
    SetFillStyle "#0a0a0a"; FillRect 0 0 width height;
    SetStrokeStyle "#22d3ee"; SetLineWidth 1 ]
  ++ loopOps (Z.to_nat (height - 0)) 0 height 20 (fun y =>
       [BeginPath]
       ++ loopOps (Z.to_nat (width - 0)) 0 width 20 (fun x => [pathOp data width x y])
       ++ [Stroke]).

(** The offset the design document gives for a pixel: its luminance, the
    mean of the three colour channels, over 255, times the largest
    upward shift of 40 pixels (up is negative on the canvas). *)
Definition designOffset (p : Pixel) : Q :=
  ((inject_Z (red p) + inject_Z (green p) + inject_Z (blue p)) / 3 / 255 * -40)%Q.

(** Exactly one frame callback is pending and [requestRef] holds its
    handle. *)
Definition onePending (w : World) : Prop :=
  exists h cb, frameRequests w = [(h, cb)] /\ requestRef w = Some h /\ 0 < h < nextHandle w.

(** No track of the attached stream has been stopped. *)
Definition tracksLive (w : World) : Prop :=
  forall v stream, videoRef w = Some v -> srcObject v = Some stream ->
    Forall (fun t => stopCalls t = 0%nat) stream.

(** Between frames the context has [globalAlpha] 1. *)
Definition alphaOne (w : World) : Prop :=
  forall c, canvasRef w = Some c -> globalAlpha (stateAfter (calls c)) = 1%Q.

(** What holds of the component between any two events. *)
Definition Inv (w : World) : Prop := onePending w /\ tracksLive w /\ alphaOne w.

(** The settings fields [processFrame] reads. *)
Definition sameRendering (s1 s2 : CameraSettings) : Prop :=
  brightness s1 = brightness s2 /\ contrast s1 = contrast s2 /\
  saturation s1 = saturation s2 /\ bokeh s1 = bokeh s2 /\
  glow s1 = glow s2 /\ lut s1 = lut s2.

End Props.

(* ===================================================================== *)
(** * Vocabulary for the frame pipeline beyond the design's claims         *)
(* ===================================================================== *)

Module Traces.
Import Dom App Props.

(** [Math.random] yields numbers in [0, 1). *)
Definition unitInterval (rnd : nat -> Q) : Prop := forall n, (0 <= rnd n < 1)%Q.

(** The squares of the scan overlay when [t] random numbers were taken
    before: square [k] takes numbers [t + 2k] and [t + 2k + 1]. *)
Definition squares (rnd : nat -> Q) (t : nat) (width height : Z) (n : nat) : list CtxOp :=
  map (fun k => FillRect (Qfloor (rnd (2 * k + t)%nat * inject_Z width))
                         (Qfloor (rnd (S (2 * k) + t)%nat * inject_Z height)) 3 3)
      (seq 0 n).

(** The grid of the scan overlay, up to the fill style of the squares. *)
Definition gridOps (width height : Z) : list CtxOp :=
  [ SetStrokeStyle "rgba(34, 211, 238, 0.4)"; SetLineWidth 0.5; BeginPath ]
  ++ loopOps (Z.to_nat (width - 0)) 0 width 60
       (fun i => [MoveTo i (inNum 0); LineTo i (inNum height)])
  ++ loopOps (Z.to_nat (height - 0)) 0 height 60
       (fun i => [MoveTo 0 (inNum i); LineTo width (inNum i)])
  ++ [ Stroke; SetFillStyle "#22d3ee" ].


(** A 3 x 3 square whose corner is a pixel of the canvas. *)
Definition squareInside (width height : Z) (op : CtxOp) : Prop :=
  match op with
  | FillRect x y w h => 0 <= x < width /\ 0 <= y < height /\ w = 3 /\ h = 3
  | _ => False
  end.

(** Operations that leave the compositing state alone. *)
Definition plainOp (op : CtxOp) : Prop :=
  match op with
  | SetGlobalAlpha _ | SetGlobalCompositeOperation _ | ResetBySize => False
  | _ => True
  end.

(** Run from the default compositing state, [ops] end in it. *)
Definition restoresState (ops : list CtxOp) : Prop :=
  fold_left applyOp ops defaultCtxState = defaultCtxState.

(** Between frames the context composites source-over at full opacity. *)
Definition stateClean (w : World) : Prop :=
  forall c, canvasRef w = Some c -> stateAfter (calls c) = defaultCtxState.

(** [m] keeps [I]. *)
Definition Preserves {A} (I : World -> Prop) (m : M A) : Prop :=
  forall w, I w -> I (snd (m w)).

(** The histogram has its 24 bars; each is between 5 and 100 when the
    random numbers are in [0, 1). *)
Definition histogramOk (w : World) : Prop :=
  List.length (histogramData w) = 24%nat /\
  (unitInterval (randoms w) -> Forall (fun v => (5 <= v <= 100)%Q) (histogramData w)).

(** Every channel of every pixel is a byte. *)
Definition bytes (frame : Raster) : Prop :=
  forall x y, 0 <= red (frame x y) <= 255 /\ 0 <= green (frame x y) <= 255 /\
              0 <= blue (frame x y) <= 255.

(** A path operation of the wireframe has a number as ordinate, at most
    40 above the row it samples and never below it. *)
Definition liftedWithin (width height : Z) (op : CtxOp) : Prop :=
  match op with
  | MoveTo x y | LineTo x y =>
      exists row q, sampled width height x row /\ y = Some q /\
                    (inject_Z row - 40 <= q <= inject_Z row)%Q
  | _ => True
  end.

(** Events that neither reload the metadata, nor change the source's
    resolution, nor attach another stream. *)
Definition quiet (e : Event) : bool :=
  match e with
  | VideoProgress _ _ | AnimationFrame | SetSettings _ | SetMode _
  | ForeignFrameRequest => true
  | InitCameraDone _ _ | LoadedMetadata _ _ | SourceResize _ _ => false
  end.

(** The video reports [vw] x [vh] and the canvas has that size. *)
Definition sizedAs (vw vh : Z) (w : World) : Prop :=
  exists v c, videoRef w = Some v /\ canvasRef w = Some c /\
              videoWidth v = vw /\ videoHeight v = vh /\
              width c = vw /\ height c = vh.

End Traces.

(* ===================================================================== *)
(** * src/App.tsx: the handlers of the control surface                    *)
(* ===================================================================== *)

(** [takePhoto], [start3DScanAnalysis], [updateSetting], [triggerHaptics],
    the click handlers written inline in the JSX, and the expressions of
    the JSX that read [analysis] and [scanResult]. *)
Module Surface.
Import Dom GeminiService.

(** [s.split(sep)] for a separator of one character. *)
Fixpoint split (sep : ascii) (s : string) : list string :=
  match s with
  | EmptyString => [EmptyString]
  | String c rest =>
      if Ascii.eqb c sep then EmptyString :: split sep rest
      else match split sep rest with
           | piece :: pieces => String c piece :: pieces
           | [] => [String c EmptyString]
           end
  end.

(** [dataUrl.split(',')[1]]; [None] is [undefined]. *)
Definition afterComma (dataUrl : string) : option string :=
  nth_error (split ","%char dataUrl) 1.

(** The call sites of [updateSetting]: the key with the value given. *)
Inductive KeyValue : Type :=
| Key_iso (v : Q)
| Key_exposure (v : Q)
| Key_bokeh (v : Q)
| Key_glow (v : Q)
| Key_lut (l : Lut).

(** [{ ...prev, [key]: value }] *)
Definition spread (kv : KeyValue) (prev : CameraSettings) : CameraSettings :=
  match kv with
  | Key_iso v =>
      mkSettings (exposure prev) (brightness prev) (contrast prev) (saturation prev)
                 v (shutterSpeed prev) (whiteBalance prev) (stabilization prev)
                 (upscale prev) (hdr prev) (bokeh prev) (glow prev) (lut prev)
  | Key_exposure v =>
      mkSettings v (brightness prev) (contrast prev) (saturation prev)
                 (iso prev) (shutterSpeed prev) (whiteBalance prev) (stabilization prev)
                 (upscale prev) (hdr prev) (bokeh prev) (glow prev) (lut prev)
  | Key_bokeh v =>
      mkSettings (exposure prev) (brightness prev) (contrast prev) (saturation prev)
                 (iso prev) (shutterSpeed prev) (whiteBalance prev) (stabilization prev)
                 (upscale prev) (hdr prev) v (glow prev) (lut prev)
  | Key_glow v => App.with_glow v prev
  | Key_lut l => App.with_lut l prev
  end.

(** The component's state beyond what the frame loop uses.  [analysis]
    and [scanResult] start as [null]. *)
Record Ui : Type := mkUi {
  world : App.World;
  isRecording : bool;
  isBusy : bool;
  analysis : JSON;
  scanResult : JSON;
  capturedPhotos : list string;
  (** the calls of [navigator.vibrate], oldest first *)
  vibrations : list (list Z);
  (** the arguments of the [analyzeFrame] and [analyzeTopology] calls
      whose promise has not settled; [None] is [undefined] *)
  framesInFlight : list (option string);
  scansInFlight : list (option string)
}.

Definition set_world (x : App.World) (u : Ui) : Ui :=
  mkUi x (isRecording u) (isBusy u) (analysis u) (scanResult u) (capturedPhotos u)
       (vibrations u) (framesInFlight u) (scansInFlight u).
Definition set_isRecording (x : bool) (u : Ui) : Ui :=
  mkUi (world u) x (isBusy u) (analysis u) (scanResult u) (capturedPhotos u)
       (vibrations u) (framesInFlight u) (scansInFlight u).
Definition set_isBusy (x : bool) (u : Ui) : Ui :=
  mkUi (world u) (isRecording u) x (analysis u) (scanResult u) (capturedPhotos u)
       (vibrations u) (framesInFlight u) (scansInFlight u).
Definition set_analysis (x : JSON) (u : Ui) : Ui :=
  mkUi (world u) (isRecording u) (isBusy u) x (scanResult u) (capturedPhotos u)
       (vibrations u) (framesInFlight u) (scansInFlight u).
Definition set_scanResult (x : JSON) (u : Ui) : Ui :=
  mkUi (world u) (isRecording u) (isBusy u) (analysis u) x (capturedPhotos u)
       (vibrations u) (framesInFlight u) (scansInFlight u).
Definition set_capturedPhotos (x : list string) (u : Ui) : Ui :=
  mkUi (world u) (isRecording u) (isBusy u) (analysis u) (scanResult u) x
       (vibrations u) (framesInFlight u) (scansInFlight u).
Definition set_vibrations (x : list (list Z)) (u : Ui) : Ui :=
  mkUi (world u) (isRecording u) (isBusy u) (analysis u) (scanResult u) (capturedPhotos u)
       x (framesInFlight u) (scansInFlight u).
Definition set_framesInFlight (x : list (option string)) (u : Ui) : Ui :=
  mkUi (world u) (isRecording u) (isBusy u) (analysis u) (scanResult u) (capturedPhotos u)
       (vibrations u) x (scansInFlight u).
Definition set_scansInFlight (x : list (option string)) (u : Ui) : Ui :=
  mkUi (world u) (isRecording u) (isBusy u) (analysis u) (scanResult u) (capturedPhotos u)
       (vibrations u) (framesInFlight u) x.

(** The list without its element [k]. *)
Fixpoint without {A} (k : nat) (xs : list A) : list A :=
  match xs, k with
  | [], _ => []
  | _ :: rest, O => rest
  | x :: rest, S k' => x :: without k' rest
  end.

(** JavaScript truthiness of a parsed value. *)
Definition truthy (v : JSON) : bool :=
  match v with
  | JNull => false
  | JBool b => b
  | JNumber n => negb (Qeq_bool n 0)
  | JString s => negb (String.eqb s "")
  | JArray _ | JObject _ => true
  end.

(** The argument as the request carries it.  A [Request] holds a string,
    so [undefined] is written out; the two analysis functions only copy
    their argument into the request, and with the outcome of the call
    given their result does not depend on it (lemma
    [analysis_ignores_its_argument]). *)
Definition imageArgument (arg : option string) : string :=
  match arg with
  | Some base64 => base64
  | None => "undefined"
  end.

(** What React makes of a value placed among the children of an
    element: text for a string or a number, nothing for a boolean, [null]
    or [undefined], and the children of its items for an array. *)
Inductive Child : Type :=
| Text (s : string)
| Nothing
| Children (items : list Child).

(** The error React throws for an object among the children (the start
    of its message). *)
Definition notAChild : JSError := OtherError "Objects are not valid as a React child".

(** What the scan panel shows for a result. *)
Record Readout : Type := mkReadout {
  surfaceData : string;
  barWidth : string;
  (** the red box and what [scanResult.defects[0]] renders as in it *)
  meshError : option Child
}.

Inductive ScanPanel : Type :=
| Advice
| Result (r : Readout).

Section Handlers.
Context `{Host}.
(** ['vibrate' in navigator] *)
Variable hasVibrate : bool.
(** Conversions of the language that the repository relies on:
    [toLocaleString] of a number and of an array or object, [String] and
    [Number] of an array or object, [Number] of a string. *)
Variable Number_toLocaleString : Q -> string.
Variable Structured_toLocaleString : JSON -> Completion string.
Variable Structured_toString : JSON -> Completion string.
Variable Structured_toNumber : JSON -> Completion JSNum.
Variable String_toNumber : string -> JSNum.

(** Lines 111-113.  A single number is the pattern of one entry. *)
Definition triggerHaptics (intensity : list Z) (u : Ui) : Ui :=
  if hasVibrate then set_vibrations (vibrations u ++ [intensity]) u else u.

(** Lines 115-127 up to the [await]; [photo] is what
    [canvasRef.current.toDataURL('image/jpeg', 1.0)] returns. *)
Definition takePhoto (photo : string) (u : Ui) : Ui :=
  match App.canvasRef (world u) with
  | Some _ =>
      let u1 := triggerHaptics [40; 10; 20] u in
      let u2 := set_capturedPhotos (firstn 5 (photo :: capturedPhotos u1)) u1 in
      let u3 := set_isBusy true u2 in
      let base64 := afterComma photo in
      set_framesInFlight (framesInFlight u3 ++ [base64]) u3
  | None => u
  end.

(** Lines 124-125: the rest of [takePhoto] once the promise settled.  A
    rejection ends the function at the [await]. *)
Definition takePhoto_resume (res : Settled JSON) (u : Ui) : Ui :=
  match res with
  | Resolved r => set_isBusy false (set_analysis r u)
  | Rejected _ => u
  end.

(** Lines 207-215 up to the [await]; [dataUrl] is what
    [canvasRef.current.toDataURL('image/jpeg', 0.8)] returns. *)
Definition start3DScanAnalysis (dataUrl : string) (u : Ui) : Ui :=
  match App.canvasRef (world u) with
  | None => u
  | Some _ =>
      let u1 := set_isBusy true u in
      let u2 := triggerHaptics [30; 60; 30] u1 in
      set_scansInFlight (scansInFlight u2 ++ [afterComma dataUrl]) u2
  end.

(** Lines 213-214. *)
Definition start3DScanAnalysis_resume (res : Settled JSON) (u : Ui) : Ui :=
  match res with
  | Resolved r => set_isBusy false (set_scanResult r u)
  | Rejected _ => u
  end.

(** Lines 217-220. *)
Definition updateSetting (kv : KeyValue) (u : Ui) : Ui :=
  let u1 := triggerHaptics [5] u in
  set_world (App.step (world u1) (App.SetSettings (spread kv (App.settings (world u1))))) u1.

(** The mode buttons: [() => { setMode(m); triggerHaptics(10); }] *)
Definition pressMode (m : App.Mode) (u : Ui) : Ui :=
  triggerHaptics [10] (set_world (App.step (world u) (App.SetMode m)) u).

(** The record button:
    [() => { setIsRecording(!isRecording); triggerHaptics(25); }] *)
Definition pressRecord (u : Ui) : Ui :=
  triggerHaptics [25] (set_isRecording (negb (isRecording u)) u).

(** [mode === 'camera' || mode === 'relief'] *)
Definition cameraPanel (u : Ui) : bool :=
  match App.mode (world u) with
  | App.Camera | App.Relief => true
  | App.Scan => false
  end.

(** What the service call of an analysis ended in, seen through the
    function that made it. *)
Definition frameResult (o : CallOutcome) (arg : option string) : Settled JSON :=
  analyzeFrame (fun _ => o) (imageArgument arg).

Definition topologyResult (o : CallOutcome) (arg : option string) : Settled JSON :=
  analyzeTopology (fun _ => o) (imageArgument arg).

(** What the user and the service can do.  A button acts only while the
    JSX renders it, and the large scan button only while it is enabled. *)
Inductive Action : Type :=
| Loop (e : App.Event)
| PressMode (m : App.Mode)
| Change (kv : KeyValue)
| PressCapture (photo : string)
| PressRecord
| PressGenerate (dataUrl : string)
| PressRecalibrate (dataUrl : string)
| FrameSettles (k : nat) (o : CallOutcome)
| TopologySettles (k : nat) (o : CallOutcome).

Definition act (u : Ui) (a : Action) : Ui :=
  match a with
  | Loop e => set_world (App.step (world u) e) u
  | PressMode m => pressMode m u
  | Change kv => if cameraPanel u then updateSetting kv u else u
  | PressCapture photo => if cameraPanel u then takePhoto photo u else u
  | PressRecord => if cameraPanel u then pressRecord u else u
  | PressGenerate dataUrl =>
      if cameraPanel u || isBusy u then u else start3DScanAnalysis dataUrl u
  | PressRecalibrate dataUrl =>
      if negb (cameraPanel u) && truthy (scanResult u)
      then start3DScanAnalysis dataUrl u else u
  | FrameSettles k o =>
      match nth_error (framesInFlight u) k with
      | Some arg =>
          takePhoto_resume (frameResult o arg)
            (set_framesInFlight (without k (framesInFlight u)) u)
      | None => u
      end
  | TopologySettles k o =>
      match nth_error (scansInFlight u) k with
      | Some arg =>
          start3DScanAnalysis_resume (topologyResult o arg)
            (set_scansInFlight (without k (scansInFlight u)) u)
      | None => u
      end
  end.

Definition session (u : Ui) (actions : list Action) : Ui := fold_left act actions u.

(** The state after the first render. *)
Definition opened (w : App.World) : Ui := mkUi w false false JNull JNull [] [] [] [].

(** ** What the JSX computes from [analysis] and [scanResult] *)

(** [analysis?.suggestions || "Point camera at subject for AI grading
    tips."] *)
Definition sceneTip (analysis : JSON) : JSON :=
  match getField analysis "suggestions" with
  | Some v => if truthy v then v
              else JString "Point camera at subject for AI grading tips."
  | None => JString "Point camera at subject for AI grading tips."
  end.

(** [v.toLocaleString()]; [None] is [undefined]. *)
Definition toLocaleString (v : option JSON) : Completion string :=
  match v with
  | None | Some JNull => Throw TypeError
  | Some (JNumber n) => Normal (Number_toLocaleString n)
  | Some (JString s) => Normal s
  | Some (JBool b) => Normal (if b then "true" else "false")%string
  | Some (JArray items) => Structured_toLocaleString (JArray items)
  | Some (JObject props) => Structured_toLocaleString (JObject props)
  end.

(** A value substituted into a template literal. *)
Definition templateValue (v : option JSON) : Completion string :=
  match v with
  | None => Normal "undefined"%string
  | Some JNull => Normal "null"%string
  | Some (JBool b) => Normal (if b then "true" else "false")%string
  | Some (JNumber n) => Normal (Number_toString n)
  | Some (JString s) => Normal s
  | Some (JArray items) => Structured_toString (JArray items)
  | Some (JObject props) => Structured_toString (JObject props)
  end.

(** [v.length]; the length of a string is counted in the characters
    the string is held in, which only matters through [> 0]. *)
Definition lengthOf (v : option JSON) : Completion (option JSON) :=
  match v with
  | None | Some JNull => Throw TypeError
  | Some (JArray items) => Normal (Some (JNumber (inject_Z (Z.of_nat (List.length items)))))
  | Some (JString s) => Normal (Some (JNumber (inject_Z (Z.of_nat (String.length s)))))
  | Some (JObject props) => Normal (assoc "length" props)
  | Some (JNumber _) | Some (JBool _) => Normal None
  end.

(** [v > 0] *)
Definition positive (v : option JSON) : Completion bool :=
  match v with
  | None | Some JNull => Normal false
  | Some (JBool b) => Normal b
  | Some (JNumber n) => Normal (App.Qlt_bool 0 n)
  | Some (JString s) =>
      Normal match String_toNumber s with
             | Some n => App.Qlt_bool 0 n
             | None => false
             end
  | Some (JArray items) =>
      bindC (Structured_toNumber (JArray items)) (fun n =>
      Normal match n with Some q => App.Qlt_bool 0 q | None => false end)
  | Some (JObject props) =>
      bindC (Structured_toNumber (JObject props)) (fun n =>
      Normal match n with Some q => App.Qlt_bool 0 q | None => false end)
  end.

(** [v[0]] for a value that has a [length]. *)
Definition first (v : option JSON) : option JSON :=
  match v with
  | Some (JArray items) => nth_error items 0
  | Some (JString s) =>
      match s with
      | EmptyString => None
      | String c _ => Some (JString (String c EmptyString))
      end
  | Some (JObject props) => assoc "0" props
  | _ => None
  end.

(** A value among the children of an element, as React renders it. *)
Fixpoint child (v : JSON) : Completion Child :=
  match v with
  | JNull | JBool _ => Normal Nothing
  | JNumber n => Normal (Text (Number_toString n))
  | JString s => Normal (Text s)
  | JArray items =>
      match (fix each (l : list JSON) : Completion (list Child) :=
               match l with
               | [] => Normal []
               | x :: rest =>
                   match child x with
                   | Normal c =>
                       match each rest with
                       | Normal cs => Normal (c :: cs)
                       | Throw e => Throw e
                       end
                   | Throw e => Throw e
                   end
               end) items with
      | Normal cs => Normal (Children cs)
      | Throw e => Throw e
      end
  | JObject _ => Throw notAChild
  end.

(** The same for a value that may be [undefined]. *)
Definition childOf (v : option JSON) : Completion Child :=
  match v with
  | Some x => child x
  | None => Normal Nothing
  end.

(** Lines 398-416: the inside of the Neural Mesh Analyzer box.  Its
    expressions are evaluated in the order written; React then renders
    the children, among them the value of [scanResult.defects[0]]. *)
Definition scanPanel (scanResult : JSON) : Completion ScanPanel :=
  if truthy scanResult then
    bindC (toLocaleString (getField scanResult "vertices")) (fun poly =>
    bindC (templateValue (getField scanResult "topologyScore")) (fun score =>
    bindC (lengthOf (getField scanResult "defects")) (fun len =>
    bindC (positive len) (fun some =>
    if some then
      bindC (childOf (first (getField scanResult "defects"))) (fun shown =>
      Normal (Result (mkReadout (poly ++ " POLY") (score ++ "%") (Some shown))))
    else Normal (Result (mkReadout (poly ++ " POLY") (score ++ "%") None))))))
  else Normal Advice.

End Handlers.

(** src/components/Histogram (second part of src/App.tsx):
    [data.map((val, i) => ({ x: i, y: val }))] *)
Fixpoint chartFrom (i : Z) (data : list Q) : list (Z * Q) :=
  match data with
  | [] => []
  | val :: rest => (i, val) :: chartFrom (i + 1) rest
  end.

Definition chartData (data : list Q) : list (Z * Q) := chartFrom 0 data.

(** ** Vocabulary *)

(** No comma occurs in [s]. *)
Fixpoint commaFree (s : string) : bool :=
  match s with
  | EmptyString => true
  | String c rest => negb (Ascii.eqb c ","%char) && commaFree rest
  end.

(** [undefined] or [null]. *)
Definition nullish (v : option JSON) : Prop := v = None \/ v = Some JNull.

End Surface.

(** Vocabulary for the frame effect of lines 202-205. *)
Module Schedule.
Import App.

(** The single pending frame callback is the [processFrame] of the
    current settings and mode, and [requestRef] holds its handle. *)
Definition current (w : World) : Prop :=
  exists h, frameRequests w = [(h, ProcessFrame (settings w) (mode w))] /\
            requestRef w = Some h /\ 0 < h < nextHandle w.

End Schedule.

(* ===================================================================== *)
(** * The other App component, whole                                      *)
(* ===================================================================== *)

(** The second [App] of the repository (second part of
    src/services/geminiService.ts): its camera start, its frame loop and
    its two effects.  As for the first [App], [Math.random] is drawn in
    program order. *)
Module Quantum.
Import Dom.

Inductive Mode : Type := Cinema | Topography | Relief.

Definition INITIAL_SETTINGS : CameraSettings :=
  mkSettings 0 100 110 105 400 "1/50" 5600 true true true 0 15 LutNone.

(** What is done to the context: the operations of [Dom], and a write of
    [globalCompositeOperation] with the keyword written. *)
Inductive Op : Type :=
| Ctx (op : CtxOp)
| Composite (keyword : string).

Record Video : Type := mkVideo {
  readyState : Z;
  videoWidth : Z;
  videoHeight : Z;
  srcObject : option MediaStream;
  (** the [playsinline] attribute as [setAttribute] wrote it *)
  playsinline : option string;
  (** whether the closure of [initCamera] is installed *)
  onloadedmetadata : bool;
  playCalls : nat;
  currentFrame : Raster
}.

Record Canvas : Type := mkCanvas {
  width : Z;
  height : Z;
  context2d : bool;
  calls : list Op
}.

(** [processFrame] as one render created it. *)
Inductive Callback : Type :=
| ProcessFrame (settings : CameraSettings) (mode : Mode).

Record World : Type := mkWorld {
  settings : CameraSettings;
  mode : Mode;
  cameraReady : bool;
  error : option string;
  histogramData : list Q;
  videoRef : option Video;
  canvasRef : option Canvas;
  requestRef : option Z;
  frameRequests : list (Z * Callback);
  nextHandle : Z;
  randoms : nat -> Q;
  taken : nat
}.

Definition set_settings (x : CameraSettings) (w : World) : World :=
  mkWorld x (mode w) (cameraReady w) (error w) (histogramData w) (videoRef w)
          (canvasRef w) (requestRef w) (frameRequests w) (nextHandle w) (randoms w)
          (taken w).
Definition set_mode (x : Mode) (w : World) : World :=
  mkWorld (settings w) x (cameraReady w) (error w) (histogramData w) (videoRef w)
          (canvasRef w) (requestRef w) (frameRequests w) (nextHandle w) (randoms w)
          (taken w).
Definition set_cameraReady (x : bool) (w : World) : World :=
  mkWorld (settings w) (mode w) x (error w) (histogramData w) (videoRef w)
          (canvasRef w) (requestRef w) (frameRequests w) (nextHandle w) (randoms w)
          (taken w).
Definition set_error (x : option string) (w : World) : World :=
  mkWorld (settings w) (mode w) (cameraReady w) x (histogramData w) (videoRef w)
          (canvasRef w) (requestRef w) (frameRequests w) (nextHandle w) (randoms w)
          (taken w).
Definition set_videoRef (x : option Video) (w : World) : World :=
  mkWorld (settings w) (mode w) (cameraReady w) (error w) (histogramData w) x
          (canvasRef w) (requestRef w) (frameRequests w) (nextHandle w) (randoms w)
          (taken w).
Definition set_canvasRef (x : option Canvas) (w : World) : World :=
  mkWorld (settings w) (mode w) (cameraReady w) (error w) (histogramData w) (videoRef w)
          x (requestRef w) (frameRequests w) (nextHandle w) (randoms w) (taken w).
Definition set_frameRequests (x : list (Z * Callback)) (w : World) : World :=
  mkWorld (settings w) (mode w) (cameraReady w) (error w) (histogramData w) (videoRef w)
          (canvasRef w) (requestRef w) x (nextHandle w) (randoms w) (taken w).

(** [requestRef.current = requestAnimationFrame(cb)] *)
Definition requestFrame (cb : Callback) (w : World) : World :=
  mkWorld (settings w) (mode w) (cameraReady w) (error w) (histogramData w) (videoRef w)
          (canvasRef w) (Some (nextHandle w)) (frameRequests w ++ [(nextHandle w, cb)])
          (nextHandle w + 1) (randoms w) (taken w).

(** [cancelAnimationFrame(h)] *)
Definition cancelAnimationFrame (h : Z) (w : World) : World :=
  set_frameRequests (List.filter (fun e => negb (fst e =? h)) (frameRequests w)) w.

(** The exception a call on the context of [canvas] throws, if it does:
    [drawImage] of a canvas with a zero dimension throws
    InvalidStateError, [getImageData] of a rectangle with a zero
    dimension IndexSizeError. *)
Definition refuses (canvas : Canvas) (op : Op) : option JSError :=
  match op with
  | Ctx (DrawCanvas _ _) =>
      if (width canvas =? 0) || (height canvas =? 0)
      then Some (DOMException "InvalidStateError") else None
  | Ctx (GetImageData _ _ sw sh) =>
      if (sw =? 0) || (sh =? 0) then Some (DOMException "IndexSizeError") else None
  | _ => None
  end.

(** The calls and writes [ops] made in order on the context of [canvas]
    until one throws: whether all returned, and the canvas as they leave
    it.  A call that throws does nothing. *)
Fixpoint perform (ops : list Op) (canvas : Canvas) : Completion unit * Canvas :=
  match ops with
  | [] => (Normal tt, canvas)
  | op :: rest =>
      match refuses canvas op with
      | Some e => (Throw e, canvas)
      | None =>
          perform rest (mkCanvas (width canvas) (height canvas) (context2d canvas)
                                 (calls canvas ++ [op]))
      end
  end.

(** [if (canvas.width !== videoWidth) { canvas.width = videoWidth;
    canvas.height = videoHeight; }] *)
Definition resizeOnChange (video : Video) (canvas : Canvas) : Canvas :=
  if negb (width canvas =? videoWidth video)
  then mkCanvas (videoWidth video) (videoHeight video) (context2d canvas)
                (calls canvas ++ [Ctx ResetBySize; Ctx ResetBySize])
  else canvas.

(** What [getImageData(0, 0, w, h)] reads after the frame was drawn on a
    canvas of [rows] rows: the frame, and transparent black below the
    canvas. *)
Definition drawn (frame : Raster) (rows : Z) : Raster :=
  fun x y => if y <? rows then frame x y else mkPixel 0 0 0 0.

Section Component.
Context `{Host}.

(** The [cinema] branch. *)
Definition cinemaOps (settings : CameraSettings) (w h : Z) : list Op :=
  [ Ctx (SetFilter ("brightness(" ++ Number_toString (brightness settings)
                      ++ "%) contrast(" ++ Number_toString (contrast settings)
                      ++ "%) saturate(" ++ Number_toString (saturation settings)
                      ++ "%)")%string);
    Ctx (DrawVideo 0 0 w h) ]
  ++ (if upscale settings
      then [ Composite "overlay";
             Ctx (SetFilter "contrast(150%) brightness(100%) blur(1px)");
             Ctx (SetGlobalAlpha 0.2);
             Ctx (DrawCanvas 0 0);
             Ctx (SetGlobalAlpha 1);
             Composite "source-over" ]
      else [])
  ++ (if App.Qlt_bool 0 (glow settings)
      then [ Composite "screen";
             Ctx (SetFilter ("blur(" ++ Number_toString (glow settings)
                               ++ "px) brightness(120%)")%string);
             Ctx (SetGlobalAlpha 0.3);
             Ctx (DrawCanvas 0 0);
             Ctx (SetGlobalAlpha 1);
             Composite "source-over" ]
      else []).

(** [(bright / 255) * -50] for the sample at column [x], row [y]. *)
Definition displacement (data : list Z) (w x y : Z) : JSNum :=
  let idx := (y * w + x) * 4 in
  let bright :=
    ndiv (nadd (nadd (at_index data idx) (at_index data (idx + 1)))
               (at_index data (idx + 2))) 3 in
  nmul (ndiv bright 255) (-50).

(** The [topography] branch. *)
Definition topographyOps (frame : Raster) (rows w h : Z) : list Op :=
  let data := imageDataOf (drawn frame rows) w h in
  let step := 25 in
  map Ctx
    ([ SetFillStyle "#050505"; FillRect 0 0 w h; DrawVideo 0 0 w h;
       GetImageData 0 0 w h;
       SetFillStyle "#050505"; FillRect 0 0 w h;
       SetStrokeStyle "#00f3ff"; SetLineWidth 1 ]
     ++ Props.loopOps (Z.to_nat (h - 0)) 0 h step (fun y =>
          [BeginPath]
          ++ Props.loopOps (Z.to_nat (w - 0)) 0 w step (fun x =>
               let z := displacement data w x y in
               if x =? 0 then [MoveTo x (nadd (App.inNum y) z)]
               else [LineTo x (nadd (App.inNum y) z)])
          ++ [Stroke])).

(** The [relief] branch. *)
Definition reliefOps (w h : Z) : list Op :=
  [ Ctx (DrawVideo 0 0 w h);
    Ctx (SetFilter "grayscale(100%) contrast(200%)");
    Ctx (SetGlobalAlpha 0.5);
    Ctx (DrawCanvas 0 0);
    Ctx (SetGlobalAlpha 1);
    Ctx (SetFilter "none");
    Composite "difference";
    Ctx (SetFillStyle "rgba(0, 255, 255, 0.1)");
    Ctx (FillRect 0 0 w h);
    Composite "source-over" ].

(** From the reset of the context to the end of the mode branches. *)
Definition frameOps (settings : CameraSettings) (mode : Mode) (video : Video)
    (canvas : Canvas) : list Op :=
  let w := videoWidth video in
  let h := videoHeight video in
  [ Ctx (SetFilter "none"); Composite "source-over" ]
  ++ match mode with
     | Cinema => cinemaOps settings w h
     | Topography => topographyOps (currentFrame video) (height canvas) w h
     | Relief => reliefOps w h
     end.

(** [prev.map(() => 5 + Math.random() * 90)] with [t] numbers taken
    before. *)
Fixpoint resample (rnd : nat -> Q) (t : nat) (prev : list Q) : list Q :=
  match prev with
  | [] => []
  | _ :: rest => (5 + rnd t * 90)%Q :: resample rnd (S t) rest
  end.

(** [if (Math.random() > 0.9) setHistogramData(prev => prev.map(...))] *)
Definition histogramUpdate (w : World) : World :=
  let r := randoms w (taken w) in
  if App.Qlt_bool 0.9 r
  then mkWorld (settings w) (mode w) (cameraReady w) (error w)
               (resample (randoms w) (S (taken w)) (histogramData w))
               (videoRef w) (canvasRef w) (requestRef w) (frameRequests w)
               (nextHandle w) (randoms w)
               (S (taken w) + List.length (histogramData w))
  else mkWorld (settings w) (mode w) (cameraReady w) (error w) (histogramData w)
               (videoRef w) (canvasRef w) (requestRef w) (frameRequests w)
               (nextHandle w) (randoms w) (S (taken w)).

(** [processFrame] of the render with [settings] and [mode], as the
    browser runs it: an exception that leaves it ends it there, with
    what was done so far done. *)
Definition processFrame (settings : CameraSettings) (mode : Mode) (w : World) : World :=
  match videoRef w, canvasRef w with
  | Some video, Some canvas =>
      if readyState video =? 4 then
        if context2d canvas then
          let resized := resizeOnChange video canvas in
          match perform (frameOps settings mode video resized) resized with
          | (Normal _, painted) =>
              requestFrame (ProcessFrame settings mode)
                           (histogramUpdate (set_canvasRef (Some painted) w))
          | (Throw _, painted) => set_canvasRef (Some painted) w
          end
        else w
      else requestFrame (ProcessFrame settings mode) w
  | _, _ => requestFrame (ProcessFrame settings mode) w
  end.

(** [initCamera] run to completion, given how its request ends. *)
Definition initCamera (request : App.GetUserMedia) (w : World) : World :=
  let w1 := set_error None w in
  match request with
  | App.GumResolves labels =>
      match videoRef w1 with
      | Some v =>
          set_videoRef
            (Some (mkVideo (readyState v) (videoWidth v) (videoHeight v)
                           (Some (App.newStream labels)) (Some "true"%string) true
                           (playCalls v) (currentFrame v))) w1
      | None => w1
      end
  | App.GumRejects _ =>
      set_error (Some "REAR CAMERA NOT ACCESSIBLE. CHECK PERMISSIONS."%string) w1
  end.

(** The second effect:
    [if (cameraReady) requestRef.current = requestAnimationFrame(processFrame)].
    It returns no cleanup. *)
Definition frameEffect (w : World) : World :=
  if cameraReady w then requestFrame (ProcessFrame (settings w) (mode w)) w else w.

(** The element learns the stream's size and fires [loadedmetadata]; the
    handler sets [cameraReady] and plays; when [cameraReady] changed, the
    render that follows runs the second effect. *)
Definition loadedmetadata (vw vh : Z) (w : World) : World :=
  match videoRef w with
  | Some v =>
      if onloadedmetadata v then
        let w1 :=
          set_videoRef
            (Some (mkVideo (Z.max (readyState v) 1) vw vh (srcObject v) (playsinline v)
                           true (S (playCalls v)) (currentFrame v)))
            (set_cameraReady true w) in
        if cameraReady w then w1 else frameEffect w1
      else
        set_videoRef
          (Some (mkVideo (Z.max (readyState v) 1) vw vh (srcObject v) (playsinline v)
                         false (playCalls v) (currentFrame v))) w
  | None => w
  end.

(** The decoder moves on. *)
Definition videoProgress (rs : Z) (frame : Raster) (w : World) : World :=
  match videoRef w with
  | Some v =>
      set_videoRef
        (Some (mkVideo rs (videoWidth v) (videoHeight v) (srcObject v) (playsinline v)
                       (onloadedmetadata v) (playCalls v) frame)) w
  | None => w
  end.

(** The source changes resolution while playing. *)
Definition sourceResize (vw vh : Z) (w : World) : World :=
  match videoRef w with
  | Some v =>
      set_videoRef
        (Some (mkVideo (readyState v) vw vh (srcObject v) (playsinline v)
                       (onloadedmetadata v) (playCalls v) (currentFrame v))) w
  | None => w
  end.

Definition runCallback (cb : Callback) (w : World) : World :=
  match cb with
  | ProcessFrame s m => processFrame s m w
  end.

(** The browser runs the animation frame callbacks: the list is emptied,
    then each callback taken from it is invoked in order. *)
Definition animationFrame (w : World) : World :=
  fold_left (fun w' e => runCallback (snd e) w') (frameRequests w)
            (set_frameRequests [] w).

(** A change of [settings] or [mode]: a new [processFrame], so the second
    effect runs again. *)
Definition rerender (s : CameraSettings) (m : Mode) (w : World) : World :=
  frameEffect (set_mode m (set_settings s w)).

Definition Mode_eqb (a b : Mode) : bool :=
  match a, b with
  | Cinema, Cinema | Topography, Topography | Relief, Relief => true
  | _, _ => false
  end.

(** The cleanup of the first effect. *)
Definition cleanup (w : World) : World :=
  let w1 :=
    match requestRef w with
    | Some h => if h =? 0 then w else cancelAnimationFrame h w
    | None => w
    end in
  match videoRef w1 with
  | Some v =>
      match srcObject v with
      | Some stream =>
          set_videoRef
            (Some (mkVideo (readyState v) (videoWidth v) (videoHeight v)
                           (Some (map stop stream)) (playsinline v) (onloadedmetadata v)
                           (playCalls v) (currentFrame v))) w1
      | None => w1
      end
  | None => w1
  end.

(** Removal of the component: React takes the elements out of the
    document and sets the refs it had attached to them to [null]; from
    React 17 on the cleanup of [useEffect] runs after that. *)
Definition unmount (w : World) : World :=
  cleanup (set_canvasRef None (set_videoRef None w)).

Inductive Event : Type :=
| InitCameraDone (request : App.GetUserMedia)
| LoadedMetadata (vw vh : Z)
| VideoProgress (readyState : Z) (frame : Raster)
| SourceResize (vw vh : Z)
| AnimationFrame
| SetSettings (s : CameraSettings)
| SetMode (m : Mode).

Definition step (w : World) (e : Event) : World :=
  match e with
  | InitCameraDone r => initCamera r w
  | LoadedMetadata vw vh => loadedmetadata vw vh w
  | VideoProgress rs fr => videoProgress rs fr w
  | SourceResize vw vh => sourceResize vw vh w
  | AnimationFrame => animationFrame w
  | SetSettings s => rerender s (mode w) w
  | SetMode m => if Mode_eqb m (mode w) then w else rerender (settings w) m w
  end.

Definition run (w : World) (events : list Event) : World := fold_left step events w.

(** The first render: the hidden video, a canvas of the default size,
    both refs set; [cameraReady] is false, so the second effect requests
    nothing. *)
Definition mounted (rnd : nat -> Q) (has2d : bool) (frame : Raster) : World :=
  mkWorld INITIAL_SETTINGS Cinema false None (repeat 10%Q 24)
          (Some (mkVideo 0 0 0 None None false 0 frame))
          (Some (mkCanvas 300 150 has2d []))
          None [] 1 rnd 0.

End Component.

(** ** Vocabulary *)

(** The handles of the pending callbacks increase along the list, from
    above [low]. *)
Fixpoint ascending (low : Z) (q : list (Z * Callback)) : Prop :=
  match q with
  | [] => True
  | (h, _) :: rest => low < h /\ ascending h rest
  end.

(** The pending callbacks have increasing handles between 1 and the next
    handle, and [requestRef] holds the last of them. *)
Definition wellQueued (w : World) : Prop :=
  ascending 0 (frameRequests w) /\
  Forall (fun e => fst e < nextHandle w) (frameRequests w) /\
  0 < nextHandle w /\
  (forall q h cb, frameRequests w = q ++ [(h, cb)] -> requestRef w = Some h).

(** The frame is decoded and the canvas hands out no 2D context: the
    case in which [processFrame] returns at [if (!ctx) return]. *)
Definition contextless (w : World) : bool :=
  match videoRef w, canvasRef w with
  | Some v, Some c => (readyState v =? 4) && negb (context2d c)
  | _, _ => false
  end.

(** [w'] has the React state and the video of [w], and a canvas that
    hands out a context if that of [w] does. *)
Definition sameCamera (w w' : World) : Prop :=
  settings w' = settings w /\ mode w' = mode w /\ cameraReady w' = cameraReady w /\
  error w' = error w /\ videoRef w' = videoRef w /\ contextless w' = contextless w.




(** Anything but the arrival of metadata. *)
Definition beforeMetadata (e : Event) : bool :=
  match e with
  | LoadedMetadata _ _ => false
  | _ => true
  end.

(** The video reports a size and the canvas has one: no dimension of
    either is zero. *)
Definition sized (w : World) : Prop :=
  (forall v, videoRef w = Some v -> videoWidth v <> 0 /\ videoHeight v <> 0) /\
  (forall c, canvasRef w = Some c -> width c <> 0 /\ height c <> 0).


End Quantum.

(** Vocabulary for the histogram of the other App. *)
Module QuantumProps.
Import Quantum.

(** The histogram has its 24 bars; each is between 5 and 95 when the
    random numbers are in [0, 1). *)
Definition bars (w : World) : Prop :=
  List.length (histogramData w) = 24%nat /\
  (Traces.unitInterval (randoms w) -> Forall (fun v => (5 <= v <= 95)%Q) (histogramData w)).

End QuantumProps.

(* ===================================================================== *)
(** * src/App.tsx: the frame loop with the exceptions of the canvas       *)
(* ===================================================================== *)

(** [processFrame] of src/App.tsx once more, line by line, with what
    [App.M] leaves out: a call on the context may throw, and an exception
    ends the function where it is thrown.  Of the calls [processFrame]
    makes, [drawImage] of the canvas itself throws when the canvas has a
    zero dimension, and [getImageData] when the rectangle asked for has
    one. *)
Module Strict.
Import Dom.

(** A statement that may throw: how it completes, and the world as it
    leaves it. *)
Definition E (A : Type) : Type := App.World -> Completion A * App.World.

Definition ret {A} (a : A) : E A := fun w => (Normal a, w).

Definition bind {A B} (m : E A) (k : A -> E B) : E B :=
  fun w =>
    match m w with
    | (Normal a, w') => k a w'
    | (Throw e, w') => (Throw e, w')
    end.

(** A statement that cannot throw. *)
Definition lift {A} (m : App.M A) : E A :=
  fun w => let (a, w') := m w in (Normal a, w').

Notation "x <~ m ;; k" := (bind m (fun x => k))
  (at level 61, m at next level, right associativity).
Notation "m ;;; k" := (bind m (fun _ => k))
  (at level 61, right associativity).

(** The exception a call on the context of [canvas] throws, if it does:
    [drawImage] of a canvas with a zero dimension throws
    InvalidStateError, [getImageData] of a rectangle with a zero
    dimension IndexSizeError. *)
Definition refuses (canvas : HTMLCanvasElement) (op : CtxOp) : option JSError :=
  match op with
  | DrawCanvas _ _ =>
      if (width canvas =? 0) || (height canvas =? 0)
      then Some (DOMException "InvalidStateError") else None
  | GetImageData _ _ sw sh =>
      if (sw =? 0) || (sh =? 0) then Some (DOMException "IndexSizeError") else None
  | _ => None
  end.

(** A call or property write on the context of [canvasRef.current].  A
    call that throws does nothing. *)
Definition ctx (op : CtxOp) : E unit :=
  fun w =>
    match App.canvasRef w with
    | Some c =>
        match refuses c op with
        | Some e => (Throw e, w)
        | None => lift (App.ctx op) w
        end
    | None => (Normal tt, w)
    end.

Fixpoint forFrom (fuel : nat) (i bound step : Z) (body : Z -> E unit) : E unit :=
  match fuel with
  | O => ret tt
  | S fuel' =>
      if i <? bound
      then body i ;;; forFrom fuel' (i + step) bound step body
      else ret tt
  end.

Definition for_ (start bound step : Z) (body : Z -> E unit) : E unit :=
  forFrom (Z.to_nat (bound - start)) start bound step body.

Section Component.
Context `{Host}.

(** Lines 139-159, [mode === 'relief']. *)
Definition wireframe (video : HTMLVideoElement) (width height : Z) : E unit :=
  ctx (DrawVideo 0 0 width height) ;;;
  ctx (GetImageData 0 0 width height) ;;;
  let data := imageDataOf (currentFrame video) width height in
  ctx (SetFillStyle "#0a0a0a") ;;;
  ctx (FillRect 0 0 width height) ;;;
  ctx (SetStrokeStyle "#22d3ee") ;;;
  ctx (SetLineWidth 1) ;;;
  let step := 20 in
  for_ 0 height step (fun y =>
    ctx BeginPath ;;;
    for_ 0 width step (fun x =>
      let offset := App.sampleOffset data width x y in
      if x =? 0 then ctx (MoveTo x (nadd (App.inNum y) offset))
      else ctx (LineTo x (nadd (App.inNum y) offset))) ;;;
    ctx Stroke).

(** Lines 165-166. *)
Definition baseGrade (settings : CameraSettings) (width height : Z) : E unit :=
  ctx (SetFilter (App.filters settings)) ;;;
  ctx (DrawVideo 0 0 width height).

(** Lines 168-175. *)
Definition glowStage (settings : CameraSettings) : E unit :=
  if App.Qlt_bool 0 (glow settings) then
    ctx (SetGlobalAlpha (glow settings / 150)%Q) ;;;
    ctx (SetGlobalCompositeOperation Screen) ;;;
    ctx (SetFilter ("blur(" ++ Number_toString (glow settings * 0.8)%Q
                      ++ "px) brightness(140%)")%string) ;;;
    ctx (DrawCanvas 0 0) ;;;
    ctx (SetGlobalCompositeOperation SourceOver) ;;;
    ctx (SetGlobalAlpha 1)
  else ret tt.

(** Lines 177-191, [mode === 'scan']. *)
Definition scanOverlay (width height : Z) : E unit :=
  ctx (SetStrokeStyle "rgba(34, 211, 238, 0.4)") ;;;
  ctx (SetLineWidth 0.5) ;;;
  ctx BeginPath ;;;
  for_ 0 width 60 (fun i =>
    ctx (MoveTo i (App.inNum 0)) ;;; ctx (LineTo i (App.inNum height))) ;;;
  for_ 0 height 60 (fun i =>
    ctx (MoveTo 0 (App.inNum i)) ;;; ctx (LineTo width (App.inNum i))) ;;;
  ctx Stroke ;;;
  ctx (SetFillStyle "#22d3ee") ;;;
  for_ 0 30 1 (fun _ =>
    r1 <~ lift App.Math_random ;;
    let rx := Qfloor (r1 * inject_Z width) in
    r2 <~ lift App.Math_random ;;
    let ry := Qfloor (r2 * inject_Z height) in
    ctx (FillRect rx ry 3 3)).

(** Lines 131-197. *)
Definition draw (settings : CameraSettings) (mode : App.Mode)
    (video : HTMLVideoElement) (canvas : HTMLCanvasElement) : E unit :=
  if context2d canvas then
    let width := width canvas in
    let height := height canvas in
    ctx (SetFilter "none") ;;;
    ctx (SetGlobalCompositeOperation SourceOver) ;;;
    match mode with
    | App.Relief => wireframe video width height
    | _ =>
        baseGrade settings width height ;;;
        glowStage settings ;;;
        match mode with
        | App.Scan => scanOverlay width height
        | _ => ret tt
        end
    end ;;;
    lift App.histogramSampling
  else ret tt.

(** Line 130: the guard around the drawing. *)
Definition whenReady (settings : CameraSettings) (mode : App.Mode) : E unit :=
  fun w =>
    match App.videoRef w, App.canvasRef w with
    | Some video, Some canvas =>
        if readyState video =? 4 then draw settings mode video canvas w
        else (Normal tt, w)
    | _, _ => (Normal tt, w)
    end.

(** Lines 129-200. *)
Definition processFrame (settings : CameraSettings) (mode : App.Mode) : E unit :=
  whenReady settings mode ;;;
  lift (App.bind (App.requestAnimationFrame (App.ProcessFrame settings mode))
                 (fun h w => (tt, App.set_requestRef (Some h) w))).

Definition runCallback (cb : App.Callback) : E unit :=
  match cb with
  | App.ProcessFrame s m => processFrame s m
  end.

(** The browser runs the animation frame callbacks: the list is emptied,
    then each callback taken from it is invoked in order.  An exception
    that leaves a callback is reported and the next callback runs. *)
Definition animationFrame (w : App.World) : App.World :=
  fold_left (fun w' e => snd (runCallback (snd e) w'))
            (App.frameRequests w) (App.set_frameRequests [] w).

(** The life of the component, with animation frames run this way. *)
Definition step (w : App.World) (e : App.Event) : App.World :=
  match e with
  | App.AnimationFrame => animationFrame w
  | _ => App.step w e
  end.

Definition run (w : App.World) (events : list App.Event) : App.World :=
  fold_left step events w.

End Component.

(** ** Vocabulary *)

(** No dimension of the canvas is zero. *)
Definition sized (w : App.World) : Prop :=
  forall c, App.canvasRef w = Some c -> width c <> 0 /\ height c <> 0.

(** From a world where [P] holds, [e] returns, does what [m] does and
    keeps [P]. *)
Definition agrees (P : App.World -> Prop) {A} (e : E A) (m : App.M A) : Prop :=
  forall w, P w -> e w = (Normal (fst (m w)), snd (m w)) /\ P (snd (m w)).

(** The canvas hands out a context and has a zero dimension. *)
Definition zeroCanvas (w : App.World) : bool :=
  match App.canvasRef w with
  | Some c => context2d c && ((width c =? 0) || (height c =? 0))
  | None => false
  end.

(** The frame reaches a call that throws: the guard of line 130 holds,
    the canvas hands out a context and has a zero dimension, and the frame
    reads the pixels back (relief) or draws the canvas onto itself
    (glow). *)
Definition throwing (settings : CameraSettings) (mode : App.Mode) (w : App.World) : bool :=
  match App.videoRef w, App.canvasRef w with
  | Some video, Some canvas =>
      (readyState video =? 4) && zeroCanvas w &&
      (match mode with App.Relief => true | _ => App.Qlt_bool 0 (glow settings) end)
  | _, _ => false
  end.

(** Metadata, when they arrive, report a positive width and height. *)
Definition sizedMetadata (e : App.Event) : bool :=
  match e with
  | App.LoadedMetadata vw vh => (0 <? vw) && (0 <? vh)
  | _ => true
  end.

(** The call of the glow pass that draws the canvas onto itself. *)
Definition selfDraw (op : CtxOp) : bool :=
  match op with
  | DrawCanvas _ _ => true
  | _ => false
  end.

End Strict.

(* ===================================================================== *)
(** * Stored colour channels                                              *)
(* ===================================================================== *)

(** The canvas stores a colour channel as one of the levels 0 to 255. *)
Module Pixels.
Import Dom.





End Pixels.

(* ===================================================================== *)
(** * The analysis bridge                                                 *)
(* ===================================================================== *)

Section BridgeFacts.
Import GeminiService.
Context `{Host}.
Variable generateContent : Request -> CallOutcome.

Lemma requestAndParse_fails req :
  Fails (generateContent req) -> exists e, requestAndParse generateContent req = Throw e.
Proof.
  unfold requestAndParse.
  intros F. inversion F as [e He | e He | He | t e Hp He]; cbn; eauto.
Qed.

Lemma analyzeFrame_settles img :
  analyzeFrame generateContent img =
    match requestAndParse generateContent (frameRequest img) with
    | Normal v => Resolved v
    | Throw _ => Resolved sceneDefault
    end.
Proof.
  unfold analyzeFrame.
  destruct (requestAndParse generateContent (frameRequest img)); reflexivity.
Qed.

Lemma analyzeTopology_settles img :
  analyzeTopology generateContent img =
    match requestAndParse generateContent (topologyRequest img) with
    | Normal v => Resolved v
    | Throw _ => Resolved topologyDefault
    end.
Proof.
  unfold analyzeTopology.
  destruct (requestAndParse generateContent (topologyRequest img)); reflexivity.
Qed.

Lemma requestAndParse_empty req t :
  JSON_parse "{}" = Normal (JObject []) ->
  t = Some "{}"%string \/ t = Some ""%string \/ t = None ->
  generateContent req = CallFulfils (ResponseObject t) ->
  requestAndParse generateContent req = Normal (JObject []).
Proof.
  intros Hp Ht Hg. unfold requestAndParse. rewrite Hg. cbn.
  destruct Ht as [-> | [-> | ->]]; exact Hp.
Qed.

End BridgeFacts.

(** C1. For every image and every behaviour of the external call,
    [analyzeFrame] and [analyzeTopology] resolve and never reject; when the
    call throws or rejects, or the response text does not parse, they
    resolve with exactly their fixed default objects. *)
Theorem analysis_resolves_with_default_on_failure :
  forall (host : Host) (generateContent : GeminiService.Request -> GeminiService.CallOutcome)
         (img : string),
    (exists v, GeminiService.analyzeFrame generateContent img = Resolved v) /\
    (exists v, GeminiService.analyzeTopology generateContent img = Resolved v) /\
    (GeminiService.Fails (generateContent (GeminiService.frameRequest img)) ->
       GeminiService.analyzeFrame generateContent img
       = Resolved (JObject [ ("luminance", JNumber 50); ("colorTemp", JString "Neutral");
                             ("detectedObjects", JArray []);
                             ("suggestions", JString "Awaiting input") ]%string)) /\
    (GeminiService.Fails (generateContent (GeminiService.topologyRequest img)) ->
       GeminiService.analyzeTopology generateContent img
       = Resolved (JObject [ ("vertices", JNumber 0); ("topologyScore", JNumber 0);
                             ("uvStatus", JString "Error"); ("defects", JArray []);
                             ("suggestedFix", JString "Reposition for better lighting") ]%string)).
Proof.
  intros host gc img.
  rewrite analyzeFrame_settles, analyzeTopology_settles.
  repeat split.
  - destruct (GeminiService.requestAndParse gc (GeminiService.frameRequest img)); eauto.
  - destruct (GeminiService.requestAndParse gc (GeminiService.topologyRequest img)); eauto.
  - intros F. destruct (requestAndParse_fails gc _ F) as [e ->]. reflexivity.
  - intros F. destruct (requestAndParse_fails gc _ F) as [e ->]. reflexivity.
Qed.

(** A malformed body on the reference host: both functions fall back. *)
Lemma analysis_resolves_with_default_on_failure_witness :
  let gc := fun _ : GeminiService.Request =>
              GeminiService.CallFulfils (GeminiService.ResponseObject (Some "not json"%string)) in
  GeminiService.analyzeFrame (H := RefHost.host) gc "AAAA" = Resolved GeminiService.sceneDefault /\
  GeminiService.analyzeTopology (H := RefHost.host) gc "AAAA"
  = Resolved GeminiService.topologyDefault.
Proof.
  intros gc.
  destruct (analysis_resolves_with_default_on_failure RefHost.host gc "AAAA")
    as (_ & _ & Hf & Ht).
  split.
  - apply Hf. apply GeminiService.fails_parse with (e := SyntaxError). reflexivity.
  - apply Ht. apply GeminiService.fails_parse with (e := SyntaxError). reflexivity.
Defined.

(** C3. When the call succeeds and the body is the text of the empty
    object, or the text is empty or absent, both functions resolve with the
    parsed empty object: every field is absent and none of the default
    values is merged in.  More generally, whatever the [try] block yields
    is passed on unchanged. *)
Theorem empty_body_resolves_with_empty_object :
  forall (host : Host) (generateContent : GeminiService.Request -> GeminiService.CallOutcome)
         (img : string) (t : option string),
    JSON_parse "{}" = Normal (JObject []) ->
    t = Some "{}"%string \/ t = Some ""%string \/ t = None ->
    (generateContent (GeminiService.frameRequest img)
       = GeminiService.CallFulfils (GeminiService.ResponseObject t) ->
     exists v, GeminiService.analyzeFrame generateContent img = Resolved v /\
               v = JObject [] /\ (forall k, getField v k = None) /\
               v <> GeminiService.sceneDefault) /\
    (generateContent (GeminiService.topologyRequest img)
       = GeminiService.CallFulfils (GeminiService.ResponseObject t) ->
     exists v, GeminiService.analyzeTopology generateContent img = Resolved v /\
               v = JObject [] /\ (forall k, getField v k = None) /\
               v <> GeminiService.topologyDefault) /\
    (forall v, GeminiService.requestAndParse generateContent (GeminiService.frameRequest img)
               = Normal v ->
               GeminiService.analyzeFrame generateContent img = Resolved v) /\
    (forall v, GeminiService.requestAndParse generateContent (GeminiService.topologyRequest img)
               = Normal v ->
               GeminiService.analyzeTopology generateContent img = Resolved v).
Proof.
  intros host gc img t Hp Ht.
  rewrite analyzeFrame_settles, analyzeTopology_settles.
  repeat split.
  - intros Hg. rewrite (requestAndParse_empty gc _ t Hp Ht Hg).
    exists (JObject []). repeat split; try reflexivity. discriminate.
  - intros Hg. rewrite (requestAndParse_empty gc _ t Hp Ht Hg).
    exists (JObject []). repeat split; try reflexivity. discriminate.
  - intros v ->. reflexivity.
  - intros v ->. reflexivity.
Qed.

(** The reference host parses the two-character body to the empty object. *)
Lemma empty_body_resolves_with_empty_object_witness :
  let gc := fun _ : GeminiService.Request =>
              GeminiService.CallFulfils (GeminiService.ResponseObject (Some "{}"%string)) in
  GeminiService.analyzeFrame (H := RefHost.host) gc "AAAA" = Resolved (JObject []) /\
  GeminiService.analyzeTopology (H := RefHost.host) gc "AAAA" = Resolved (JObject []).
Proof.
  intros gc.
  destruct (empty_body_resolves_with_empty_object RefHost.host gc "AAAA" (Some "{}"%string))
    as (Hf & Ht & _ & _).
  - reflexivity.
  - left. reflexivity.
  - destruct (Hf eq_refl) as (v & Hv & -> & _).
    destruct (Ht eq_refl) as (v' & Hv' & -> & _).
    split; assumption.
Defined.

(* ===================================================================== *)
(** * Statements as log transformers                                      *)
(* ===================================================================== *)

Section DrawFacts.
Import Dom App Props.

#[global] Instance Closed_True : Closed (fun _ => True).
Proof. split; trivial. Qed.

#[global] Instance Closed_Forall (good : CtxOp -> Prop) : Closed (Forall good).
Proof. split; [constructor | intros a b Ha Hb; apply Forall_app; split; assumption]. Qed.

#[global] Instance Closed_keepsAlpha : Closed keepsAlpha.
Proof.
  split.
  - intros st Hst. exact Hst.
  - intros a b Ha Hb st Hst. rewrite fold_left_app. apply Hb, Ha, Hst.
Qed.

Lemma sameOutside_refl w : sameOutside w w.
Proof. unfold sameOutside. tauto. Qed.

Lemma sameOutside_trans w1 w2 w3 :
  sameOutside w1 w2 -> sameOutside w2 w3 -> sameOutside w1 w3.
Proof. unfold sameOutside. intuition congruence. Qed.

Lemma emitted_nil w : emitted w w [].
Proof.
  unfold emitted. destruct (canvasRef w) as [c|]; [|reflexivity].
  rewrite app_nil_r. destruct c; reflexivity.
Qed.

Lemma emitted_trans w1 w2 w3 a b :
  emitted w1 w2 a -> emitted w2 w3 b -> emitted w1 w3 (a ++ b).
Proof.
  unfold emitted. destruct (canvasRef w1) as [c|]; intros H12 H23.
  - rewrite H12 in H23. cbn in H23. rewrite H23, app_assoc. reflexivity.
  - rewrite H12 in H23. exact H23.
Qed.

Lemma emit_spec ops w : sameOutside w (emit ops w) /\ emitted w (emit ops w) ops.
Proof.
  unfold emit, emitted. destruct (canvasRef w) as [c|] eqn:E.
  - split; [unfold sameOutside; cbn; tauto | reflexivity].
  - split; [apply sameOutside_refl | exact E].
Qed.

Lemma ctx_emit op w : ctx op w = (tt, emit [op] w).
Proof. unfold ctx, emit. destruct (canvasRef w); reflexivity. Qed.

Lemma emit_emit a b w : emit b (emit a w) = emit (a ++ b) w.
Proof.
  unfold emit. destruct (canvasRef w) as [c|] eqn:E; cbn.
  - rewrite app_assoc. reflexivity.
  - rewrite E. reflexivity.
Qed.

Lemma emit_nil w : emit [] w = w.
Proof.
  unfold emit. destruct (canvasRef w) as [c|] eqn:E; [|reflexivity].
  rewrite app_nil_r. destruct w, c; cbn in *. subst. reflexivity.
Qed.

(** A loop whose rounds only append to the log appends [loopOps]. *)
Lemma forFrom_emit (bound step : Z) (body : Z -> M unit) (f : Z -> list CtxOp) :
  (forall j w, body j w = (tt, emit (f j) w)) ->
  forall fuel i w,
    forFrom fuel i bound step body w = (tt, emit (loopOps fuel i bound step f) w).
Proof.
  intros Hbody. induction fuel as [|fuel IH]; intros i w; cbn.
  - rewrite emit_nil. reflexivity.
  - destruct (i <? bound).
    + unfold bind. rewrite Hbody, IH, emit_emit. reflexivity.
    + rewrite emit_nil. reflexivity.
Qed.


Lemma Draws_ret {A} P `{Closed P} (a : A) : Draws P (ret a).
Proof.
  intros w. split; [apply sameOutside_refl|].
  exists []. split; [apply emitted_nil | apply closed_nil].
Qed.

Lemma Draws_bind {A B} P `{Closed P} (m : M A) (k : A -> M B) :
  Draws P m -> (forall a, Draws P (k a)) -> Draws P (bind m k).
Proof.
  intros Hm Hk w. unfold bind.
  destruct (Hm w) as (S1 & ops1 & E1 & P1).
  destruct (m w) as [a w1]. cbn in *.
  destruct (Hk a w1) as (S2 & ops2 & E2 & P2).
  split; [eapply sameOutside_trans; eassumption|].
  exists (ops1 ++ ops2). split; [eapply emitted_trans; eassumption|].
  apply closed_app; assumption.
Qed.

Lemma Draws_emit P ops : P ops -> Draws P (fun w => (tt, emit ops w)).
Proof.
  intros HP w. cbn. destruct (emit_spec ops w) as [S E].
  split; [exact S|]. exists ops. split; assumption.
Qed.

Lemma Draws_ctx P op : P [op] -> Draws P (ctx op).
Proof.
  intros HP w. rewrite ctx_emit. apply (Draws_emit P [op] HP w).
Qed.

Lemma Draws_random P `{Closed P} : Draws P Math_random.
Proof.
  intros w. cbn. split; [unfold sameOutside; cbn; tauto|].
  exists []. split; [|apply closed_nil].
  unfold emitted. cbn. destruct (canvasRef w) as [c|]; [|reflexivity].
  rewrite app_nil_r. destruct c; reflexivity.
Qed.

Lemma Draws_forFrom P `{Closed P} (start bound step : Z) (body : Z -> M unit) :
  0 < step ->
  (forall j, start <= j < bound -> (j - start) mod step = 0 -> Draws P (body j)) ->
  forall fuel i, start <= i -> (i - start) mod step = 0 ->
                 Draws P (forFrom fuel i bound step body).
Proof.
  intros Hstep Hbody. induction fuel as [|fuel IH]; intros i Hi Hmod; cbn.
  - apply Draws_ret; assumption.
  - destruct (i <? bound) eqn:E.
    + apply Z.ltb_lt in E. apply Draws_bind; [assumption| |].
      * apply Hbody; [lia | assumption].
      * intros _. apply IH; [lia|].
        replace (i + step - start) with ((i - start) + 1 * step) by lia.
        rewrite Z_mod_plus_full. exact Hmod.
    + apply Draws_ret; assumption.
Qed.

Lemma Draws_for P `{Closed P} (start bound step : Z) (body : Z -> M unit) :
  0 < step ->
  (forall j, start <= j < bound -> (j - start) mod step = 0 -> Draws P (body j)) ->
  Draws P (for_ start bound step body).
Proof.
  intros Hstep Hbody. unfold for_.
  apply Draws_forFrom with (start := start); try assumption; [lia|].
  rewrite Z.sub_diag. reflexivity.
Qed.

Lemma Draws_mapM {A B} P `{Closed P} (f : A -> M B) (xs : list A) :
  (forall x, Draws P (f x)) -> Draws P (mapM f xs).
Proof.
  intros Hf. induction xs as [|x xs IH]; cbn.
  - apply Draws_ret; assumption.
  - apply Draws_bind; [assumption | apply Hf |]. intros y.
    apply Draws_bind; [assumption | exact IH |]. intros ys.
    apply Draws_ret; assumption.
Qed.

(** The loops reach their exit test before the rounds run out: more
    rounds change nothing. *)
Lemma forFrom_fuel (bound step : Z) (body : Z -> M unit) :
  0 < step ->
  forall fuel i extra w,
    bound - i <= Z.of_nat fuel ->
    forFrom (fuel + extra) i bound step body w = forFrom fuel i bound step body w.
Proof.
  intros Hstep. induction fuel as [|fuel IH]; intros i extra w Hb.
  - cbn [Nat.add forFrom]. destruct extra as [|extra]; [reflexivity|].
    cbn [forFrom]. destruct (i <? bound) eqn:E; [|reflexivity].
    apply Z.ltb_lt in E. lia.
  - cbn [Nat.add forFrom]. destruct (i <? bound) eqn:E; [|reflexivity].
    unfold bind. destruct (body i w) as [u w1]. apply IH. lia.
Qed.

Lemma for_complete (start bound step : Z) (body : Z -> M unit) extra w :
  0 < step ->
  forFrom (Z.to_nat (bound - start) + extra) start bound step body w
  = for_ start bound step body w.
Proof. intros Hstep. unfold for_. apply forFrom_fuel; [assumption | lia]. Qed.

End DrawFacts.

(* ===================================================================== *)
(** * processFrame, stage by stage                                        *)
(* ===================================================================== *)

Section FrameFacts.
Import Dom App Props.
Context `{Host}.

Ltac draws :=
  repeat first
    [ apply Draws_ret; try exact _
    | apply Draws_ctx
    | apply Draws_random; try exact _
    | apply Draws_bind; [try exact _ | | intros ?]
    | apply Draws_for; [try exact _ | lia | intros ? ? ?]
    | apply Draws_mapM; [try exact _ | intros ?] ].

Lemma keepsAlpha_neutral op : alphaNeutral op -> keepsAlpha [op].
Proof.
  intros Hn st Hst. destruct op; cbn in *; try assumption; contradiction.
Qed.

Lemma keepsAlpha_glowOps s : keepsAlpha (glowOps s).
Proof.
  intros st Hst. unfold glowOps. cbn.
  destruct (Qle_bool 0 (glow s / 150) && Qle_bool (glow s / 150) 1); reflexivity.
Qed.

Lemma histogramSampling_Draws P `{Closed P} : Draws P histogramSampling.
Proof.
  unfold histogramSampling. apply Draws_bind; [exact _ | apply Draws_random; exact _ |].
  intros r. destruct (Qlt_bool 0.85 r); [|apply Draws_ret; exact _].
  intros w.
  assert (D : Draws P (mapM (fun _ : Q => r' <- Math_random ;; ret (5 + r' * 95)%Q)
                            (histogramData w))) by draws.
  destruct (D w) as (S & ops & E & HP).
  destruct (mapM _ (histogramData w) w) as [fresh w1]. cbn in *.
  split.
  - unfold sameOutside in *. cbn. exact S.
  - exists ops. split; [|exact HP]. unfold emitted in *. cbn. exact E.
Qed.

Lemma scanOverlay_Draws P `{Closed P} W Ht :
  (forall op, alphaNeutral op -> P [op]) -> Draws P (scanOverlay W Ht).
Proof.
  intros Hn. unfold scanOverlay. draws; apply Hn; exact I.
Qed.

Lemma wireframe_Draws P `{Closed P} v W Ht :
  (forall op, alphaNeutral op -> P [op]) -> Draws P (wireframe v W Ht).
Proof.
  intros Hn. unfold wireframe. draws; try (apply Hn; exact I).
  destruct (_ =? 0); draws; apply Hn; exact I.
Qed.

Lemma baseGrade_emit s W Ht w :
  baseGrade s W Ht w = (tt, emit [SetFilter (filters s); DrawVideo 0 0 W Ht] w).
Proof.
  unfold baseGrade, bind. rewrite ctx_emit, ctx_emit, emit_emit. reflexivity.
Qed.

Lemma glowStage_on s w :
  Qlt_bool 0 (glow s) = true -> glowStage s w = (tt, emit (glowOps s) w).
Proof.
  intros Hg. unfold glowStage, bind. rewrite Hg.
  repeat (rewrite ctx_emit; try rewrite emit_emit). reflexivity.
Qed.

Lemma glowStage_off s w :
  Qlt_bool 0 (glow s) = false -> glowStage s w = (tt, w).
Proof. intros Hg. unfold glowStage. rewrite Hg. reflexivity. Qed.

Lemma glowStage_Draws P `{Closed P} s : P (glowOps s) -> Draws P (glowStage s).
Proof.
  intros HP w. destruct (Qlt_bool 0 (glow s)) eqn:Hg.
  - rewrite glowStage_on by assumption. apply (Draws_emit P _ HP w).
  - rewrite glowStage_off by assumption. apply (Draws_ret P tt w).
Qed.

Lemma draw_Draws P `{Closed P} s m v c :
  (forall op, alphaNeutral op -> P [op]) -> P (glowOps s) -> Draws P (draw s m v c).
Proof.
  intros Hn Hg. unfold draw. destruct (context2d c); [|apply Draws_ret; exact _].
  apply Draws_bind; [exact _ | apply Draws_ctx, Hn; exact I | intros _].
  apply Draws_bind; [exact _ | apply Draws_ctx, Hn; exact I | intros _].
  apply Draws_bind; [exact _ | | intros _; apply histogramSampling_Draws; exact _].
  assert (B : Draws P (baseGrade s (width c) (height c))).
  { unfold baseGrade. draws; apply Hn; exact I. }
  destruct m.
  - apply Draws_bind; [exact _ | exact B | intros _].
    apply Draws_bind; [exact _ | apply glowStage_Draws; assumption | intros _].
    apply Draws_ret; exact _.
  - apply Draws_bind; [exact _ | exact B | intros _].
    apply Draws_bind; [exact _ | apply glowStage_Draws; assumption | intros _].
    apply scanOverlay_Draws; assumption.
  - apply wireframe_Draws; assumption.
Qed.

Lemma whenReady_Draws P `{Closed P} s m :
  (forall v c, Draws P (draw s m v c)) -> Draws P (whenReady s m).
Proof.
  intros Hd w. unfold whenReady.
  destruct (videoRef w) as [v|]; [|apply (Draws_ret P tt w)].
  destruct (canvasRef w) as [c|] eqn:E.
  - destruct (readyState v =? 4); [apply (Hd v c w) | apply (Draws_ret P tt w)].
  - apply (Draws_ret P tt w).
Qed.


Lemma whenReady_outside s m w : sameOutside w (exec (whenReady s m) w).
Proof.
  assert (D : Draws (fun _ => True) (whenReady s m)).
  { apply whenReady_Draws; [exact _|]. intros. apply draw_Draws; trivial; exact _. }
  exact (proj1 (D w)).
Qed.

Lemma processFrame_exec s m w :
  exec (processFrame s m) w =
  let w1 := exec (whenReady s m) w in
  set_requestRef (Some (nextHandle w1))
    (set_nextHandle (nextHandle w1 + 1)
       (set_frameRequests (frameRequests w1 ++ [(nextHandle w1, ProcessFrame s m)]) w1)).
Proof.
  unfold processFrame, exec, bind, requestAnimationFrame.
  destruct (whenReady s m w) as [u w1]. reflexivity.
Qed.

End FrameFacts.

(* ===================================================================== *)
(** * The frame loop and the life of the component                        *)
(* ===================================================================== *)

Section LoopFacts.
Import Dom App Props.
Context `{Host}.

Lemma processFrame_facts s m w :
  let w' := exec (processFrame s m) w in
  frameRequests w' = frameRequests w ++ [(nextHandle w, ProcessFrame s m)] /\
  requestRef w' = Some (nextHandle w) /\
  nextHandle w' = nextHandle w + 1 /\
  videoRef w' = videoRef w /\
  cameraError w' = cameraError w /\
  settings w' = settings w /\
  mode w' = mode w /\
  canvasRef w' = canvasRef (exec (whenReady s m) w) /\
  histogramData w' = histogramData (exec (whenReady s m) w) /\
  taken w' = taken (exec (whenReady s m) w).
Proof.
  cbv zeta. rewrite processFrame_exec. cbv zeta.
  destruct (whenReady_outside s m w) as (Hs & Hm & He & Hv & Hr & Hf & Hn & Hrnd).
  cbn. rewrite Hf, Hn. repeat split; assumption.
Qed.

Lemma stateAfter_app a b : stateAfter (a ++ b) = fold_left applyOp b (stateAfter a).
Proof. unfold stateAfter. apply fold_left_app. Qed.

Lemma whenReady_alphaOne s m w : alphaOne w -> alphaOne (exec (whenReady s m) w).
Proof.
  intros Hw.
  assert (D : Draws keepsAlpha (whenReady s m)).
  { apply whenReady_Draws; [exact _|]. intros v c.
    apply draw_Draws; [exact _ | apply keepsAlpha_neutral | apply keepsAlpha_glowOps]. }
  destruct (D w) as (_ & ops & E & K). unfold exec.
  intros c1 Hc1. unfold emitted in E.
  destruct (canvasRef w) as [c|] eqn:Ec.
  - rewrite E in Hc1. injection Hc1 as <-. cbn [calls].
    rewrite stateAfter_app. apply K, Hw. exact Ec.
  - rewrite E in Hc1. discriminate.
Qed.

Lemma processFrame_alphaOne s m w : alphaOne w -> alphaOne (exec (processFrame s m) w).
Proof.
  intros Hw c Hc.
  destruct (processFrame_facts s m w) as (_ & _ & _ & _ & _ & _ & _ & Hcv & _).
  rewrite Hcv in Hc. exact (whenReady_alphaOne s m w Hw c Hc).
Qed.

Lemma animationFrame_single w h cb :
  frameRequests w = [(h, cb)] ->
  exec animationFrame w = exec (runCallback cb) (set_frameRequests [] w).
Proof. intros Hq. unfold animationFrame, exec at 1. cbn. rewrite Hq. reflexivity. Qed.

Lemma newStream_live labels : Forall (fun t => stopCalls t = 0%nat) (newStream labels).
Proof. unfold newStream. apply Forall_map. apply Forall_forall. reflexivity. Qed.

Lemma mounted_Inv rnd has2d frame : Inv (mounted rnd has2d frame).
Proof.
  unfold mounted, Inv. cbn. repeat split.
  - exists 1, (ProcessFrame INITIAL_SETTINGS Camera). cbn. repeat split; lia.
  - intros v stream Hv Hs. cbn in Hv. injection Hv as <-. discriminate.
  - intros c Hc. cbn in Hc. injection Hc as <-. reflexivity.
Qed.

Lemma animationFrame_Inv w : Inv w -> Inv (exec animationFrame w).
Proof.
  intros ((h & cb & Hq & Hr & Hh) & Ht & Ha).
  rewrite (animationFrame_single w h cb Hq). destruct cb as [s m]. cbn [runCallback].
  set (w0 := set_frameRequests [] w).
  destruct (processFrame_facts s m w0) as (Fq & Fr & Fn & Fv & _).
  repeat split.
  - exists (nextHandle w), (ProcessFrame s m). rewrite Fq, Fr, Fn. cbn. repeat split; lia.
  - intros v stream Hv Hs. rewrite Fv in Hv. exact (Ht v stream Hv Hs).
  - apply processFrame_alphaOne. exact Ha.
Qed.

Lemma rerender_Inv s m w : Inv w -> Inv (exec (rerender s m) w).
Proof.
  intros ((h & cb & Hq & Hr & Hh) & Ht & Ha).
  unfold rerender, exec, bind, frameEffectCleanup, frameEffect, bind,
    requestAnimationFrame, cancelAnimationFrame. cbn.
  rewrite Hr. replace (h =? 0) with false by (symmetry; apply Z.eqb_neq; lia).
  cbn. rewrite Hq. cbn. rewrite Z.eqb_refl. cbn.
  repeat split.
  - exists (nextHandle w), (ProcessFrame s m). cbn. repeat split; lia.
  - exact Ht.
  - exact Ha.
Qed.

Lemma loadedmetadata_Inv vw vh w : Inv w -> Inv (exec (loadedmetadata vw vh) w).
Proof.
  intros (Hp & Ht & Ha).
  unfold loadedmetadata, exec.
  destruct (videoRef w) as [v|] eqn:Ev; [|repeat split; assumption].
  assert (Ht' : forall stream, srcObject v = Some stream ->
                               Forall (fun t => stopCalls t = 0%nat) stream)
    by (intros stream; apply Ht; exact Ev).
  assert (Hreset : forall c, globalAlpha (stateAfter (calls c ++ [ResetBySize; ResetBySize]))
                             = 1%Q)
    by (intros c; rewrite stateAfter_app; reflexivity).
  destruct (onloadedmetadata v) as [[|]|]; cbn; unfold bind, sizeCanvas, play; cbn.
  - destruct (canvasRef w) as [c|] eqn:Ec; cbn.
    + split; [exact Hp|]. split.
      * intros v' stream Hv Hs. cbn in Hv. injection Hv as <-. apply Ht'. exact Hs.
      * intros c' Hc'. cbn in Hc'. injection Hc' as <-. apply Hreset.
    + split; [exact Hp|]. split.
      * intros v' stream Hv Hs. cbn in Hv. injection Hv as <-. apply Ht'. exact Hs.
      * intros c' Hc'. cbn in Hc'. rewrite Ec in Hc'. discriminate.
  - split; [exact Hp|]. split.
    + intros v' stream Hv Hs. cbn in Hv. injection Hv as <-. apply Ht'. exact Hs.
    + intros c' Hc'. apply Ha. exact Hc'.
  - split; [exact Hp|]. split.
    + intros v' stream Hv Hs. cbn in Hv. injection Hv as <-. apply Ht'. exact Hs.
    + intros c' Hc'. apply Ha. exact Hc'.
Qed.

Lemma step_Inv w e : Inv w -> Inv (step w e).
Proof.
  intros I. destruct e as [p f | vw vh | rs fr | vw vh | | s | m |]; cbn [step].
  - (* initCamera *)
    destruct I as (Hp & Ht & Ha).
    unfold initCamera, exec, bind, attach.
    destruct p as [labels | msg]; [|destruct f as [labels | msg']]; cbn;
      try (destruct (videoRef w) as [v|] eqn:Ev; cbn);
      (repeat split; [exact Hp | | exact Ha]);
      intros v' stream Hv Hs; cbn in Hv;
      try (injection Hv as <-; cbn in Hs; injection Hs as <-; apply newStream_live);
      try (rewrite Ev in Hv; discriminate);
      exact (Ht v' stream Hv Hs).
  - apply loadedmetadata_Inv, I.
  - (* the decoder moves on *)
    destruct I as (Hp & Ht & Ha).
    unfold videoProgress, exec.
    destruct (videoRef w) as [v|] eqn:Ev; [|repeat split; assumption].
    cbn. repeat split; [exact Hp | | exact Ha].
    intros v' stream Hv Hs. cbn in Hv. injection Hv as <-. cbn in Hs.
    apply (Ht v stream); [exact Ev | exact Hs].
  - (* the source changes size *)
    destruct I as (Hp & Ht & Ha).
    unfold sourceResize, exec.
    destruct (videoRef w) as [v|] eqn:Ev; [|repeat split; assumption].
    cbn. repeat split; [exact Hp | | exact Ha].
    intros v' stream Hv Hs. cbn in Hv. injection Hv as <-. cbn in Hs.
    apply (Ht v stream); [exact Ev | exact Hs].
  - apply animationFrame_Inv, I.
  - apply rerender_Inv, I.
  - destruct (Mode_eqb m (mode w)); [exact I | apply rerender_Inv, I].
  - destruct I as ((h & cb & Hq & Hr & Hh) & Ht & Ha).
    repeat split; [|exact Ht | exact Ha].
    exists h, cb. cbn. repeat split; assumption || lia.
Qed.

Lemma run_Inv events : forall w, Inv w -> Inv (run w events).
Proof.
  induction events as [|e events IH]; intros w I; cbn; [exact I|].
  apply IH, step_Inv, I.
Qed.

Lemma reachable_Inv rnd has2d frame events : Inv (run (mounted rnd has2d frame) events).
Proof. apply run_Inv, mounted_Inv. Qed.

End LoopFacts.

(* ===================================================================== *)
(** * The wireframe                                                       *)
(* ===================================================================== *)

Section WireframeFacts.
Import Dom App Props.

Lemma nth_error_chunks {A B} (f : A -> list B) (n : nat) (l : list A) :
  (forall a, List.length (f a) = n) ->
  forall i k, (k < n)%nat ->
    nth_error (flat_map f l) (i * n + k) =
    match nth_error l i with
    | Some a => nth_error (f a) k
    | None => None
    end.
Proof.
  intros Hlen. induction l as [|a l IH]; intros i k Hk.
  - cbn. rewrite !nth_error_nil. reflexivity.
  - cbn [flat_map]. destruct i as [|i].
    + cbn. apply nth_error_app1. rewrite Hlen. exact Hk.
    + rewrite nth_error_app2 by (rewrite Hlen; cbn; lia).
      rewrite Hlen. replace (S i * n + k - n)%nat with (i * n + k)%nat by (cbn; lia).
      cbn [nth_error]. apply IH. exact Hk.
Qed.

(** Reading channel [k] of the pixel at column [x], row [y]. *)
Lemma at_index_imageData frame w h x y (k : nat) :
  0 <= x < w -> 0 <= y < h -> (k < 4)%nat ->
  at_index (imageDataOf frame w h) ((y * w + x) * 4 + Z.of_nat k)
  = option_map inject_Z (nth_error (pixelBytes (frame x y)) k).
Proof.
  intros Hx Hy Hk. unfold at_index.
  replace ((y * w + x) * 4 + Z.of_nat k <? 0) with false
    by (symmetry; apply Z.ltb_ge; nia).
  f_equal. unfold imageDataOf.
  replace (Z.to_nat ((y * w + x) * 4 + Z.of_nat k))
    with (Z.to_nat (y * w + x) * 4 + k)%nat by nia.
  rewrite nth_error_chunks by (reflexivity || assumption).
  rewrite nth_error_seq.
  replace (Z.to_nat (y * w + x) <? Z.to_nat (w * h))%nat with true
    by (symmetry; apply Nat.ltb_lt; nia).
  cbn [Nat.add]. rewrite Z2Nat.id by nia.
  replace ((y * w + x) mod w) with x
    by (rewrite Z.add_comm, Z_mod_plus_full; symmetry; apply Z.mod_small; lia).
  replace ((y * w + x) / w) with y
    by (rewrite Z.add_comm, Z_div_plus_full by lia; rewrite Z.div_small by lia; lia).
  reflexivity.
Qed.

(** The offset of a sample is the design document's formula on the pixel
    sampled. *)
Lemma sampleOffset_formula frame w h x y :
  0 <= x < w -> 0 <= y < h ->
  sampleOffset (imageDataOf frame w h) w x y = Some (designOffset (frame x y)).
Proof.
  intros Hx Hy. unfold sampleOffset. cbv zeta.
  pose proof (at_index_imageData frame w h x y 0 Hx Hy ltac:(lia)) as H0.
  pose proof (at_index_imageData frame w h x y 1 Hx Hy ltac:(lia)) as H1.
  pose proof (at_index_imageData frame w h x y 2 Hx Hy ltac:(lia)) as H2.
  cbn [Z.of_nat Pos.of_succ_nat Pos.succ] in H0, H1, H2.
  rewrite Z.add_0_r in H0. rewrite H0, H1, H2. reflexivity.
Qed.



Lemma wireframe_atSample v W Ht :
  Draws (Forall (atSample (imageDataOf (currentFrame v) W Ht) W Ht)) (wireframe v W Ht).
Proof.
  unfold wireframe.
  repeat (apply Draws_bind; [exact _ | apply Draws_ctx; repeat constructor | intros _]).
  cbv zeta.
  apply Draws_for; [exact _ | lia | intros y Hy Hymod].
  apply Draws_bind; [exact _ | apply Draws_ctx; repeat constructor | intros _].
  apply Draws_bind; [exact _ | | intros _; apply Draws_ctx; repeat constructor].
  apply Draws_for; [exact _ | lia | intros x Hx Hxmod].
  rewrite Z.sub_0_r in Hymod, Hxmod.
  assert (S : sampled W Ht x y) by (unfold sampled; repeat split; lia).
  destruct (x =? 0); apply Draws_ctx; repeat constructor; exists y; split;
    solve [exact S | reflexivity].
Qed.

Lemma wireframe_emit v W Ht w :
  wireframe v W Ht w = (tt, emit (wireframeOps (currentFrame v) W Ht) w).
Proof.
  unfold wireframe, wireframeOps, for_. cbv zeta. unfold bind at 1 2 3 4 5 6.
  rewrite !ctx_emit, !emit_emit.
  erewrite forFrom_emit; [rewrite emit_emit; reflexivity|].
  intros y w0. cbv beta. unfold bind at 1 2. rewrite ctx_emit.
  erewrite forFrom_emit.
  - rewrite ctx_emit, !emit_emit. reflexivity.
  - intros x w1. cbv beta. unfold pathOp.
    destruct (x =? 0); apply ctx_emit.
Qed.



End WireframeFacts.

(* ===================================================================== *)
(** * The standard pipeline, operation by operation                       *)
(* ===================================================================== *)

Section PipelineFacts.
Import Dom App Props.
Context `{Host}.

#[local] Instance Closed_nothing : Closed (fun ops => ops = []).
Proof. split; [reflexivity | intros a b -> ->; reflexivity]. Qed.

Lemma histogramSampling_silent : Draws (fun ops => ops = []) histogramSampling.
Proof. apply histogramSampling_Draws. exact _. Qed.

Lemma whenReady_ready s m w v c :
  videoRef w = Some v -> canvasRef w = Some c -> readyState v = 4 ->
  whenReady s m w = draw s m v c w.
Proof. intros Hv Hc Hr. unfold whenReady. rewrite Hv, Hc, Hr. reflexivity. Qed.

Lemma canvasRef_emit ops w c :
  canvasRef w = Some c ->
  canvasRef (emit ops w)
  = Some (mkCanvas (width c) (height c) (context2d c) (calls c ++ ops)).
Proof. intros Hc. unfold emit. rewrite Hc. reflexivity. Qed.

Lemma emit_then {A} P (m : M A) ops0 w c :
  canvasRef w = Some c -> Draws P m ->
  exists rest,
    canvasRef (snd (m (emit ops0 w)))
    = Some (mkCanvas (width c) (height c) (context2d c) (calls c ++ ops0 ++ rest)) /\
    P rest.
Proof.
  intros Hc D. destruct (D (emit ops0 w)) as (_ & rest & E & HP).
  exists rest. split; [|exact HP].
  unfold emitted in E. rewrite (canvasRef_emit ops0 w c Hc) in E. cbn in E.
  rewrite E, app_assoc. reflexivity.
Qed.

(** The head of [draw] outside relief mode: reset, base grade, glow. *)
Lemma draw_standard_head s m v c w :
  context2d c = true -> m <> Relief ->
  draw s m v c w =
  (match m with Scan => scanOverlay (width c) (height c) | _ => skip end ;;
   histogramSampling)
    (emit (baseOps s c ++ (if Qlt_bool 0 (glow s) then glowOps s else [])) w).
Proof.
  intros Hctx Hm. unfold draw. rewrite Hctx.
  assert (G : forall w0, glowStage s w0
                         = (tt, emit (if Qlt_bool 0 (glow s) then glowOps s else []) w0)).
  { intros w0. destruct (Qlt_bool 0 (glow s)) eqn:Hg.
    - apply glowStage_on, Hg.
    - rewrite glowStage_off by exact Hg. rewrite emit_nil. reflexivity. }
  destruct m; [| |contradiction]; unfold bind;
    rewrite !ctx_emit, baseGrade_emit, G, !emit_emit; reflexivity.
Qed.

Lemma draw_standard s m v c w :
  canvasRef w = Some c -> context2d c = true -> m <> Relief ->
  exists rest,
    canvasRef (exec (draw s m v c) w)
    = Some (mkCanvas (width c) (height c) (context2d c)
              (calls c ++ (baseOps s c ++ (if Qlt_bool 0 (glow s) then glowOps s else []))
                 ++ rest)) /\
    (m = Camera -> rest = []).
Proof.
  intros Hc Hctx Hm. unfold exec. rewrite draw_standard_head by assumption.
  destruct m; [| |contradiction].
  - destruct (emit_then (fun ops => ops = []) (skip ;; histogramSampling)
                (baseOps s c ++ (if Qlt_bool 0 (glow s) then glowOps s else [])) w c Hc)
      as (rest & E & ->).
    { apply Draws_bind; [exact _ | apply Draws_ret; exact _ |].
      intros _. apply histogramSampling_silent. }
    exists []. split; [exact E | reflexivity].
  - destruct (emit_then (fun _ => True)
                (scanOverlay (width c) (height c) ;; histogramSampling)
                (baseOps s c ++ (if Qlt_bool 0 (glow s) then glowOps s else [])) w c Hc)
      as (rest & E & _).
    { apply Draws_bind; [exact _ | apply scanOverlay_Draws; [exact _ | trivial] |].
      intros _. apply histogramSampling_Draws. exact _. }
    exists rest. split; [exact E | discriminate].
Qed.

Lemma processFrame_standard s m v c w :
  videoRef w = Some v -> canvasRef w = Some c -> readyState v = 4 ->
  context2d c = true -> m <> Relief ->
  exists rest,
    canvasRef (exec (processFrame s m) w)
    = Some (mkCanvas (width c) (height c) (context2d c)
              (calls c ++ (baseOps s c ++ (if Qlt_bool 0 (glow s) then glowOps s else []))
                 ++ rest)) /\
    (m = Camera -> rest = []).
Proof.
  intros Hv Hc Hr Hctx Hm.
  destruct (processFrame_facts s m w) as (_ & _ & _ & _ & _ & _ & _ & -> & _).
  unfold exec. rewrite (whenReady_ready s m w v c Hv Hc Hr).
  apply draw_standard; assumption.
Qed.


(** Settings that agree on what the pipeline reads draw the same. *)
Lemma draw_sameRendering s1 s2 m v c w :
  sameRendering s1 s2 -> draw s1 m v c w = draw s2 m v c w.
Proof.
  intros (Hb & Hc & Hs & Hk & Hg & Hl).
  unfold draw, baseGrade, glowStage, filters.
  rewrite Hb, Hc, Hs, Hk, Hg, Hl. reflexivity.
Qed.

Lemma whenReady_sameRendering s1 s2 m w :
  sameRendering s1 s2 -> whenReady s1 m w = whenReady s2 m w.
Proof.
  intros S. unfold whenReady.
  destruct (videoRef w) as [v|]; [|reflexivity].
  destruct (canvasRef w) as [c|]; [|reflexivity].
  destruct (readyState v =? 4); [|reflexivity].
  apply draw_sameRendering, S.
Qed.

Lemma append_assoc (a b c : string) : ((a ++ b) ++ c = a ++ (b ++ c))%string.
Proof. induction a as [|ch a IH]; cbn; [reflexivity | rewrite IH; reflexivity]. Qed.

Lemma filters_render s : filters s = Design.renderFilter (Design.baseGradeFilter s).
Proof.
  unfold filters, Design.baseGradeFilter, Design.renderFilter, Design.renderFn,
    Design.bokehScale.
  destruct (lut s); cbn; rewrite ?append_assoc; cbn;
    repeat (f_equal; rewrite ?append_assoc; cbn); reflexivity.
Qed.

End PipelineFacts.

(* ===================================================================== *)
(** * Relief mode, exactly                                                *)
(* ===================================================================== *)

Section ReliefFacts.
Import Dom App Props.
Context `{Host}.

Lemma processFrame_relief_exact s v c w :
  videoRef w = Some v -> canvasRef w = Some c -> readyState v = 4 ->
  context2d c = true ->
  canvasRef (exec (processFrame s Relief) w)
  = Some (mkCanvas (width c) (height c) (context2d c)
            (calls c ++ [SetFilter "none"; SetGlobalCompositeOperation SourceOver]
               ++ wireframeOps (currentFrame v) (width c) (height c))).
Proof.
  intros Hv Hc Hr Hctx.
  destruct (processFrame_facts s Relief w) as (_ & _ & _ & _ & _ & _ & _ & -> & _).
  unfold exec. rewrite (whenReady_ready s Relief w v c Hv Hc Hr).
  unfold draw. rewrite Hctx. unfold bind at 1 2 3.
  rewrite !ctx_emit, wireframe_emit, !emit_emit.
  destruct (emit_then (fun ops => ops = []) histogramSampling
              ([SetFilter "none"; SetGlobalCompositeOperation SourceOver]
                 ++ wireframeOps (currentFrame v) (width c) (height c)) w c Hc
              histogramSampling_silent) as (rest & E & ->).
  rewrite app_nil_r, Hctx in E. exact E.
Qed.

End ReliefFacts.

(* ===================================================================== *)
(** * The properties                                                      *)
(* ===================================================================== *)

(** C2, on the code.  The canvas only takes the video's native size in
    the handler the first request installs.  When the first request is
    refused and the fallback one succeeds, the handler installed is the
    one that only plays: once the video reports 640 x 480 and is fully
    decoded, the frame is drawn into a canvas that is still 1920 x 1080. *)
Theorem fallback_camera_draws_at_initial_canvas_size :
  forall (host : Host) (rnd : nat -> Q) (frame : Dom.Raster),
    let w := App.run (App.mounted rnd true frame)
               [ App.InitCameraDone (App.GumRejects "NotReadableError")
                                    (App.GumResolves ["camera"%string]);
                 App.LoadedMetadata 640 480;
                 App.VideoProgress 4 frame;
                 App.AnimationFrame ] in
    exists v c,
      App.videoRef w = Some v /\ App.canvasRef w = Some c /\
      Dom.readyState v = 4 /\
      (Dom.videoWidth v, Dom.videoHeight v) = (640, 480) /\
      (Dom.width c, Dom.height c) = (1920, 1080) /\
      Dom.calls c = Props.baseOps App.INITIAL_SETTINGS c
                      ++ Props.glowOps App.INITIAL_SETTINGS /\
      In (Dom.DrawVideo 0 0 1920 1080) (Dom.calls c).
Proof.
  intros host rnd frame. cbv zeta. unfold App.run. cbn [fold_left].
  set (w0 := App.step (App.step (App.step (App.mounted _ _ _) _) _) _).
  cbn [App.step].
  rewrite (animationFrame_single w0 1 (App.ProcessFrame App.INITIAL_SETTINGS App.Camera))
    by (vm_compute; reflexivity).
  cbn [App.runCallback].
  set (v0 := Dom.mkVideo 4 640 480 (Some (App.newStream ["camera"%string]))
                         (Some Dom.PlayOnly) 1 frame).
  set (c0 := Dom.mkCanvas 1920 1080 true []).
  destruct (processFrame_facts App.INITIAL_SETTINGS App.Camera (App.set_frameRequests [] w0))
    as (_ & _ & _ & Hv & _).
  destruct (processFrame_standard App.INITIAL_SETTINGS App.Camera v0 c0
              (App.set_frameRequests [] w0))
    as (rest & Hc & Hrest); try (vm_compute; reflexivity); try discriminate.
  rewrite (Hrest eq_refl), app_nil_r in Hc.
  exists v0, (Dom.mkCanvas 1920 1080 true
                (Props.baseOps App.INITIAL_SETTINGS c0 ++ Props.glowOps App.INITIAL_SETTINGS)).
  split; [rewrite Hv; vm_compute; reflexivity|].
  split; [exact Hc|].
  repeat split.
  cbn. right. right. right. left. reflexivity.
Qed.

(** On the path where the first request succeeds the canvas is sized
    once, when the metadata load; a later change of the source's
    resolution leaves it as it was. *)
Lemma canvas_not_resized_after_source_change :
  forall (host : Host) (rnd : nat -> Q) (frame : Dom.Raster),
    let w := App.run (App.mounted rnd true frame)
               [ App.InitCameraDone (App.GumResolves ["camera"%string]) (App.GumRejects "");
                 App.LoadedMetadata 1920 1080;
                 App.VideoProgress 4 frame;
                 App.SourceResize 1080 1920;
                 App.AnimationFrame ] in
    exists v c,
      App.videoRef w = Some v /\ App.canvasRef w = Some c /\
      (Dom.videoWidth v, Dom.videoHeight v) = (1080, 1920) /\
      (Dom.width c, Dom.height c) = (1920, 1080) /\
      In (Dom.DrawVideo 0 0 1920 1080) (Dom.calls c).
Proof.
  intros host rnd frame. cbv zeta. unfold App.run. cbn [fold_left].
  set (w0 := App.step (App.step (App.step (App.step (App.mounted _ _ _) _) _) _) _).
  cbn [App.step].
  rewrite (animationFrame_single w0 1 (App.ProcessFrame App.INITIAL_SETTINGS App.Camera))
    by (vm_compute; reflexivity).
  cbn [App.runCallback].
  set (v0 := Dom.mkVideo 4 1080 1920 (Some (App.newStream ["camera"%string]))
                         (Some Dom.SizeCanvasAndPlay) 1 frame).
  set (c0 := Dom.mkCanvas 1920 1080 true [Dom.ResetBySize; Dom.ResetBySize]).
  destruct (processFrame_facts App.INITIAL_SETTINGS App.Camera (App.set_frameRequests [] w0))
    as (_ & _ & _ & Hv & _).
  destruct (processFrame_standard App.INITIAL_SETTINGS App.Camera v0 c0
              (App.set_frameRequests [] w0))
    as (rest & Hc & Hrest); try (vm_compute; reflexivity); try discriminate.
  rewrite (Hrest eq_refl), app_nil_r in Hc.
  exists v0, (Dom.mkCanvas 1920 1080 true
                (Dom.calls c0 ++ Props.baseOps App.INITIAL_SETTINGS c0
                   ++ Props.glowOps App.INITIAL_SETTINGS)).
  split; [rewrite Hv; vm_compute; reflexivity|].
  split; [exact Hc|].
  repeat split.
  cbn. do 5 right. left. reflexivity.
Qed.

(** The resize stage of the other component compares widths only: a
    source that keeps its width and changes its height is not followed. *)
Lemma resizeOnChange_misses_height :
  let video := Dom.mkVideo 4 1920 1440 None None 0 (fun _ _ => Dom.mkPixel 0 0 0 255) in
  let canvas := Dom.mkCanvas 1920 1080 true [] in
  Dom.height (QuantumApp.resizeOnChange video canvas) = 1080 /\
  Dom.videoHeight video = 1440.
Proof. split; reflexivity. Qed.

Section TeardownFacts.
Import Dom App Props.
Context `{Host}.

Lemma frameEffectCleanup_cancels w :
  onePending w -> frameRequests (exec frameEffectCleanup w) = [].
Proof.
  intros (h & cb & Hq & Hr & Hh).
  unfold exec, frameEffectCleanup, cancelAnimationFrame. rewrite Hr.
  replace (h =? 0) with false by (symmetry; apply Z.eqb_neq; lia).
  cbn. rewrite Hq. cbn. rewrite Z.eqb_refl. reflexivity.
Qed.

Lemma cameraEffectCleanup_outside w :
  let w' := exec cameraEffectCleanup w in
  frameRequests w' = frameRequests w /\ requestRef w' = requestRef w /\
  nextHandle w' = nextHandle w /\ canvasRef w' = canvasRef w.
Proof.
  unfold exec, cameraEffectCleanup.
  destruct (videoRef w) as [v|]; [|repeat split].
  destruct (srcObject v); repeat split.
Qed.

(** The cleanup finds the stream through the ref: with the ref unset it
    stops nothing. *)
Lemma cameraEffectCleanup_detached w :
  videoRef w = None -> exec cameraEffectCleanup w = w.
Proof. intros Hv. unfold exec, cameraEffectCleanup. rewrite Hv. reflexivity. Qed.

Lemma frameEffectCleanup_outside w :
  videoRef (exec frameEffectCleanup w) = videoRef w.
Proof.
  unfold exec, frameEffectCleanup, cancelAnimationFrame.
  destruct (requestRef w) as [h|]; [|reflexivity].
  destruct (h =? 0); reflexivity.
Qed.

Lemma animationFrame_idle w : frameRequests w = [] -> exec animationFrame w = w.
Proof.
  intros Hq. unfold exec, animationFrame. rewrite Hq. cbn.
  destruct w; cbn in *. subst. reflexivity.
Qed.

Lemma stop_live stream :
  Forall (fun t => stopCalls t = 0%nat) stream ->
  Forall (fun t => stopCalls t = 1%nat) (map stop stream).
Proof.
  intros F. apply Forall_map. eapply Forall_impl; [|exact F].
  intros t Ht. cbn. rewrite Ht. reflexivity.
Qed.

End TeardownFacts.





(** C9. Two settings snapshots that agree on brightness, contrast,
    saturation, bokeh, glow and lut make [processFrame] do the same to
    the canvas, the histogram and the random source, whatever their
    exposure, iso, shutterSpeed, whiteBalance, stabilization, upscale and
    hdr are. *)
Theorem only_six_settings_reach_the_canvas :
  forall (host : Host) (s1 s2 : CameraSettings) (m : App.Mode) (w : App.World),
    brightness s1 = brightness s2 -> contrast s1 = contrast s2 ->
    saturation s1 = saturation s2 -> bokeh s1 = bokeh s2 ->
    glow s1 = glow s2 -> lut s1 = lut s2 ->
    let w1 := App.exec (App.processFrame s1 m) w in
    let w2 := App.exec (App.processFrame s2 m) w in
    App.canvasRef w1 = App.canvasRef w2 /\
    App.histogramData w1 = App.histogramData w2 /\
    App.taken w1 = App.taken w2.
Proof.
  intros host s1 s2 m w Hb Hc Hs Hk Hg Hl w1 w2.
  assert (S : Props.sameRendering s1 s2) by (unfold Props.sameRendering; tauto).
  destruct (processFrame_facts s1 m w) as (_ & _ & _ & _ & _ & _ & _ & C1 & H1 & T1).
  destruct (processFrame_facts s2 m w) as (_ & _ & _ & _ & _ & _ & _ & C2 & H2 & T2).
  unfold w1, w2. rewrite C1, C2, H1, H2, T1, T2. unfold App.exec.
  rewrite (whenReady_sameRendering s1 s2 m w S). repeat split.
Qed.

(** The initial settings against a snapshot with every other field
    changed, in scan mode on a decoded frame. *)
Lemma only_six_settings_reach_the_canvas_witness :
  let w := App.run (H := RefHost.host)
             (App.mounted (fun n => (Z.of_nat n # 100)%Q) true
                          (fun _ _ => Dom.mkPixel 9 9 9 255))
             [ App.InitCameraDone (App.GumResolves ["video"%string]) (App.GumRejects "");
               App.LoadedMetadata 120 60;
               App.VideoProgress 4 (fun _ _ => Dom.mkPixel 9 9 9 255) ] in
  let other := mkSettings 50 100 100 100 3200 "1/500" 3200 false false false 0 10 LutNone in
  App.canvasRef
    (App.exec (App.processFrame (H := RefHost.host) App.INITIAL_SETTINGS App.Scan) w)
  = App.canvasRef (App.exec (App.processFrame (H := RefHost.host) other App.Scan) w).
Proof.
  intros w other.
  apply (only_six_settings_reach_the_canvas RefHost.host App.INITIAL_SETTINGS other
           App.Scan w); reflexivity.
Defined.

(** C10. With everything else fixed, the style log-c gives the same
    filter string and the same canvas operations as the style none,
    although the two settings snapshots are different. *)
Theorem lut_log_c_renders_as_lut_none :
  forall (host : Host) (s : CameraSettings) (m : App.Mode) (w : App.World),
    App.filters (App.with_lut LutLogC s) = App.filters (App.with_lut LutNone s) /\
    App.canvasRef (App.exec (App.processFrame (App.with_lut LutLogC s) m) w)
    = App.canvasRef (App.exec (App.processFrame (App.with_lut LutNone s) m) w) /\
    App.with_lut LutLogC s <> App.with_lut LutNone s.
Proof.
  intros host s m w. split; [reflexivity|]. split; [|discriminate].
  destruct (processFrame_facts (App.with_lut LutLogC s) m w)
    as (_ & _ & _ & _ & _ & _ & _ & -> & _).
  destruct (processFrame_facts (App.with_lut LutNone s) m w)
    as (_ & _ & _ & _ & _ & _ & _ & -> & _).
  reflexivity.
Qed.

(** C7. Outside relief mode the frame is drawn through one filter: the
    string the code builds is the rendering of the design's list, that
    is brightness, contrast and saturation percentages printed straight
    from the settings, a blur of bokeh / 40 pixels, then the adjustments
    of the style (hue-rotate 180deg and saturate 130% for cine-teal;
    sepia 40%, contrast 90% and brightness 95% for vintage; nothing
    otherwise).  The context is reset, the filter set and the video
    drawn over the whole canvas. *)
Theorem base_grade_is_one_filter_from_the_settings :
  forall (host : Host) (s : CameraSettings),
    App.filters s = Design.renderFilter (Design.baseGradeFilter s) /\
    forall (m : App.Mode) (v : Dom.HTMLVideoElement) (c : Dom.HTMLCanvasElement)
           (w : App.World),
      m <> App.Relief ->
      App.videoRef w = Some v -> App.canvasRef w = Some c ->
      Dom.readyState v = 4 -> Dom.context2d c = true ->
      exists rest,
        App.canvasRef (App.exec (App.processFrame s m) w)
        = Some (Dom.mkCanvas (Dom.width c) (Dom.height c) (Dom.context2d c)
                  (Dom.calls c
                     ++ [ Dom.SetFilter "none";
                          Dom.SetGlobalCompositeOperation Dom.SourceOver;
                          Dom.SetFilter (Design.renderFilter (Design.baseGradeFilter s));
                          Dom.DrawVideo 0 0 (Dom.width c) (Dom.height c) ]
                     ++ rest)).
Proof.
  intros host s. split; [apply filters_render|].
  intros m v c w Hm Hv Hc Hr Hctx.
  destruct (processFrame_standard s m v c w Hv Hc Hr Hctx Hm) as (rest & E & _).
  exists ((if App.Qlt_bool 0 (glow s) then Props.glowOps s else []) ++ rest).
  rewrite E, <- filters_render. unfold Props.baseOps.
  rewrite <- !app_assoc. reflexivity.
Qed.

(** A vintage grade with an out-of-range brightness on a decoded frame. *)
Lemma base_grade_is_one_filter_from_the_settings_witness :
  let s := mkSettings 0 250 100 100 800 "1/48" 5600 true true true 30 0 LutVintage in
  let w := App.run (H := RefHost.host)
             (App.mounted (fun _ => 0%Q) true (fun _ _ => Dom.mkPixel 9 9 9 255))
             [ App.InitCameraDone (App.GumResolves ["video"%string]) (App.GumRejects "");
               App.LoadedMetadata 1280 720;
               App.VideoProgress 4 (fun _ _ => Dom.mkPixel 9 9 9 255) ] in
  App.filters (H := RefHost.host) s
  = "brightness(250%) contrast(100%) saturate(100%) blur(0.75px) sepia(40%) contrast(90%) brightness(95%)"%string /\
  exists c rest,
    App.canvasRef (App.exec (App.processFrame (H := RefHost.host) s App.Camera) w) = Some c /\
    Dom.calls c
    = [ Dom.ResetBySize; Dom.ResetBySize; Dom.SetFilter "none";
        Dom.SetGlobalCompositeOperation Dom.SourceOver;
        Dom.SetFilter "brightness(250%) contrast(100%) saturate(100%) blur(0.75px) sepia(40%) contrast(90%) brightness(95%)";
        Dom.DrawVideo 0 0 1280 720 ] ++ rest.
Proof.
  intros s w.
  destruct (base_grade_is_one_filter_from_the_settings RefHost.host s) as (Hf & Hd).
  split; [reflexivity|].
  destruct (Hd App.Camera
              (Dom.mkVideo 4 1280 720 (Some [Dom.mkTrack "video" 0])
                           (Some Dom.SizeCanvasAndPlay) 1 (fun _ _ => Dom.mkPixel 9 9 9 255))
              (Dom.mkCanvas 1280 720 true [Dom.ResetBySize; Dom.ResetBySize]) w)
    as (rest & E); try reflexivity; try discriminate.
  eexists. exists rest. split; [exact E | reflexivity].
Defined.

Section GlowFacts.
Import Dom App Props.
Context `{Host}.

Lemma Qlt_bool_true x y : Qlt_bool x y = true <-> (x < y)%Q.
Proof.
  unfold Qlt_bool. rewrite negb_true_iff, <- not_true_iff_false, Qle_bool_iff.
  split; [apply Qnot_le_lt | apply Qlt_not_le].
Qed.


(** Screen over an opaque backdrop adds [a * cs * (1 - cb)]. *)
Lemma composite_screen a cb cs :
  (composite Screen a cb cs == cb + a * (cs * (1 - cb)))%Q.
Proof. unfold composite, blend. ring. Qed.

Lemma screen_never_darkens a cb cs :
  (0 < a)%Q -> (0 <= cb <= 1)%Q -> (0 <= cs <= 1)%Q ->
  (cb <= composite Screen a cb cs)%Q /\
  ((cb < composite Screen a cb cs)%Q <-> (0 < cs)%Q /\ (cb < 1)%Q).
Proof.
  intros Ha [Hb0 Hb1] [Hs0 Hs1]. rewrite composite_screen.
  assert (N : (0 <= cs * (1 - cb))%Q) by (apply Qmult_le_0_compat; lra).
  split; [|split].
  - assert (0 <= a * (cs * (1 - cb)))%Q by (apply Qmult_le_0_compat; lra). lra.
  - intros Hlt.
    destruct (Qlt_le_dec 0 cs) as [Hcs|Hcs]; [|
      assert (E : (cs == 0)%Q) by lra; rewrite E in Hlt; lra].
    destruct (Qlt_le_dec cb 1) as [Hcb|Hcb]; [split; assumption|].
    assert (E : (cb == 1)%Q) by lra. rewrite E in Hlt. lra.
  - intros [Hcs Hcb].
    assert (0 < cs * (1 - cb))%Q by (apply Qmult_lt_0_compat; lra).
    assert (0 < a * (cs * (1 - cb)))%Q by (apply Qmult_lt_0_compat; assumption).
    lra.
Qed.


End GlowFacts.





(** The same source written out: two rows of two samples. *)
Example wireframeOps_white_40 :
  Props.wireframeOps (fun _ _ => Dom.mkPixel 255 255 255 255) 40 40
  = [ Dom.DrawVideo 0 0 40 40; Dom.GetImageData 0 0 40 40;
      Dom.SetFillStyle "#0a0a0a"; Dom.FillRect 0 0 40 40;
      Dom.SetStrokeStyle "#22d3ee"; Dom.SetLineWidth 1;
      Dom.BeginPath;
      Dom.MoveTo 0 (Dom.nadd (App.inNum 0) (Some (Props.designOffset (Dom.mkPixel 255 255 255 255))));
      Dom.LineTo 20 (Dom.nadd (App.inNum 0) (Some (Props.designOffset (Dom.mkPixel 255 255 255 255))));
      Dom.Stroke;
      Dom.BeginPath;
      Dom.MoveTo 0 (Dom.nadd (App.inNum 20) (Some (Props.designOffset (Dom.mkPixel 255 255 255 255))));
      Dom.LineTo 20 (Dom.nadd (App.inNum 20) (Some (Props.designOffset (Dom.mkPixel 255 255 255 255))));
      Dom.Stroke ].
Proof. vm_compute. reflexivity. Qed.
(* ===================================================================== *)
(** * More on the frame pipeline                                          *)
(* ===================================================================== *)

Section WorldFacts.
Import Dom App Props Traces.

Lemma emit_set_taken ops n w : emit ops (set_taken n w) = set_taken n (emit ops w).
Proof. unfold emit. cbn. destruct (canvasRef w); reflexivity. Qed.

Lemma set_taken_twice n k w : set_taken n (set_taken k w) = set_taken n w.
Proof. reflexivity. Qed.

Lemma taken_emit ops w : taken (emit ops w) = taken w.
Proof. unfold emit. destruct (canvasRef w); reflexivity. Qed.

Lemma randoms_emit ops w : randoms (emit ops w) = randoms w.
Proof. unfold emit. destruct (canvasRef w); reflexivity. Qed.

Lemma squares_succ rnd t W Ht n :
  squares rnd t W Ht (S n)
  = FillRect (Qfloor (rnd t * inject_Z W)) (Qfloor (rnd (S t) * inject_Z Ht)) 3 3
    :: squares rnd (S (S t)) W Ht n.
Proof.
  unfold squares. cbn [seq map]. f_equal.
  rewrite <- seq_shift, map_map. apply map_ext. intros k.
  replace (2 * S k + t)%nat with (2 * k + S (S t))%nat by lia.
  replace (S (2 * S k) + t)%nat with (S (2 * k) + S (S t))%nat by lia.
  reflexivity.
Qed.

(** The loop of lines 186-190 from round [i] on. *)
Lemma squares_loop W Ht :
  forall fuel i w,
    i + Z.of_nat fuel = 30 ->
    forFrom fuel i 30 1
      (fun _ =>
         r1 <- Math_random ;;
         let rx := Qfloor (r1 * inject_Z W) in
         r2 <- Math_random ;;
         let ry := Qfloor (r2 * inject_Z Ht) in
         ctx (FillRect rx ry 3 3)) w
    = (tt, set_taken (2 * fuel + taken w)
             (emit (squares (randoms w) (taken w) W Ht fuel) w)).
Proof.
  induction fuel as [|fuel IH]; intros i w Hi.
  - cbn. rewrite emit_nil. destruct w; reflexivity.
  - cbn [forFrom]. replace (i <? 30) with true by (symmetry; apply Z.ltb_lt; lia).
    unfold bind at 1. unfold bind at 1. unfold Math_random at 1. cbv beta iota zeta.
    unfold bind at 1. unfold Math_random at 1. cbv beta iota zeta.
    rewrite ctx_emit. rewrite IH by lia.
    rewrite taken_emit, randoms_emit. cbn [taken randoms set_taken].
    rewrite squares_succ, emit_emit, !emit_set_taken. cbn [set_taken taken].
    f_equal. unfold set_taken. cbn. f_equal. lia.
Qed.

End WorldFacts.

Section ScanFacts.
Import Dom App Props Traces.
Context `{Host}.

(** Lines 177-191 as one append to the log. *)
Lemma scanOverlay_emit W Ht w :
  scanOverlay W Ht w
  = (tt, set_taken (60 + taken w)
           (emit (gridOps W Ht ++ squares (randoms w) (taken w) W Ht 30) w)).
Proof.
  unfold scanOverlay, gridOps, for_. unfold bind at 1 2 3 4 5 6 7.
  rewrite !ctx_emit, !emit_emit.
  erewrite (forFrom_emit W 60 _ (fun i => [MoveTo i (inNum 0); LineTo i (inNum Ht)])).
  2:{ intros j w0. unfold bind. rewrite !ctx_emit, emit_emit. reflexivity. }
  erewrite (forFrom_emit Ht 60 _ (fun i => [MoveTo 0 (inNum i); LineTo W (inNum i)])).
  2:{ intros j w0. unfold bind. rewrite !ctx_emit, emit_emit. reflexivity. }
  unfold bind at 1 2. rewrite !ctx_emit, !emit_emit.
  change (Z.to_nat (30 - 0)) with 30%nat.
  rewrite (squares_loop W Ht 30 0) by reflexivity.
  rewrite taken_emit, randoms_emit, emit_emit.
  repeat (rewrite <- ?app_assoc; cbn [app]). reflexivity.
Qed.

Lemma loopOps_Forall (good : CtxOp -> Prop) (bound step : Z) (f : Z -> list CtxOp) start :
  0 < step ->
  (forall j, start <= j < bound -> Forall good (f j)) ->
  forall fuel i, start <= i -> Forall good (loopOps fuel i bound step f).
Proof.
  intros Hstep Hf. induction fuel as [|fuel IH]; intros i Hi; cbn; [constructor|].
  destruct (i <? bound) eqn:E; [|constructor].
  apply Z.ltb_lt in E. apply Forall_app. split; [apply Hf; lia | apply IH; lia].
Qed.



Lemma Qfloor_scaled r (n : Z) :
  (0 <= r < 1)%Q -> 0 < n -> 0 <= Qfloor (r * inject_Z n) < n.
Proof.
  intros [H0 H1] Hn.
  assert (Hq : (0 < inject_Z n)%Q) by (rewrite Zlt_Qlt in Hn; exact Hn).
  split.
  - rewrite <- (Qfloor_Z 0). apply Qfloor_resp_le.
    apply Qmult_le_0_compat; [exact H0 | apply Qlt_le_weak, Hq].
  - rewrite Zlt_Qlt. eapply Qle_lt_trans; [apply Qfloor_le|].
    rewrite <- (Qmult_1_l (inject_Z n)) at 2.
    apply Qmult_lt_compat_r; assumption.
Qed.

Lemma squares_inside rnd t W Ht n :
  unitInterval rnd -> 0 < W -> 0 < Ht ->
  List.length (squares rnd t W Ht n) = n /\
  Forall (squareInside W Ht) (squares rnd t W Ht n).
Proof.
  intros U HW HH. unfold squares. split.
  - rewrite length_map, length_seq. reflexivity.
  - apply Forall_map, Forall_forall. intros k _. cbn.
    pose proof (Qfloor_scaled _ W (U (2 * k + t)%nat) HW).
    pose proof (Qfloor_scaled _ Ht (U (S (2 * k) + t)%nat) HH).
    cbn in *. repeat split; lia.
Qed.

(** A drawn frame in scan mode, operation by operation. *)
Lemma processFrame_scan_exact s v c w :
  videoRef w = Some v -> canvasRef w = Some c -> readyState v = 4 ->
  context2d c = true ->
  canvasRef (exec (processFrame s Scan) w)
  = Some (mkCanvas (width c) (height c) (context2d c)
            (calls c
               ++ (baseOps s c ++ (if Qlt_bool 0 (glow s) then glowOps s else []))
               ++ gridOps (width c) (height c)
               ++ squares (randoms w) (taken w) (width c) (height c) 30)).
Proof.
  intros Hv Hc Hr Hctx.
  destruct (processFrame_facts s Scan w) as (_ & _ & _ & _ & _ & _ & _ & -> & _).
  unfold exec. rewrite (whenReady_ready s Scan w v c Hv Hc Hr).
  rewrite draw_standard_head by (assumption || discriminate).
  unfold bind at 1. rewrite scanOverlay_emit.
  rewrite taken_emit, randoms_emit, emit_emit.
  destruct (histogramSampling_silent
              (set_taken (60 + taken w)
                 (emit ((baseOps s c ++ (if Qlt_bool 0 (glow s) then glowOps s else []))
                          ++ gridOps (width c) (height c)
                          ++ squares (randoms w) (taken w) (width c) (height c) 30) w)))
    as (_ & ops & E & ->).
  unfold emitted in E. cbn [canvasRef set_taken] in E.
  rewrite (canvasRef_emit _ w c Hc) in E. cbn in E. rewrite app_nil_r in E. exact E.
Qed.

End ScanFacts.

Section KeepFacts.
Import Dom App Props Traces.

Variable I : World -> Prop.
Hypothesis I_canvas : forall c w, I w -> I (set_canvasRef c w).
Hypothesis I_taken : forall n w, I w -> I (set_taken n w).

Lemma Preserves_ret {A} (a : A) : Preserves I (ret a).
Proof. intros w Hw. exact Hw. Qed.

Lemma Preserves_bind {A B} (m : M A) (k : A -> M B) :
  Preserves I m -> (forall a, Preserves I (k a)) -> Preserves I (bind m k).
Proof.
  intros Hm Hk w Hw. unfold bind. specialize (Hm w Hw).
  destruct (m w) as [a w1]. apply Hk, Hm.
Qed.

Lemma Preserves_ctx op : Preserves I (ctx op).
Proof.
  intros w Hw. unfold ctx. destruct (canvasRef w); [apply I_canvas|]; exact Hw.
Qed.

Lemma Preserves_random : Preserves I Math_random.
Proof. intros w Hw. apply I_taken, Hw. Qed.

Lemma Preserves_forFrom bound step body :
  (forall j, Preserves I (body j)) ->
  forall fuel i, Preserves I (forFrom fuel i bound step body).
Proof.
  intros Hb. induction fuel as [|fuel IH]; intros i; cbn; [apply Preserves_ret|].
  destruct (i <? bound); [|apply Preserves_ret].
  apply Preserves_bind; [apply Hb | intros _; apply IH].
Qed.

Ltac keeps :=
  repeat first
    [ apply Preserves_ret
    | apply Preserves_ctx
    | apply Preserves_random
    | apply Preserves_bind; [ | intros ?]
    | apply Preserves_forFrom; intros ? ].

Lemma Preserves_draw `{Host} s m v c :
  Preserves I histogramSampling -> Preserves I (draw s m v c).
Proof.
  intros Hh. unfold draw. destruct (context2d c); [|apply Preserves_ret].
  apply Preserves_bind; [apply Preserves_ctx | intros _].
  apply Preserves_bind; [apply Preserves_ctx | intros _].
  apply Preserves_bind; [|intros _; exact Hh].
  destruct m.
  - unfold baseGrade, glowStage. destruct (Qlt_bool 0 (glow s)); keeps.
  - unfold baseGrade, glowStage, scanOverlay, for_. destruct (Qlt_bool 0 (glow s)); keeps.
  - unfold wireframe, for_. keeps. unfold for_. keeps. destruct (_ =? 0); keeps.
Qed.

Lemma Preserves_whenReady `{Host} s m :
  Preserves I histogramSampling -> Preserves I (whenReady s m).
Proof.
  intros Hh w Hw. unfold whenReady.
  destruct (videoRef w) as [v|]; [|exact Hw].
  destruct (canvasRef w) as [c|]; [|exact Hw].
  destruct (readyState v =? 4); [|exact Hw].
  apply Preserves_draw; assumption.
Qed.

End KeepFacts.

Section HistogramFacts.
Import Dom App Props Traces.
Context `{Host}.

Lemma fresh_bars xs :
  forall w,
    let r := mapM (fun _ : Q => r' <- Math_random ;; ret (5 + r' * 95)%Q) xs w in
    List.length (fst r) = List.length xs /\
    randoms (snd r) = randoms w /\
    histogramData (snd r) = histogramData w /\
    (unitInterval (randoms w) -> Forall (fun v => (5 <= v <= 100)%Q) (fst r)).
Proof.
  set (f := fun _ : Q => r' <- Math_random ;; ret (5 + r' * 95)%Q).
  induction xs as [|x xs IH]; intros w; cbv zeta.
  - cbn. repeat split. constructor.
  - assert (E : mapM f (x :: xs) w
                = let (ys, w1) := mapM f xs (set_taken (S (taken w)) w) in
                  ((5 + randoms w (taken w) * 95)%Q :: ys, w1)) by reflexivity.
    rewrite E. clear E.
    specialize (IH (set_taken (S (taken w)) w)). cbv zeta in IH.
    destruct (mapM f xs (set_taken (S (taken w)) w)) as [ys w1].
    cbn [fst snd List.length] in *.
    destruct IH as (Hl & Hr & Hh & Hf). repeat split.
    + rewrite Hl. reflexivity.
    + exact Hr.
    + exact Hh.
    + intros U. constructor; [|apply Hf, U].
      destruct (U (taken w)) as [U0 U1]. split; lra.
Qed.

Lemma histogramSampling_ok : Preserves histogramOk histogramSampling.
Proof.
  intros w (Hl & Hf). unfold histogramSampling, bind, Math_random.
  destruct (Qlt_bool 0.85 (randoms w (taken w))); [|split; [exact Hl | exact Hf]].
  pose proof (fresh_bars (histogramData (set_taken (S (taken w)) w))
                         (set_taken (S (taken w)) w)) as F.
  cbv zeta in F.
  destruct (mapM _ (histogramData (set_taken (S (taken w)) w)) (set_taken (S (taken w)) w))
    as [fresh w1].
  cbn in *. destruct F as (Fl & Fr & _ & Ff). split.
  - change (List.length fresh = 24%nat). rewrite Fl. exact Hl.
  - change (unitInterval (randoms w1) ->
            Forall (fun v => (5 <= v <= 100)%Q) fresh).
    rewrite Fr. exact Ff.
Qed.

Lemma processFrame_ok s m : Preserves histogramOk (processFrame s m).
Proof.
  intros w Hw. fold (exec (processFrame s m) w). rewrite processFrame_exec. cbv zeta.
  assert (K : histogramOk (exec (whenReady s m) w)).
  { apply (Preserves_whenReady histogramOk); try exact Hw.
    - intros c w0 Hw0. exact Hw0.
    - intros n w0 Hw0. exact Hw0.
    - apply histogramSampling_ok. }
  exact K.
Qed.

Lemma step_ok w e : histogramOk w -> histogramOk (step w e).
Proof.
  intros Hw. destruct e as [p f | vw vh | rs fr | vw vh | | s | m |]; cbn [step].
  - unfold exec, initCamera, bind, attach.
    destruct p; [|destruct f]; cbn; try (destruct (videoRef w)); exact Hw.
  - unfold exec, loadedmetadata. destruct (videoRef w) as [v|] eqn:Ev; [|exact Hw].
    destruct (onloadedmetadata v) as [[|]|]; cbn; unfold bind, sizeCanvas, play; cbn;
      try (destruct (canvasRef w)); cbn; exact Hw.
  - unfold exec, videoProgress. destruct (videoRef w); exact Hw.
  - unfold exec, sourceResize. destruct (videoRef w); exact Hw.
  - unfold exec, animationFrame. cbn.
    assert (G : forall q w0, histogramOk w0 ->
                histogramOk (fold_left (fun w' (e : Z * Callback) => exec (runCallback (snd e)) w') q w0)).
    { induction q as [|[h [s m]] q IH]; intros w0 H0; cbn; [exact H0|].
      apply IH. apply processFrame_ok, H0. }
    apply G. exact Hw.
  - unfold exec, rerender, bind, frameEffectCleanup, frameEffect, bind,
      requestAnimationFrame, cancelAnimationFrame. cbn.
    destruct (requestRef w) as [h|]; [destruct (h =? 0)|]; exact Hw.
  - destruct (Mode_eqb m (mode w)); [exact Hw|].
    unfold exec, rerender, bind, frameEffectCleanup, frameEffect, bind,
      requestAnimationFrame, cancelAnimationFrame. cbn.
    destruct (requestRef w) as [h|]; [destruct (h =? 0)|]; exact Hw.
  - exact Hw.
Qed.

Lemma run_ok events : forall w, histogramOk w -> histogramOk (run w events).
Proof.
  induction events as [|e events IH]; intros w Hw; cbn; [exact Hw|].
  apply IH, step_ok, Hw.
Qed.

Lemma randoms_step w e : randoms (step w e) = randoms w.
Proof.
  destruct e as [p f | vw vh | rs fr | vw vh | | s | m |]; cbn [step].
  - unfold exec, initCamera, bind, attach.
    destruct p; [|destruct f]; cbn; try (destruct (videoRef w)); reflexivity.
  - unfold exec, loadedmetadata. destruct (videoRef w) as [v|] eqn:Ev; [|reflexivity].
    destruct (onloadedmetadata v) as [[|]|]; cbn; unfold bind, sizeCanvas, play; cbn;
      try (destruct (canvasRef w)); reflexivity.
  - unfold exec, videoProgress. destruct (videoRef w); reflexivity.
  - unfold exec, sourceResize. destruct (videoRef w); reflexivity.
  - unfold exec, animationFrame. cbn.
    assert (G : forall q w0,
                randoms (fold_left (fun w' (e : Z * Callback) => exec (runCallback (snd e)) w') q w0)
                = randoms w0).
    { induction q as [|[h [s m]] q IH]; intros w0; cbn; [reflexivity|].
      rewrite IH. rewrite processFrame_exec. cbn.
      apply (whenReady_outside s m w0). }
    rewrite G. reflexivity.
  - unfold exec, rerender, bind, frameEffectCleanup, frameEffect, bind,
      requestAnimationFrame, cancelAnimationFrame. cbn.
    destruct (requestRef w) as [h|]; [destruct (h =? 0)|]; reflexivity.
  - destruct (Mode_eqb m (mode w)); [reflexivity|].
    unfold exec, rerender, bind, frameEffectCleanup, frameEffect, bind,
      requestAnimationFrame, cancelAnimationFrame. cbn.
    destruct (requestRef w) as [h|]; [destruct (h =? 0)|]; reflexivity.
  - reflexivity.
Qed.

Lemma randoms_run events : forall w, randoms (run w events) = randoms w.
Proof.
  unfold run. induction events as [|e events IH]; intros w; cbn; [reflexivity|].
  rewrite IH. apply randoms_step.
Qed.

End HistogramFacts.

Section StateFacts.
Import Dom App Props Traces.
Context `{Host}.

#[local] Instance Closed_restoresState : Closed restoresState.
Proof.
  split; [reflexivity|].
  intros a b Ha Hb. unfold restoresState in *. rewrite fold_left_app, Ha. exact Hb.
Qed.

Lemma restoresState_plain op : plainOp op -> restoresState [op].
Proof. intros Hp. destruct op; cbn in Hp; try contradiction; reflexivity. Qed.

Lemma restoresState_glowOps s : restoresState (glowOps s).
Proof.
  unfold restoresState, glowOps. cbn.
  destruct (Qle_bool 0 (glow s / 150) && Qle_bool (glow s / 150) 1); reflexivity.
Qed.

Ltac draws :=
  repeat first
    [ apply Draws_ret; try exact _
    | apply Draws_ctx
    | apply Draws_random; try exact _
    | apply Draws_bind; [try exact _ | | intros ?]
    | apply Draws_for; [try exact _ | lia | intros ? ? ?] ].

Lemma draw_restores s m v c : Draws restoresState (draw s m v c).
Proof.
  unfold draw. destruct (context2d c); [|apply Draws_ret; exact _].
  apply Draws_bind; [exact _ | apply Draws_ctx; reflexivity | intros _].
  apply Draws_bind; [exact _ | apply Draws_ctx; reflexivity | intros _].
  apply Draws_bind; [exact _ | | intros _; apply histogramSampling_Draws; exact _].
  assert (B : Draws restoresState (baseGrade s (width c) (height c))).
  { unfold baseGrade. draws; apply restoresState_plain; exact I. }
  assert (G : Draws restoresState (glowStage s))
    by (apply glowStage_Draws; [exact _ | apply restoresState_glowOps]).
  destruct m.
  - apply Draws_bind; [exact _ | exact B | intros _].
    apply Draws_bind; [exact _ | exact G | intros _]. apply Draws_ret; exact _.
  - apply Draws_bind; [exact _ | exact B | intros _].
    apply Draws_bind; [exact _ | exact G | intros _].
    unfold scanOverlay. draws; apply restoresState_plain; exact I.
  - unfold wireframe. draws; try (apply restoresState_plain; exact I).
    destruct (_ =? 0); draws; apply restoresState_plain; exact I.
Qed.

Lemma processFrame_clean s m w : stateClean w -> stateClean (exec (processFrame s m) w).
Proof.
  intros Hw c1 Hc1.
  destruct (processFrame_facts s m w) as (_ & _ & _ & _ & _ & _ & _ & Hcv & _).
  rewrite Hcv in Hc1.
  assert (D : Draws restoresState (whenReady s m))
    by (apply whenReady_Draws; [exact _ | intros; apply draw_restores]).
  destruct (D w) as (_ & ops & E & K). unfold emitted in E. unfold exec in Hc1.
  destruct (canvasRef w) as [c|] eqn:Ec; rewrite E in Hc1; [|discriminate].
  injection Hc1 as <-. cbn [calls]. rewrite stateAfter_app, (Hw c Ec). exact K.
Qed.

Lemma step_clean w e : stateClean w -> stateClean (step w e).
Proof.
  intros Hw. destruct e as [p f | vw vh | rs fr | vw vh | | s | m |]; cbn [step].
  - unfold exec, initCamera, bind, attach.
    destruct p; [|destruct f]; cbn; try (destruct (videoRef w)); exact Hw.
  - unfold exec, loadedmetadata. destruct (videoRef w) as [v|] eqn:Ev; [|exact Hw].
    destruct (onloadedmetadata v) as [[|]|]; cbn; unfold bind, sizeCanvas, play; cbn;
      try exact Hw.
    destruct (canvasRef w) as [c|] eqn:Ec; cbn.
    + intros c' Hc'. cbn in Hc'. injection Hc' as <-. cbn [calls].
      rewrite stateAfter_app. reflexivity.
    + intros c' Hc'. cbn in Hc'. rewrite Ec in Hc'. discriminate.
  - unfold exec, videoProgress. destruct (videoRef w); exact Hw.
  - unfold exec, sourceResize. destruct (videoRef w); exact Hw.
  - unfold exec, animationFrame. cbn.
    assert (G : forall q w0, stateClean w0 ->
                stateClean (fold_left (fun w' (e : Z * Callback) =>
                                         exec (runCallback (snd e)) w') q w0)).
    { induction q as [|[h [s m]] q IH]; intros w0 H0; cbn; [exact H0|].
      apply IH. apply processFrame_clean, H0. }
    apply G. exact Hw.
  - unfold exec, rerender, bind, frameEffectCleanup, frameEffect, bind,
      requestAnimationFrame, cancelAnimationFrame. cbn.
    destruct (requestRef w) as [h|]; [destruct (h =? 0)|]; exact Hw.
  - destruct (Mode_eqb m (mode w)); [exact Hw|].
    unfold exec, rerender, bind, frameEffectCleanup, frameEffect, bind,
      requestAnimationFrame, cancelAnimationFrame. cbn.
    destruct (requestRef w) as [h|]; [destruct (h =? 0)|]; exact Hw.
  - exact Hw.
Qed.

Lemma run_clean events : forall w, stateClean w -> stateClean (run w events).
Proof.
  induction events as [|e events IH]; intros w Hw; cbn; [exact Hw|].
  apply IH, step_clean, Hw.
Qed.

Lemma mounted_clean rnd has2d frame : stateClean (mounted rnd has2d frame).
Proof. intros c Hc. cbn in Hc. injection Hc as <-. reflexivity. Qed.

Lemma glow_alpha_cases g :
  (0 < g)%Q ->
  ((g <= 150)%Q -> Qle_bool 0 (g / 150) && Qle_bool (g / 150) 1 = true) /\
  ((150 < g)%Q -> Qle_bool 0 (g / 150) && Qle_bool (g / 150) 1 = false).
Proof.
  intros Hg. assert (E : (g / 150 == g * (1 # 150))%Q) by reflexivity. split; intros Hc.
  - apply andb_true_iff. split; apply Qle_bool_iff; rewrite E; lra.
  - apply andb_false_iff. right. apply not_true_iff_false. rewrite Qle_bool_iff, E. lra.
Qed.

End StateFacts.

(** X1. Over the whole life of the component the histogram keeps its 24
    bars, and when [Math.random] stays in [0, 1) every bar is between 5
    and 100: the initial bars are 20 and a refresh replaces all of them
    by 5 + 95 r. *)
Theorem histogram_keeps_24_bars_in_range :
  forall (host : Host) rnd has2d frame events,
    let w := App.run (App.mounted rnd has2d frame) events in
    List.length (App.histogramData w) = 24%nat /\
    (Traces.unitInterval rnd ->
       Forall (fun v => (5 <= v <= 100)%Q) (App.histogramData w)).
Proof.
  intros host rnd has2d frame events w.
  assert (K : Traces.histogramOk w).
  { apply run_ok. split; [reflexivity|]. intros _. cbn.
    repeat (constructor; [split; discriminate|]). constructor. }
  destruct K as (Kl & Kf). split; [exact Kl|].
  intros U. apply Kf. unfold w. rewrite randoms_run. exact U.
Qed.

(** Random numbers that trigger the refresh on the first drawn frame. *)
Lemma histogram_keeps_24_bars_in_range_witness :
  let frame := fun _ _ : Z => Dom.mkPixel 9 9 9 255 in
  let w := App.run (H := RefHost.host) (App.mounted (fun _ => 0.9%Q) true frame)
             [ App.InitCameraDone (App.GumResolves ["video"%string]) (App.GumRejects "");
               App.LoadedMetadata 1280 720;
               App.VideoProgress 4 frame;
               App.AnimationFrame ] in
  Forall (fun v => (5 <= v <= 100)%Q) (App.histogramData w) /\
  App.histogramData w <> repeat 20%Q 24.
Proof.
  intros frame w. split.
  - apply (histogram_keeps_24_bars_in_range RefHost.host (fun _ => 0.9%Q) true frame).
    intros n. split; [discriminate | reflexivity].
  - intros E. vm_compute in E. discriminate E.
Defined.

(** X2. A drawn frame in scan mode appends, after the base grade and the
    glow pass, the grid and then exactly 30 squares of 3 x 3 made from
    the next 60 random numbers; with [Math.random] in [0, 1) and a canvas
    of positive size the corner of every square is a pixel of the
    canvas. *)
Theorem scan_frame_draws_thirty_squares_inside_the_canvas :
  forall (host : Host) (s : CameraSettings) (v : Dom.HTMLVideoElement)
         (c : Dom.HTMLCanvasElement) (w : App.World),
    App.videoRef w = Some v -> App.canvasRef w = Some c ->
    Dom.readyState v = 4 -> Dom.context2d c = true ->
    Traces.unitInterval (App.randoms w) -> 0 < Dom.width c -> 0 < Dom.height c ->
    let sq := Traces.squares (App.randoms w) (App.taken w) (Dom.width c) (Dom.height c) 30 in
    let before := (Props.baseOps s c ++ (if App.Qlt_bool 0 (glow s) then Props.glowOps s else []))
                    ++ Traces.gridOps (Dom.width c) (Dom.height c) in
    App.canvasRef (App.exec (App.processFrame s App.Scan) w)
    = Some (Dom.mkCanvas (Dom.width c) (Dom.height c) (Dom.context2d c)
              (Dom.calls c ++ before ++ sq)) /\
    List.length sq = 30%nat /\
    Forall (Traces.squareInside (Dom.width c) (Dom.height c)) sq /\
    Forall (fun op => match op with Dom.FillRect _ _ _ _ => False | _ => True end) before.
Proof.
  intros host s v c w Hv Hc Hr Hctx U HW HH sq before.
  split.
  - rewrite (processFrame_scan_exact s v c w Hv Hc Hr Hctx).
    unfold before, sq. rewrite <- !app_assoc. reflexivity.
  - destruct (squares_inside (App.randoms w) (App.taken w) _ _ 30 U HW HH) as (L & F).
    split; [exact L|]. split; [exact F|].
    unfold before, Traces.gridOps, Props.baseOps, Props.glowOps.
    repeat (apply Forall_app; split);
      try (destruct (App.Qlt_bool 0 (glow s)));
      try (repeat constructor; fail);
      (apply loopOps_Forall with (start := 0); [lia | | lia]);
      intros j _; repeat constructor.
Qed.

Lemma scan_frame_draws_thirty_squares_inside_the_canvas_witness :
  let frame := fun _ _ : Z => Dom.mkPixel 9 9 9 255 in
  let rnd := fun n : nat => if Nat.even n then 0.25%Q else 0.75%Q in
  Forall (Traces.squareInside 1280 720) (Traces.squares rnd 0 1280 720 30).
Proof.
  intros frame rnd.
  pose (w := App.run (H := RefHost.host) (App.mounted rnd true frame)
               [ App.InitCameraDone (App.GumResolves ["video"%string]) (App.GumRejects "");
                 App.LoadedMetadata 1280 720;
                 App.VideoProgress 4 frame ]).
  destruct (scan_frame_draws_thirty_squares_inside_the_canvas RefHost.host
              App.INITIAL_SETTINGS
              (Dom.mkVideo 4 1280 720 (Some [Dom.mkTrack "video" 0])
                           (Some Dom.SizeCanvasAndPlay) 1 frame)
              (Dom.mkCanvas 1280 720 true [Dom.ResetBySize; Dom.ResetBySize]) w)
    as (_ & _ & F & _); try reflexivity.
  - change (Traces.unitInterval rnd). intros n. unfold rnd.
    destruct (Nat.even n); split; (discriminate || reflexivity).
  - exact F.
Defined.



Section LiftFacts.
Import Dom App Props Traces.

Lemma wireframeOps_atSample frame W Ht :
  Forall (atSample (imageDataOf frame W Ht) W Ht) (wireframeOps frame W Ht).
Proof.
  pose (v := mkVideo 4 W Ht None None 0 frame).
  pose (w := set_canvasRef (Some (mkCanvas W Ht true []))
               (mounted (fun _ => 0%Q) true frame)).
  destruct (wireframe_atSample v W Ht w) as (_ & ops & E & F).
  rewrite wireframe_emit in E. unfold emitted, emit in E. cbn in E.
  injection E as E. subst ops. exact F.
Qed.

Lemma designOffset_bounds p :
  0 <= red p <= 255 -> 0 <= green p <= 255 -> 0 <= blue p <= 255 ->
  (-40 <= designOffset p <= 0)%Q.
Proof.
  intros [R0 R1] [G0 G1] [B0 B1]. unfold designOffset.
  rewrite Zle_Qle in R0, R1, G0, G1, B0, B1.
  set (r := inject_Z (red p)) in *. set (g := inject_Z (green p)) in *.
  set (b := inject_Z (blue p)) in *.
  assert (E : ((r + g + b) / 3 / 255 * -40 == (r + g + b) * (-40 # 765))%Q)
    by field.
  rewrite E. change (inject_Z 0) with 0%Q in *. change (inject_Z 255) with 255%Q in *.
  split; lra.
Qed.

Lemma designOffset_monotone p q :
  red p + green p + blue p <= red q + green q + blue q ->
  (designOffset q <= designOffset p)%Q.
Proof.
  intros Hs. unfold designOffset.
  assert (Hq : (inject_Z (red p) + inject_Z (green p) + inject_Z (blue p)
                <= inject_Z (red q) + inject_Z (green q) + inject_Z (blue q))%Q).
  { rewrite <- !inject_Z_plus, <- Zle_Qle. exact Hs. }
  set (a := (inject_Z (red p) + inject_Z (green p) + inject_Z (blue p))%Q) in *.
  set (b := (inject_Z (red q) + inject_Z (green q) + inject_Z (blue q))%Q) in *.
  assert (Ea : (a / 3 / 255 * -40 == a * (-40 # 765))%Q) by field.
  assert (Eb : (b / 3 / 255 * -40 == b * (-40 # 765))%Q) by field.
  rewrite Ea, Eb. lra.
Qed.

Lemma atSample_lifted frame W Ht op :
  bytes frame -> atSample (imageDataOf frame W Ht) W Ht op -> liftedWithin W Ht op.
Proof.
  intros B. destruct op; cbn; trivial; intros (row & S & ->);
    destruct (B x row) as (Hr & Hg & Hb);
    pose proof (designOffset_bounds (frame x row) Hr Hg Hb) as [D0 D1];
    destruct S as (Hx & Hy & Hm);
    exists row; rewrite sampleOffset_formula by assumption; cbn;
    eexists; (split; [repeat split; tauto || lia | split; [reflexivity | split; lra]]).
Qed.

End LiftFacts.





(** X6. On a frame whose channels are bytes every ordinate the wireframe
    passes to [moveTo] or [lineTo] is a number between the row sampled
    minus 40 and that row, so lines only move upwards and by at most 40
    pixels; and of two samples on the canvas the one whose channels sum
    higher is lifted at least as much. *)
Theorem wireframe_lifts_by_at_most_40_and_more_when_brighter :
  forall (host : Host) (s : CameraSettings) (v : Dom.HTMLVideoElement)
         (c : Dom.HTMLCanvasElement) (w : App.World),
    App.videoRef w = Some v -> App.canvasRef w = Some c ->
    Dom.readyState v = 4 -> Dom.context2d c = true ->
    Traces.bytes (Dom.currentFrame v) ->
    (exists ops,
       App.canvasRef (App.exec (App.processFrame s App.Relief) w)
       = Some (Dom.mkCanvas (Dom.width c) (Dom.height c) (Dom.context2d c)
                 (Dom.calls c ++ ops)) /\
       Forall (Traces.liftedWithin (Dom.width c) (Dom.height c)) ops) /\
    (forall x y x2 y2,
       0 <= x < Dom.width c -> 0 <= y < Dom.height c ->
       0 <= x2 < Dom.width c -> 0 <= y2 < Dom.height c ->
       let data := Dom.imageDataOf (Dom.currentFrame v) (Dom.width c) (Dom.height c) in
       let sum := fun p => Dom.red p + Dom.green p + Dom.blue p in
       sum (Dom.currentFrame v x y) <= sum (Dom.currentFrame v x2 y2) ->
       exists a b,
         App.sampleOffset data (Dom.width c) x y = Some a /\
         App.sampleOffset data (Dom.width c) x2 y2 = Some b /\ (b <= a)%Q).
Proof.
  intros host s v c w Hv Hc Hr Hctx B. split.
  2:{ intros x y x2 y2 Hx Hy Hx2 Hy2 data sum Hs.
      exists (Props.designOffset (Dom.currentFrame v x y)),
             (Props.designOffset (Dom.currentFrame v x2 y2)).
      split; [apply sampleOffset_formula; assumption|].
      split; [apply sampleOffset_formula; assumption|].
      apply designOffset_monotone. exact Hs. }
  eexists. split; [apply (processFrame_relief_exact s v c w Hv Hc Hr Hctx)|].
  constructor; [exact I|]. constructor; [exact I|].
  eapply Forall_impl; [|apply wireframeOps_atSample].
  intros op. apply atSample_lifted. exact B.
Qed.

Lemma wireframe_lifts_by_at_most_40_and_more_when_brighter_witness :
  let frame := fun x y : Z => Dom.mkPixel (x mod 256) (y mod 256) 128 255 in
  Forall (Traces.liftedWithin 64 48)
         ([Dom.SetFilter "none"; Dom.SetGlobalCompositeOperation Dom.SourceOver]
            ++ Props.wireframeOps frame 64 48).
Proof.
  intros frame.
  pose (v := Dom.mkVideo 4 64 48 (Some [Dom.mkTrack "video" 0])
                         (Some Dom.SizeCanvasAndPlay) 1 frame).
  pose (c := Dom.mkCanvas 64 48 true [Dom.ResetBySize; Dom.ResetBySize]).
  pose (w := App.run (H := RefHost.host) (App.mounted (fun _ => 0%Q) true frame)
               [ App.InitCameraDone (App.GumResolves ["video"%string]) (App.GumRejects "");
                 App.LoadedMetadata 64 48;
                 App.VideoProgress 4 frame ]).
  destruct (wireframe_lifts_by_at_most_40_and_more_when_brighter RefHost.host
              App.INITIAL_SETTINGS v c w) as ((ops & E & F) & _); try reflexivity.
  - intros x y. cbn.
    pose proof (Z.mod_pos_bound x 256 ltac:(lia)).
    pose proof (Z.mod_pos_bound y 256 ltac:(lia)). lia.
  - rewrite (processFrame_relief_exact (H := RefHost.host) App.INITIAL_SETTINGS v c w) in E
      by reflexivity.
    injection E as E. subst ops. exact F.
Defined.

Section SizeFacts.
Import Dom App Props Traces.
Context `{Host}.

Lemma processFrame_shape s m w :
  let w' := exec (processFrame s m) w in
  videoRef w' = videoRef w /\
  match canvasRef w with
  | Some c => exists ops,
      canvasRef w' = Some (mkCanvas (width c) (height c) (context2d c) (calls c ++ ops))
  | None => canvasRef w' = None
  end.
Proof.
  cbv zeta.
  destruct (processFrame_facts s m w) as (_ & _ & _ & Hv & _ & _ & _ & Hc & _).
  split; [exact Hv|]. rewrite Hc.
  assert (D : Draws (fun _ => True) (whenReady s m)).
  { apply whenReady_Draws; [exact _|]. intros. apply draw_Draws; trivial; exact _. }
  destruct (D w) as (_ & ops & E & _). unfold emitted in E. unfold exec.
  destruct (canvasRef w) as [c|]; [exists ops|]; exact E.
Qed.

Lemma processFrame_sized vw vh s m w :
  sizedAs vw vh w -> sizedAs vw vh (exec (processFrame s m) w).
Proof.
  intros (v & c & Hv & Hc & Hvw & Hvh & Hcw & Hch).
  destruct (processFrame_shape s m w) as (Ev & Ec). rewrite Hc in Ec.
  destruct Ec as (ops & Ec).
  exists v. eexists. split; [rewrite Ev; exact Hv|]. split; [exact Ec|].
  cbn. repeat split; assumption.
Qed.

Lemma rerender_refs s m w :
  videoRef (exec (rerender s m) w) = videoRef w /\
  canvasRef (exec (rerender s m) w) = canvasRef w.
Proof.
  unfold exec, rerender, bind, frameEffectCleanup, frameEffect, bind,
    requestAnimationFrame, cancelAnimationFrame. cbn.
  destruct (requestRef w) as [h|]; [destruct (h =? 0)|]; split; reflexivity.
Qed.

Lemma step_sized vw vh w e :
  quiet e = true -> sizedAs vw vh w -> sizedAs vw vh (step w e).
Proof.
  intros Hq Hw. destruct e as [p f | a b | rs fr | a b | | s | m |];
    try discriminate; cbn [step].
  - destruct Hw as (v & c & Hv & Hc & Hd).
    unfold exec, videoProgress. rewrite Hv. cbn.
    eexists. exists c. split; [reflexivity|]. split; [exact Hc | exact Hd].
  - unfold exec, animationFrame. cbn.
    assert (G : forall q w0, sizedAs vw vh w0 ->
                sizedAs vw vh (fold_left (fun w' (e : Z * Callback) =>
                                            exec (runCallback (snd e)) w') q w0)).
    { induction q as [|[h [s m]] q IH]; intros w0 H0; cbn; [exact H0|].
      apply IH. apply processFrame_sized, H0. }
    apply G. destruct Hw as (v & c & Hd). exists v, c. exact Hd.
  - destruct Hw as (v & c & Hv & Hc & Hd). destruct (rerender_refs s (mode w) w) as (Ev & Ec).
    exists v, c. rewrite Ev, Ec. split; [exact Hv|]. split; [exact Hc | exact Hd].
  - destruct (Mode_eqb m (mode w)); [exact Hw|].
    destruct Hw as (v & c & Hv & Hc & Hd).
    destruct (rerender_refs (settings w) m w) as (Ev & Ec).
    exists v, c. rewrite Ev, Ec. split; [exact Hv|]. split; [exact Hc | exact Hd].
  - destruct Hw as (v & c & Hd). exists v, c. exact Hd.
Qed.

Lemma run_sized vw vh events :
  forall w, forallb quiet events = true -> sizedAs vw vh w -> sizedAs vw vh (run w events).
Proof.
  unfold run. induction events as [|e events IH]; intros w Hq Hw; cbn; [exact Hw|].
  cbn in Hq. apply andb_true_iff in Hq. destruct Hq as [Hq1 Hq2].
  apply IH; [exact Hq2 | apply step_sized; assumption].
Qed.

End SizeFacts.

(** X7. [processFrame] never resizes, clears or replaces the canvas and
    never touches the video element: all it does to the canvas is append
    operations to its context, and when [getContext] yields no context it
    appends none and leaves the histogram and the random source alone. *)
Theorem processFrame_only_appends_to_the_context :
  forall (host : Host) (s : CameraSettings) (m : App.Mode) (w : App.World),
    let w' := App.exec (App.processFrame s m) w in
    App.videoRef w' = App.videoRef w /\
    (App.canvasRef w = None -> App.canvasRef w' = None) /\
    (forall c, App.canvasRef w = Some c ->
       exists ops,
         App.canvasRef w'
         = Some (Dom.mkCanvas (Dom.width c) (Dom.height c) (Dom.context2d c)
                   (Dom.calls c ++ ops)) /\
         (Dom.context2d c = false ->
            ops = [] /\ App.histogramData w' = App.histogramData w /\
            App.taken w' = App.taken w)).
Proof.
  intros host s m w w'.
  destruct (processFrame_shape s m w) as (Ev & Ec). fold w' in Ev, Ec.
  split; [exact Ev|]. split.
  - intros Hn. rewrite Hn in Ec. exact Ec.
  - intros c Hc. rewrite Hc in Ec. destruct Ec as (ops & Ec).
    exists ops. split; [exact Ec|]. intros Hctx.
    assert (Hw : App.whenReady s m w = (tt, w)).
    { unfold App.whenReady. rewrite Hc. destruct (App.videoRef w) as [v|]; [|reflexivity].
      destruct (Dom.readyState v =? 4); [|reflexivity].
      unfold App.draw. rewrite Hctx. reflexivity. }
    destruct (processFrame_facts s m w) as (_ & _ & _ & _ & _ & _ & _ & Fc & Fh & Ft).
    fold w' in Fc, Fh, Ft. unfold App.exec in Fc, Fh, Ft. rewrite Hw in Fc, Fh, Ft.
    cbn in Fc, Fh, Ft. repeat split; try assumption.
    rewrite Fc, Hc in Ec. apply (f_equal (fun o => match o with
                                                   | Some c' => Dom.calls c'
                                                   | None => []
                                                   end)) in Ec.
    cbn in Ec. rewrite <- (app_nil_r (Dom.calls c)) in Ec at 1.
    apply app_inv_head in Ec. symmetry. exact Ec.
Qed.

Lemma processFrame_only_appends_to_the_context_witness :
  let frame := fun _ _ : Z => Dom.mkPixel 9 9 9 255 in
  let w := App.run (H := RefHost.host) (App.mounted (fun _ => 0.9%Q) false frame)
             [ App.InitCameraDone (App.GumResolves ["video"%string]) (App.GumRejects "");
               App.LoadedMetadata 64 48;
               App.VideoProgress 4 frame ] in
  let w' := App.exec (App.processFrame (H := RefHost.host) App.INITIAL_SETTINGS App.Scan) w in
  App.canvasRef w' = App.canvasRef w /\ App.taken w' = 0%nat.
Proof.
  intros frame w w'.
  destruct (processFrame_only_appends_to_the_context RefHost.host App.INITIAL_SETTINGS
              App.Scan w) as (_ & _ & Hc).
  destruct (Hc (Dom.mkCanvas 64 48 false [Dom.ResetBySize; Dom.ResetBySize]) eq_refl)
    as (ops & E & Hno).
  destruct (Hno eq_refl) as (-> & _ & Ht).
  split; [exact E | exact Ht].
Defined.

(** X8. [initCamera] shows an error only when both requests are refused,
    and then the message of the second refusal, or the fixed text when
    that message is empty; the first refusal's message is never shown.
    When a request succeeds the error is cleared and the stream is
    attached with the sizing handler on the first path and the
    play-only handler on the fallback path; with the video ref unset the
    stream is attached to nothing.  The canvas and the frame loop are
    not touched. *)
Theorem initCamera_reports_only_a_double_refusal :
  forall (p f : App.GetUserMedia) (w : App.World),
    let w' := App.exec (App.initCamera p f) w in
    (forall m1 m2, p = App.GumRejects m1 -> f = App.GumRejects m2 ->
       App.cameraError w'
       = Some (if String.eqb m2 "" then "Could not access rear camera."%string else m2) /\
       App.videoRef w' = App.videoRef w) /\
    (forall l, p = App.GumResolves l ->
       App.cameraError w' = None /\
       match App.videoRef w with
       | Some v => exists v', App.videoRef w' = Some v' /\
                              Dom.srcObject v' = Some (App.newStream l) /\
                              Dom.onloadedmetadata v' = Some Dom.SizeCanvasAndPlay
       | None => App.videoRef w' = None
       end) /\
    (forall m1 l, p = App.GumRejects m1 -> f = App.GumResolves l ->
       App.cameraError w' = None /\
       match App.videoRef w with
       | Some v => exists v', App.videoRef w' = Some v' /\
                              Dom.srcObject v' = Some (App.newStream l) /\
                              Dom.onloadedmetadata v' = Some Dom.PlayOnly
       | None => App.videoRef w' = None
       end) /\
    App.canvasRef w' = App.canvasRef w /\
    App.frameRequests w' = App.frameRequests w /\
    App.requestRef w' = App.requestRef w.
Proof.
  intros p f w w'. unfold w', App.exec, App.initCamera, App.bind, App.attach.
  split; [|split; [|split]].
  - intros m1 m2 -> ->. cbn. split; reflexivity.
  - intros l ->. cbn. destruct (App.videoRef w) as [v|] eqn:Ev; cbn.
    + split; [reflexivity|]. eexists. repeat split.
    + split; [reflexivity | exact Ev].
  - intros m1 l -> ->. cbn. destruct (App.videoRef w) as [v|] eqn:Ev; cbn.
    + split; [reflexivity|]. eexists. repeat split.
    + split; [reflexivity | exact Ev].
  - destruct p; [|destruct f]; cbn; destruct (App.videoRef w); repeat split.
Qed.

Lemma initCamera_reports_only_a_double_refusal_witness :
  let w := App.mounted (fun _ => 0%Q) true (fun _ _ => Dom.mkPixel 0 0 0 255) in
  App.cameraError
    (App.exec (App.initCamera (App.GumRejects "Permission denied") (App.GumRejects "")) w)
  = Some "Could not access rear camera."%string /\
  App.cameraError
    (App.exec (App.initCamera (App.GumRejects "Permission denied")
                              (App.GumResolves ["video"%string])) w)
  = None.
Proof.
  intros w.
  destruct (initCamera_reports_only_a_double_refusal
              (App.GumRejects "Permission denied") (App.GumRejects "") w) as (H1 & _).
  destruct (initCamera_reports_only_a_double_refusal
              (App.GumRejects "Permission denied") (App.GumResolves ["video"%string]) w)
    as (_ & _ & H3 & _).
  split.
  - exact (proj1 (H1 _ _ eq_refl eq_refl)).
  - exact (proj1 (H3 _ _ eq_refl eq_refl)).
Defined.

(** X9. When the metadata load under the handler of the first request,
    the canvas takes the size the video reports, and both keep it through
    any run of frames, decoder progress and changes of settings or mode:
    only another metadata load resizes the canvas. *)
Theorem canvas_keeps_the_size_taken_at_metadata_load :
  forall (host : Host) (w : App.World) (v : Dom.HTMLVideoElement)
         (c : Dom.HTMLCanvasElement) (vw vh : Z) (events : list App.Event),
    App.videoRef w = Some v -> App.canvasRef w = Some c ->
    Dom.onloadedmetadata v = Some Dom.SizeCanvasAndPlay ->
    forallb Traces.quiet events = true ->
    exists v' c',
      App.videoRef (App.run (App.exec (App.loadedmetadata vw vh) w) events) = Some v' /\
      App.canvasRef (App.run (App.exec (App.loadedmetadata vw vh) w) events) = Some c' /\
      Dom.videoWidth v' = vw /\ Dom.videoHeight v' = vh /\
      Dom.width c' = vw /\ Dom.height c' = vh.
Proof.
  intros host w v c vw vh events Hv Hc Hh Hq.
  apply (run_sized vw vh events _ Hq).
  unfold App.exec, App.loadedmetadata. rewrite Hv, Hh. cbn.
  unfold App.bind, App.sizeCanvas, App.play. cbn. rewrite Hc. cbn.
  eexists. eexists. repeat split.
Qed.

Lemma canvas_keeps_the_size_taken_at_metadata_load_witness :
  let frame := fun _ _ : Z => Dom.mkPixel 9 9 9 255 in
  let w := App.run (H := RefHost.host) (App.mounted (fun _ => 0%Q) true frame)
             [ App.InitCameraDone (App.GumResolves ["video"%string]) (App.GumRejects "") ] in
  exists c', App.canvasRef
               (App.run (H := RefHost.host) (App.exec (App.loadedmetadata 640 480) w)
                  [ App.VideoProgress 4 frame; App.AnimationFrame; App.SetMode App.Relief;
                    App.AnimationFrame ]) = Some c' /\
             Dom.width c' = 640 /\ Dom.height c' = 480.
Proof.
  intros frame w.
  destruct (canvas_keeps_the_size_taken_at_metadata_load RefHost.host w
              (Dom.mkVideo 0 0 0 (Some [Dom.mkTrack "video" 0])
                           (Some Dom.SizeCanvasAndPlay) 0 frame)
              (Dom.mkCanvas 1920 1080 true []) 640 480
              [ App.VideoProgress 4 frame; App.AnimationFrame; App.SetMode App.Relief;
                App.AnimationFrame ])
    as (v' & c' & _ & Hc & _ & _ & Hw & Hh); try reflexivity.
  exists c'. repeat split; assumption.
Defined.

(* ===================================================================== *)
(** * The frame effect and the control surface                            *)
(* ===================================================================== *)

Section ScheduleFacts.
Import Dom App Props Schedule.
Context `{Host}.

Lemma mounted_current rnd has2d frame : current (mounted rnd has2d frame).
Proof. exists 1. cbn. repeat split; lia. Qed.

Lemma rerender_current s m w : current w -> current (exec (rerender s m) w).
Proof.
  intros (h & Hq & Hr & Hh).
  unfold rerender, exec, bind, frameEffectCleanup, frameEffect, bind,
    requestAnimationFrame, cancelAnimationFrame. cbn.
  rewrite Hr. replace (h =? 0) with false by (symmetry; apply Z.eqb_neq; lia).
  cbn. rewrite Hq. cbn. rewrite Z.eqb_refl. cbn.
  exists (nextHandle w). cbn. repeat split; lia.
Qed.

Lemma animationFrame_current w : current w -> current (exec animationFrame w).
Proof.
  intros (h & Hq & Hr & Hh).
  rewrite (animationFrame_single w h _ Hq). cbn [runCallback].
  set (w0 := set_frameRequests [] w).
  destruct (processFrame_facts (settings w) (mode w) w0)
    as (Fq & Fr & Fn & _ & _ & Fs & Fm & _).
  exists (nextHandle w). rewrite Fq, Fr, Fn, Fs, Fm. cbn. repeat split; lia.
Qed.

Lemma step_current w e : current w -> current (step w e).
Proof.
  intros C. destruct e as [p f | vw vh | rs fr | vw vh | | s | m |]; cbn [step].
  - destruct C as (h & Hq & Hr & Hh). exists h.
    unfold initCamera, exec, bind, attach.
    destruct p as [labels | msg]; [|destruct f as [labels | msg']]; cbn;
      try (destruct (videoRef w) as [v|]; cbn); repeat split; assumption || lia.
  - destruct C as (h & Hq & Hr & Hh). exists h.
    unfold loadedmetadata, exec.
    destruct (videoRef w) as [v|]; [|cbn; repeat split; assumption || lia].
    destruct (onloadedmetadata v) as [[|]|]; cbn; unfold bind, sizeCanvas, play; cbn;
      try (destruct (canvasRef w) as [c|]; cbn); repeat split; assumption || lia.
  - destruct C as (h & Hq & Hr & Hh). exists h.
    unfold videoProgress, exec.
    destruct (videoRef w) as [v|]; cbn; repeat split; assumption || lia.
  - destruct C as (h & Hq & Hr & Hh). exists h.
    unfold sourceResize, exec.
    destruct (videoRef w) as [v|]; cbn; repeat split; assumption || lia.
  - apply animationFrame_current, C.
  - apply rerender_current, C.
  - destruct (Mode_eqb m (mode w)) eqn:E; [exact C | apply rerender_current, C].
  - destruct C as (h & Hq & Hr & Hh). exists h. cbn. repeat split; assumption || lia.
Qed.

Lemma run_current events : forall w, current w -> current (run w events).
Proof.
  unfold run. induction events as [|e events IH]; intros w C; cbn; [exact C|].
  apply IH, step_current, C.
Qed.

End ScheduleFacts.



Section SplitFacts.
Import Surface.

Lemma split_commaFree s : commaFree s = true -> split ","%char s = [s].
Proof.
  induction s as [|c s IH]; [reflexivity|]. cbn [commaFree split].
  intros Hc. apply andb_true_iff in Hc. destruct Hc as [Hc Hs].
  apply negb_true_iff in Hc. rewrite Hc, (IH Hs). reflexivity.
Qed.

Lemma split_at_comma a b :
  commaFree a = true ->
  split ","%char (a ++ String ","%char b) = a :: split ","%char b.
Proof.
  induction a as [|c a IH]; intros Hc.
  - reflexivity.
  - cbn [commaFree] in Hc. apply andb_true_iff in Hc. destruct Hc as [Hc Ha].
    apply negb_true_iff in Hc. cbn [append split]. rewrite Hc, (IH Ha). reflexivity.
Qed.

Lemma split_nonempty s : split ","%char s <> [].
Proof.
  induction s as [|c s IH]; cbn [split]; [discriminate|].
  destruct (Ascii.eqb c ","%char); [discriminate|].
  destruct (split ","%char s); discriminate.
Qed.

Lemma afterComma_payload a b c :
  commaFree a = true -> commaFree b = true ->
  afterComma (a ++ String ","%char b) = Some b /\
  afterComma (a ++ String ","%char (b ++ String ","%char c)) = Some b.
Proof.
  intros Ha Hb. unfold afterComma. split.
  - rewrite (split_at_comma a b Ha), (split_commaFree b Hb). reflexivity.
  - rewrite (split_at_comma a _ Ha), (split_at_comma b c Hb). reflexivity.
Qed.

Lemma afterComma_none s : commaFree s = true -> afterComma s = None.
Proof. intros Hs. unfold afterComma. rewrite (split_commaFree s Hs). reflexivity. Qed.

End SplitFacts.

Section SurfaceFacts.
Import Dom App GeminiService Surface.
Context `{Host}.
Variable hasVibrate : bool.

Lemma triggerHaptics_keeps pattern u :
  world (triggerHaptics hasVibrate pattern u) = world u /\
  isRecording (triggerHaptics hasVibrate pattern u) = isRecording u /\
  isBusy (triggerHaptics hasVibrate pattern u) = isBusy u /\
  analysis (triggerHaptics hasVibrate pattern u) = analysis u /\
  scanResult (triggerHaptics hasVibrate pattern u) = scanResult u /\
  capturedPhotos (triggerHaptics hasVibrate pattern u) = capturedPhotos u /\
  framesInFlight (triggerHaptics hasVibrate pattern u) = framesInFlight u /\
  scansInFlight (triggerHaptics hasVibrate pattern u) = scansInFlight u.
Proof. unfold triggerHaptics. destruct hasVibrate; repeat split. Qed.

Lemma firstn_le {A} n (xs : list A) : (List.length (firstn n xs) <= n)%nat.
Proof. rewrite length_firstn. lia. Qed.

Lemma act_strip u a :
  (List.length (capturedPhotos u) <= 5)%nat ->
  (List.length (capturedPhotos (act hasVibrate u a)) <= 5)%nat.
Proof.
  intros Hu.
  destruct a as [e | m | kv | photo | | url | url | k o | k o]; cbn [act].
  - exact Hu.
  - unfold pressMode.
    destruct (triggerHaptics_keeps [10] (set_world (step (world u) (SetMode m)) u))
      as (_ & _ & _ & _ & _ & -> & _). exact Hu.
  - destruct (cameraPanel u); [|exact Hu]. unfold updateSetting. cbn.
    destruct (triggerHaptics_keeps [5] u) as (_ & _ & _ & _ & _ & -> & _). exact Hu.
  - destruct (cameraPanel u); [|exact Hu]. unfold takePhoto.
    destruct (canvasRef (world u)); [|exact Hu]. cbn [capturedPhotos set_framesInFlight
      set_isBusy set_capturedPhotos]. apply firstn_le.
  - destruct (cameraPanel u); [|exact Hu]. unfold pressRecord.
    destruct (triggerHaptics_keeps [25] (set_isRecording (negb (isRecording u)) u))
      as (_ & _ & _ & _ & _ & -> & _). exact Hu.
  - destruct (cameraPanel u || isBusy u); [exact Hu|]. unfold start3DScanAnalysis.
    destruct (canvasRef (world u)); [|exact Hu]. cbn.
    destruct (triggerHaptics_keeps [30; 60; 30] (set_isBusy true u))
      as (_ & _ & _ & _ & _ & -> & _). exact Hu.
  - destruct (negb (cameraPanel u) && truthy (scanResult u)); [|exact Hu].
    unfold start3DScanAnalysis.
    destruct (canvasRef (world u)); [|exact Hu]. cbn.
    destruct (triggerHaptics_keeps [30; 60; 30] (set_isBusy true u))
      as (_ & _ & _ & _ & _ & -> & _). exact Hu.
  - destruct (nth_error (framesInFlight u) k); [|exact Hu].
    unfold takePhoto_resume. destruct (frameResult o o0); exact Hu.
  - destruct (nth_error (scansInFlight u) k); [|exact Hu].
    unfold start3DScanAnalysis_resume. destruct (topologyResult o o0); exact Hu.
Qed.

Lemma session_strip actions :
  forall u, (List.length (capturedPhotos u) <= 5)%nat ->
            (List.length (capturedPhotos (session hasVibrate u actions)) <= 5)%nat.
Proof.
  unfold session. induction actions as [|a actions IH]; intros u Hu; cbn; [exact Hu|].
  apply IH, act_strip, Hu.
Qed.

Lemma frameResult_resolves o arg :
  exists r, frameResult o arg = Resolved r /\
            (Fails o -> r = sceneDefault) /\
            (forall t, JSON_parse "{}" = Normal (JObject []) ->
                       t = Some "{}"%string \/ t = Some ""%string \/ t = None ->
                       o = CallFulfils (ResponseObject t) -> r = JObject []).
Proof.
  unfold frameResult. rewrite analyzeFrame_settles.
  destruct (requestAndParse (fun _ => o) (frameRequest (imageArgument arg))) as [v|e] eqn:E.
  - exists v. split; [reflexivity|]. split.
    + intros F.
      destruct (requestAndParse_fails (fun _ => o) (frameRequest (imageArgument arg)) F)
        as (e & He). congruence.
    + intros t Hp Ht Ho.
      pose proof (requestAndParse_empty (fun _ => o) (frameRequest (imageArgument arg))
                    t Hp Ht Ho) as E'. congruence.
  - exists sceneDefault. split; [reflexivity|]. split; [reflexivity|].
    intros t Hp Ht Ho.
    pose proof (requestAndParse_empty (fun _ => o) (frameRequest (imageArgument arg))
                  t Hp Ht Ho) as E'. congruence.
Qed.

Lemma topologyResult_resolves o arg :
  exists r, topologyResult o arg = Resolved r /\
            (Fails o -> r = topologyDefault) /\
            (forall t, JSON_parse "{}" = Normal (JObject []) ->
                       t = Some "{}"%string \/ t = Some ""%string \/ t = None ->
                       o = CallFulfils (ResponseObject t) -> r = JObject []).
Proof.
  unfold topologyResult. rewrite analyzeTopology_settles.
  destruct (requestAndParse (fun _ => o) (topologyRequest (imageArgument arg)))
    as [v|e] eqn:E.
  - exists v. split; [reflexivity|]. split.
    + intros F.
      destruct (requestAndParse_fails (fun _ => o) (topologyRequest (imageArgument arg)) F)
        as (e & He). congruence.
    + intros t Hp Ht Ho.
      pose proof (requestAndParse_empty (fun _ => o) (topologyRequest (imageArgument arg))
                    t Hp Ht Ho) as E'. congruence.
  - exists topologyDefault. split; [reflexivity|]. split; [reflexivity|].
    intros t Hp Ht Ho.
    pose proof (requestAndParse_empty (fun _ => o) (topologyRequest (imageArgument arg))
                  t Hp Ht Ho) as E'. congruence.
Qed.

Lemma analysis_ignores_its_argument o a b :
  frameResult o a = frameResult o b /\ topologyResult o a = topologyResult o b.
Proof.
  unfold frameResult, topologyResult. rewrite !analyzeFrame_settles, !analyzeTopology_settles.
  unfold requestAndParse. split; reflexivity.
Qed.

Lemma length_without {A} k (xs : list A) (x : A) :
  nth_error xs k = Some x -> S (List.length (without k xs)) = List.length xs.
Proof.
  revert k. induction xs as [|y xs IH]; intros [|k] Hk; cbn in *; try discriminate.
  - reflexivity.
  - f_equal. apply IH. exact Hk.
Qed.

Lemma chartFrom_fst i data :
  map fst (chartFrom i data) = map (fun k => i + Z.of_nat k) (seq 0 (List.length data)).
Proof.
  revert i. induction data as [|v data IH]; intros i; cbn [chartFrom map List.length seq].
  - reflexivity.
  - rewrite IH. f_equal; [cbn; lia|]. rewrite <- seq_shift, map_map.
    apply map_ext. intros k. lia.
Qed.

Lemma chartFrom_snd i data : map snd (chartFrom i data) = data.
Proof.
  revert i. induction data as [|v data IH]; intros i; cbn; [reflexivity|].
  rewrite IH. reflexivity.
Qed.

End SurfaceFacts.

(** X11. The strip of captured photos never holds more than five.  A
    capture puts the new photo first and keeps the four newest of the
    photos shown before; the fifth is dropped. *)
Theorem photo_strip_holds_the_five_newest :
  forall (host : Host) (hasVibrate : bool) (w : App.World)
         (actions : list Surface.Action),
    let u := Surface.session hasVibrate (Surface.opened w) actions in
    (List.length (Surface.capturedPhotos u) <= 5)%nat /\
    forall (photo : string) (c : Dom.HTMLCanvasElement),
      Surface.cameraPanel u = true ->
      App.canvasRef (Surface.world u) = Some c ->
      Surface.capturedPhotos (Surface.act hasVibrate u (Surface.PressCapture photo))
      = photo :: firstn 4 (Surface.capturedPhotos u).
Proof.
  intros host hasVibrate w actions u. split.
  - apply session_strip. cbn. lia.
  - intros photo c Hp Hc. cbn [Surface.act]. rewrite Hp.
    unfold Surface.takePhoto. rewrite Hc.
    cbn [Surface.capturedPhotos Surface.set_framesInFlight Surface.set_isBusy
         Surface.set_capturedPhotos].
    destruct (triggerHaptics_keeps hasVibrate [40; 10; 20] u)
      as (_ & _ & _ & _ & _ & -> & _).
    reflexivity.
Qed.

Lemma photo_strip_holds_the_five_newest_witness :
  let w := App.mounted (fun _ => 0%Q) true (fun _ _ => Dom.mkPixel 0 0 0 255) in
  let shots := map Surface.PressCapture
                 ["data:a,1"; "data:a,2"; "data:a,3"; "data:a,4"; "data:a,5"]%string in
  Surface.capturedPhotos
    (Surface.act (H := RefHost.host) true
       (Surface.session (H := RefHost.host) true (Surface.opened w) shots)
       (Surface.PressCapture "data:a,6"))
  = ["data:a,6"; "data:a,5"; "data:a,4"; "data:a,3"; "data:a,2"]%string.
Proof.
  intros w shots.
  exact (proj2 (photo_strip_holds_the_five_newest RefHost.host true w shots)
           "data:a,6"%string (Dom.mkCanvas 1920 1080 true []) eq_refl eq_refl).
Defined.

(** X12. Whenever an analysis settles, the busy flag goes off, whatever
    else is still in flight: the service functions always resolve, and
    the handlers clear the flag without counting.  So after two captures
    the first settlement already turns the busy indicator off while
    the second request is still out. *)
Theorem busy_flag_goes_off_at_the_first_settlement :
  forall (host : Host) (hasVibrate : bool) (u : Surface.Ui),
    (forall k o arg,
       nth_error (Surface.framesInFlight u) k = Some arg ->
       let u' := Surface.act hasVibrate u (Surface.FrameSettles k o) in
       Surface.isBusy u' = false /\
       Surface.frameResult o arg = Resolved (Surface.analysis u') /\
       S (List.length (Surface.framesInFlight u')) = List.length (Surface.framesInFlight u)) /\
    (forall k o arg,
       nth_error (Surface.scansInFlight u) k = Some arg ->
       let u' := Surface.act hasVibrate u (Surface.TopologySettles k o) in
       Surface.isBusy u' = false /\
       Surface.topologyResult o arg = Resolved (Surface.scanResult u') /\
       S (List.length (Surface.scansInFlight u')) = List.length (Surface.scansInFlight u)) /\
    (forall c p1 p2 o,
       App.canvasRef (Surface.world u) = Some c ->
       Surface.cameraPanel u = true ->
       Surface.framesInFlight u = [] ->
       let u' := Surface.session hasVibrate u
                   [ Surface.PressCapture p1; Surface.PressCapture p2;
                     Surface.FrameSettles 0 o ] in
       Surface.isBusy u' = false /\
       Surface.framesInFlight u' = [Surface.afterComma p2]).
Proof.
  intros host hasVibrate u. split; [|split].
  - intros k o arg Hk. cbn [Surface.act]. rewrite Hk.
    destruct (frameResult_resolves o arg) as (r & -> & _). cbn.
    repeat split. exact (length_without k _ arg Hk).
  - intros k o arg Hk. cbn [Surface.act]. rewrite Hk.
    destruct (topologyResult_resolves o arg) as (r & -> & _). cbn.
    repeat split. exact (length_without k _ arg Hk).
  - intros c p1 p2 o Hc Hp Hf. unfold Surface.session. cbn [fold_left].
    assert (E : forall p v, App.canvasRef (Surface.world v) = Some c ->
                  Surface.cameraPanel v = true ->
                  Surface.world (Surface.act hasVibrate v (Surface.PressCapture p))
                  = Surface.world v /\
                  Surface.framesInFlight (Surface.act hasVibrate v (Surface.PressCapture p))
                  = Surface.framesInFlight v ++ [Surface.afterComma p]).
    { intros p v Hvc Hvp. cbn [Surface.act]. rewrite Hvp. unfold Surface.takePhoto.
      rewrite Hvc. cbn.
      destruct (triggerHaptics_keeps hasVibrate [40; 10; 20] v)
        as (-> & _ & _ & _ & _ & _ & -> & _). split; reflexivity. }
    destruct (E p1 u Hc Hp) as (W1 & F1).
    set (u1 := Surface.act hasVibrate u (Surface.PressCapture p1)) in *.
    assert (Hc1 : App.canvasRef (Surface.world u1) = Some c) by (rewrite W1; exact Hc).
    assert (Hp1 : Surface.cameraPanel u1 = true)
      by (unfold Surface.cameraPanel in *; rewrite W1; exact Hp).
    destruct (E p2 u1 Hc1 Hp1) as (W2 & F2).
    set (u2 := Surface.act hasVibrate u1 (Surface.PressCapture p2)) in *.
    rewrite F1, Hf in F2. cbn [app] in F2.
    cbn [Surface.act]. rewrite F2. cbn [nth_error Surface.without].
    destruct (frameResult_resolves o (Surface.afterComma p1)) as (r & -> & _).
    cbn. split; reflexivity.
Qed.

Lemma busy_flag_goes_off_at_the_first_settlement_witness :
  let w := App.mounted (fun _ => 0%Q) true (fun _ _ => Dom.mkPixel 0 0 0 255) in
  let u := Surface.session (H := RefHost.host) true (Surface.opened w)
             [ Surface.PressCapture "data:image/jpeg;base64,AAAA";
               Surface.PressCapture "data:image/jpeg;base64,BBBB";
               Surface.FrameSettles 0 (GeminiService.CallRejects (OtherError "offline")) ] in
  Surface.isBusy u = false /\ Surface.framesInFlight u = [Some "BBBB"%string].
Proof.
  intros w u.
  exact (proj2 (proj2 (busy_flag_goes_off_at_the_first_settlement RefHost.host true
                         (Surface.opened w)))
           (Dom.mkCanvas 1920 1080 true [])
           "data:image/jpeg;base64,AAAA"%string "data:image/jpeg;base64,BBBB"%string
           (GeminiService.CallRejects (OtherError "offline")) eq_refl eq_refl eq_refl).
Defined.



(** X14. When the service answers a topology request with an empty
    body, no text or the text of an empty object, the scan stores an
    empty object as its result and the scan panel throws a TypeError
    when it is rendered; when the call fails, the stored default renders
    as zero polygons, a bar of width zero and no defect. *)
Theorem empty_topology_answer_makes_the_scan_panel_throw :
  forall (host : Host) (hasVibrate : bool) (Number_toLocaleString : Q -> string)
         (Structured_toLocaleString Structured_toString : JSON -> Completion string)
         (Structured_toNumber : JSON -> Completion Dom.JSNum)
         (String_toNumber : string -> Dom.JSNum)
         (u : Surface.Ui) (k : nat) (arg : option string) (o : GeminiService.CallOutcome),
    nth_error (Surface.scansInFlight u) k = Some arg ->
    let u' := Surface.act hasVibrate u (Surface.TopologySettles k o) in
    let panel := Surface.scanPanel Number_toLocaleString Structured_toLocaleString
                   Structured_toString Structured_toNumber String_toNumber
                   (Surface.scanResult u') in
    (forall t, JSON_parse "{}" = Normal (JObject []) ->
               t = Some "{}"%string \/ t = Some ""%string \/ t = None ->
               o = GeminiService.CallFulfils (GeminiService.ResponseObject t) ->
               Surface.scanResult u' = JObject [] /\ panel = Throw TypeError) /\
    (GeminiService.Fails o ->
       panel = Normal (Surface.Result
                 (Surface.mkReadout (Number_toLocaleString 0%Q ++ " POLY")
                                    (Number_toString 0%Q ++ "%") None))).
Proof.
  intros host hasVibrate NL SL SS SN StN u k arg o Hk u' panel.
  unfold panel, u'. cbn [Surface.act]. rewrite Hk.
  destruct (topologyResult_resolves o arg) as (r & -> & Hfail & Hempty). cbn.
  split.
  - intros t Hp Ht Ho. rewrite (Hempty t Hp Ht Ho). split; reflexivity.
  - intros F. rewrite (Hfail F). reflexivity.
Qed.

Lemma empty_topology_answer_makes_the_scan_panel_throw_witness :
  let w := App.mounted (fun _ => 0%Q) true (fun _ _ => Dom.mkPixel 0 0 0 255) in
  let u := Surface.mkUi w false true JNull JNull [] [[30; 60; 30]] [] [Some "AAAA"%string] in
  Surface.scanPanel (H := RefHost.host) RefHost.showQ (fun _ => Throw TypeError)
    (fun _ => Throw TypeError) (fun _ => Throw TypeError) (fun _ => None)
    (Surface.scanResult
       (Surface.act (H := RefHost.host) true u
          (Surface.TopologySettles 0
             (GeminiService.CallFulfils (GeminiService.ResponseObject (Some ""%string))))))
  = Throw TypeError.
Proof.
  intros w u.
  destruct (empty_topology_answer_makes_the_scan_panel_throw RefHost.host true RefHost.showQ
              (fun _ => Throw TypeError) (fun _ => Throw TypeError)
              (fun _ => Throw TypeError) (fun _ => None)
              u 0%nat (Some "AAAA"%string)
              (GeminiService.CallFulfils (GeminiService.ResponseObject (Some ""%string)))
              eq_refl) as (He & _).
  exact (proj2 (He (Some ""%string) eq_refl (or_intror (or_introl eq_refl)) eq_refl)).
Defined.

(** X15. The scene tip reads the fixed invitation before any capture
    and again after a capture that the service answered with an empty
    body; after a capture whose call failed it reads the default's
    suggestion. *)
Theorem scene_tip_after_a_capture :
  forall (host : Host) (hasVibrate : bool) (u : Surface.Ui) (k : nat)
         (arg : option string) (o : GeminiService.CallOutcome) (w : App.World),
    nth_error (Surface.framesInFlight u) k = Some arg ->
    let u' := Surface.act hasVibrate u (Surface.FrameSettles k o) in
    Surface.sceneTip (Surface.analysis (Surface.opened w))
    = JString "Point camera at subject for AI grading tips." /\
    (GeminiService.Fails o ->
       Surface.sceneTip (Surface.analysis u') = JString "Awaiting input") /\
    (forall t, JSON_parse "{}" = Normal (JObject []) ->
               t = Some "{}"%string \/ t = Some ""%string \/ t = None ->
               o = GeminiService.CallFulfils (GeminiService.ResponseObject t) ->
               Surface.sceneTip (Surface.analysis u')
               = JString "Point camera at subject for AI grading tips.").
Proof.
  intros host hasVibrate u k arg o w Hk u'. split; [reflexivity|].
  unfold u'. cbn [Surface.act]. rewrite Hk.
  destruct (frameResult_resolves o arg) as (r & -> & Hfail & Hempty). cbn.
  split.
  - intros F. rewrite (Hfail F). reflexivity.
  - intros t Hp Ht Ho. rewrite (Hempty t Hp Ht Ho). reflexivity.
Qed.

Lemma scene_tip_after_a_capture_witness :
  let w := App.mounted (fun _ => 0%Q) true (fun _ _ => Dom.mkPixel 0 0 0 255) in
  let u := Surface.mkUi w false true JNull JNull ["data:image/jpeg;base64,AAAA"%string]
             [[40; 10; 20]] [Some "AAAA"%string] [] in
  Surface.sceneTip
    (Surface.analysis
       (Surface.act (H := RefHost.host) true u
          (Surface.FrameSettles 0 (GeminiService.CallThrows TypeError))))
  = JString "Awaiting input".
Proof.
  intros w u.
  destruct (scene_tip_after_a_capture RefHost.host true u 0%nat (Some "AAAA"%string)
              (GeminiService.CallThrows TypeError) w eq_refl) as (_ & Hf & _).
  exact (Hf (GeminiService.fails_throw TypeError)).
Defined.

(** X16. What a capture or a scan hands to the service is the part of
    the data URL between its first comma and the next one, so the base64
    payload of a well-formed data URL, while the strip keeps the whole
    URL; for a string without a comma the service is handed
    [undefined]. *)
Theorem analysis_is_handed_the_payload_of_the_data_url :
  forall (host : Host) (hasVibrate : bool) (u : Surface.Ui)
         (c : Dom.HTMLCanvasElement) (mediaType payload : string),
    App.canvasRef (Surface.world u) = Some c ->
    Surface.commaFree mediaType = true ->
    Surface.commaFree payload = true ->
    let url := (mediaType ++ String ","%char payload)%string in
    (Surface.cameraPanel u = true ->
       let u' := Surface.act hasVibrate u (Surface.PressCapture url) in
       Surface.framesInFlight u' = Surface.framesInFlight u ++ [Some payload] /\
       hd_error (Surface.capturedPhotos u') = Some url /\
       Surface.framesInFlight (Surface.act hasVibrate u (Surface.PressCapture mediaType))
       = Surface.framesInFlight u ++ [None]) /\
    (Surface.cameraPanel u = false -> Surface.isBusy u = false ->
       Surface.scansInFlight (Surface.act hasVibrate u (Surface.PressGenerate url))
       = Surface.scansInFlight u ++ [Some payload]).
Proof.
  intros host hasVibrate u c mediaType payload Hc Hm Hp url.
  destruct (afterComma_payload mediaType payload EmptyString Hm Hp) as (E & _).
  fold url in E.
  split.
  - intros Hcam. cbn [Surface.act]. rewrite Hcam. unfold Surface.takePhoto.
    rewrite Hc.
    cbn [Surface.capturedPhotos Surface.framesInFlight Surface.set_framesInFlight
         Surface.set_isBusy Surface.set_capturedPhotos].
    destruct (triggerHaptics_keeps hasVibrate [40; 10; 20] u)
      as (_ & _ & _ & _ & _ & _ & -> & _).
    rewrite E, (afterComma_none mediaType Hm).
    repeat split.
  - intros Hcam Hb. cbn [Surface.act]. rewrite Hcam, Hb. cbn [orb].
    unfold Surface.start3DScanAnalysis. rewrite Hc.
    cbn [Surface.scansInFlight Surface.set_scansInFlight].
    destruct (triggerHaptics_keeps hasVibrate [30; 60; 30] (Surface.set_isBusy true u))
      as (_ & _ & _ & _ & _ & _ & _ & ->).
    rewrite E. reflexivity.
Qed.

Lemma analysis_is_handed_the_payload_of_the_data_url_witness :
  let w := App.mounted (fun _ => 0%Q) true (fun _ _ => Dom.mkPixel 0 0 0 255) in
  Surface.framesInFlight
    (Surface.act (H := RefHost.host) true (Surface.opened w)
       (Surface.PressCapture "data:image/jpeg;base64,/9j/4AAQ"))
  = [Some "/9j/4AAQ"%string].
Proof.
  intros w.
  exact (proj1 (proj1
           (analysis_is_handed_the_payload_of_the_data_url RefHost.host true
              (Surface.opened w) (Dom.mkCanvas 1920 1080 true [])
              "data:image/jpeg;base64"%string "/9j/4AAQ"%string eq_refl eq_refl eq_refl)
           eq_refl)).
Defined.

(** X17. The histogram chart always gets 24 points, numbered 0 to 23 in
    order, and with random numbers in [0, 1) every ordinate is between 5
    and 100. *)
Theorem chart_has_24_points_numbered_in_order :
  forall (host : Host) (rnd : nat -> Q) (has2d : bool) (frame : Dom.Raster)
         (events : list App.Event),
    let chart := Surface.chartData
                   (App.histogramData (App.run (App.mounted rnd has2d frame) events)) in
    map fst chart = map Z.of_nat (seq 0 24) /\
    (Traces.unitInterval rnd -> Forall (fun p => (5 <= snd p <= 100)%Q) chart).
Proof.
  intros host rnd has2d frame events chart.
  assert (Ok : Traces.histogramOk (App.run (App.mounted rnd has2d frame) events)).
  { apply run_ok. split; [reflexivity|]. intros _. cbn.
    repeat constructor; discriminate. }
  destruct Ok as (Hl & Hr). unfold chart, Surface.chartData. split.
  - rewrite chartFrom_fst, Hl. reflexivity.
  - intros Hu. rewrite randoms_run in Hr. specialize (Hr Hu).
    rewrite <- (chartFrom_snd 0 (App.histogramData _)) in Hr.
    rewrite Forall_map in Hr. exact Hr.
Qed.

Lemma chart_has_24_points_numbered_in_order_witness :
  Forall (fun p => (5 <= snd p <= 100)%Q)
    (Surface.chartData
       (App.histogramData
          (App.run (H := RefHost.host)
             (App.mounted (fun _ => 0.95%Q) true (fun _ _ => Dom.mkPixel 0 0 0 255))
             [App.AnimationFrame]))).
Proof.
  apply (proj2 (chart_has_24_points_numbered_in_order RefHost.host (fun _ => 0.95%Q) true
                  (fun _ _ => Dom.mkPixel 0 0 0 255) [App.AnimationFrame])).
  intros n. split; [discriminate | reflexivity].
Defined.


(* ===================================================================== *)
(** * The frame loop with exceptions                                      *)
(* ===================================================================== *)

Section Agreement.
Import Dom App Props Strict.
Context `{Host}.

(** What is assumed of [P]: it looks at the canvas only, and not at the
    log of its context. *)
Variable P : World -> Prop.
Hypothesis P_emit : forall ops w, P w -> P (emit ops w).
Hypothesis P_outside : forall w w', canvasRef w' = canvasRef w -> P w -> P w'.

Lemma agrees_ret {A} (a : A) : agrees P (Strict.ret a) (App.ret a).
Proof. intros w Hs. split; [reflexivity | exact Hs]. Qed.

Lemma agrees_bind {A B} (e : E A) (m : M A) (k : A -> E B) (k' : A -> M B) :
  agrees P e m -> (forall a, agrees P (k a) (k' a)) ->
  agrees P (Strict.bind e k) (App.bind m k').
Proof.
  intros He Hk w Hs. unfold Strict.bind, App.bind.
  destruct (He w Hs) as [E S]. rewrite E.
  destruct (m w) as [a w1]. cbn [fst snd] in *. apply Hk, S.
Qed.

Lemma agrees_lift {A} (m : M A) :
  (forall w, canvasRef (snd (m w)) = canvasRef w) -> agrees P (lift m) m.
Proof.
  intros Hm w Hs. unfold lift. split; [|apply (P_outside w), Hs; apply Hm].
  destruct (m w); reflexivity.
Qed.

Lemma agrees_ctx op :
  (forall w c, P w -> canvasRef w = Some c -> refuses c op = None) ->
  agrees P (Strict.ctx op) (App.ctx op).
Proof.
  intros Hop w Hs. unfold Strict.ctx.
  destruct (canvasRef w) as [c|] eqn:Ec.
  - rewrite (Hop w c Hs Ec). unfold lift.
    rewrite ctx_emit. split; [reflexivity|]. apply P_emit, Hs.
  - unfold App.ctx. rewrite Ec. split; [reflexivity | exact Hs].
Qed.

Lemma agrees_forFrom bound step (body : Z -> E unit) (body' : Z -> M unit) :
  (forall i, agrees P (body i) (body' i)) ->
  forall fuel i, agrees P (Strict.forFrom fuel i bound step body)
                          (App.forFrom fuel i bound step body').
Proof.
  intros Hb. induction fuel as [|fuel IH]; intros i; cbn [Strict.forFrom App.forFrom].
  - apply agrees_ret.
  - destruct (i <? bound); [|apply agrees_ret].
    apply agrees_bind; [apply Hb | intros _; apply IH].
Qed.

Lemma agrees_for start bound step (body : Z -> E unit) (body' : Z -> M unit) :
  (forall i, agrees P (body i) (body' i)) ->
  agrees P (Strict.for_ start bound step body) (App.for_ start bound step body').
Proof. intros Hb. apply agrees_forFrom, Hb. Qed.

Lemma agrees_random : agrees P (lift Math_random) Math_random.
Proof. apply agrees_lift. reflexivity. Qed.

Lemma histogramSampling_canvas w : canvasRef (snd (histogramSampling w)) = canvasRef w.
Proof.
  destruct (histogramSampling_silent w) as (_ & ops & E & ->).
  unfold emitted in E. destruct (canvasRef w) as [c|]; [|exact E].
  rewrite E, app_nil_r. destruct c; reflexivity.
Qed.

Lemma agrees_histogramSampling : agrees P (lift histogramSampling) histogramSampling.
Proof. apply agrees_lift, histogramSampling_canvas. Qed.

Ltac plain := apply agrees_ctx; intros; reflexivity.

Lemma agrees_baseGrade s W Ht : agrees P (Strict.baseGrade s W Ht) (App.baseGrade s W Ht).
Proof. unfold Strict.baseGrade, App.baseGrade. apply agrees_bind; [plain | intros _; plain]. Qed.

Lemma agrees_scanOverlay W Ht : agrees P (Strict.scanOverlay W Ht) (App.scanOverlay W Ht).
Proof.
  unfold Strict.scanOverlay, App.scanOverlay.
  do 3 (apply agrees_bind; [plain | intros _]).
  apply agrees_bind; [|intros _].
  { apply agrees_for. intros i. apply agrees_bind; [plain | intros _; plain]. }
  apply agrees_bind; [|intros _].
  { apply agrees_for. intros i. apply agrees_bind; [plain | intros _; plain]. }
  do 2 (apply agrees_bind; [plain | intros _]).
  apply agrees_for. intros i.
  apply agrees_bind; [apply agrees_random | intros r1].
  apply agrees_bind; [apply agrees_random | intros r2]. plain.
Qed.

(** The two calls that can throw do not where [P] holds. *)
Hypothesis P_sized : forall w c, P w -> canvasRef w = Some c -> width c <> 0 /\ height c <> 0.

Lemma agrees_wireframe v W Ht :
  W <> 0 -> Ht <> 0 -> agrees P (Strict.wireframe v W Ht) (App.wireframe v W Ht).
Proof.
  intros HW HH. unfold Strict.wireframe, App.wireframe.
  apply agrees_bind; [plain | intros _].
  apply agrees_bind; [|intros _].
  { apply agrees_ctx. intros w c _ _. cbn.
    replace (W =? 0) with false by (symmetry; apply Z.eqb_neq; exact HW).
    replace (Ht =? 0) with false by (symmetry; apply Z.eqb_neq; exact HH).
    reflexivity. }
  repeat (apply agrees_bind; [plain | intros _]).
  apply agrees_for. intros y.
  apply agrees_bind; [plain | intros _].
  apply agrees_bind; [|intros _; plain].
  apply agrees_for. intros x. destruct (x =? 0); plain.
Qed.

Lemma agrees_glowStage s : agrees P (Strict.glowStage s) (App.glowStage s).
Proof.
  unfold Strict.glowStage, App.glowStage.
  destruct (Qlt_bool 0 (glow s)); [|apply agrees_ret].
  do 3 (apply agrees_bind; [plain | intros _]).
  apply agrees_bind; [|intros _].
  { apply agrees_ctx. intros w c Hw Hc. destruct (P_sized w c Hw Hc) as [HW HH]. cbn.
    replace (width c =? 0) with false by (symmetry; apply Z.eqb_neq; exact HW).
    replace (height c =? 0) with false by (symmetry; apply Z.eqb_neq; exact HH).
    reflexivity. }
  apply agrees_bind; [plain | intros _]. plain.
Qed.

Lemma agrees_draw s m v c :
  width c <> 0 -> height c <> 0 -> agrees P (Strict.draw s m v c) (App.draw s m v c).
Proof.
  intros HW HH. unfold Strict.draw, App.draw.
  destruct (context2d c); [|apply agrees_ret].
  do 2 (apply agrees_bind; [plain | intros _]).
  apply agrees_bind; [|intros _; apply agrees_histogramSampling].
  destruct m.
  - apply agrees_bind; [apply agrees_baseGrade | intros _].
    apply agrees_bind; [apply agrees_glowStage | intros _; apply agrees_ret].
  - apply agrees_bind; [apply agrees_baseGrade | intros _].
    apply agrees_bind; [apply agrees_glowStage | intros _; apply agrees_scanOverlay].
  - apply agrees_wireframe; assumption.
Qed.

End Agreement.

Section StrictFacts.
Import Dom App Props Strict.
Context `{Host}.

Lemma sized_emit ops w : sized w -> sized (emit ops w).
Proof.
  unfold sized, emit. intros Hs c Hc.
  destruct (canvasRef w) as [c0|] eqn:E0.
  - cbn in Hc. injection Hc as <-. cbn. apply Hs. reflexivity.
  - rewrite E0 in Hc. discriminate.
Qed.

Lemma sized_outside w w' : canvasRef w' = canvasRef w -> sized w -> sized w'.
Proof. unfold sized. intros E Hs c Hc. rewrite E in Hc. apply Hs, Hc. Qed.

Lemma sized_sized w c : sized w -> canvasRef w = Some c -> width c <> 0 /\ height c <> 0.
Proof. intros Hs Hc. apply Hs, Hc. Qed.

Lemma requestFrame_canvas cb w :
  canvasRef (snd (App.bind (requestAnimationFrame cb)
                           (fun h w0 => (tt, set_requestRef (Some h) w0)) w))
  = canvasRef w.
Proof. reflexivity. Qed.

(** Without glow and outside relief mode the frame makes no call that
    can throw. *)
Lemma agrees_draw_plain s m v c :
  m <> Relief -> Qlt_bool 0 (glow s) = false ->
  agrees (fun _ => True) (Strict.draw s m v c) (App.draw s m v c).
Proof.
  intros Hm Hg.
  assert (E : forall (ops : list CtxOp) (w : World), True -> True) by (intros; exact I).
  assert (O : forall w w' : World, canvasRef w' = canvasRef w -> True -> True)
    by (intros; exact I).
  assert (G : agrees (fun _ => True) (Strict.glowStage s) (App.glowStage s)).
  { unfold Strict.glowStage, App.glowStage. rewrite Hg. apply agrees_ret. }
  unfold Strict.draw, App.draw.
  destruct (context2d c); [|apply agrees_ret].
  do 2 (apply agrees_bind; [apply agrees_ctx; [exact E | intros; reflexivity] | intros _]).
  apply agrees_bind; [|intros _; apply agrees_histogramSampling; exact O].
  destruct m; [| |contradiction Hm; reflexivity].
  - apply agrees_bind; [apply agrees_baseGrade; exact E | intros _].
    apply agrees_bind; [exact G | intros _; apply agrees_ret].
  - apply agrees_bind; [apply agrees_baseGrade; exact E | intros _].
    apply agrees_bind; [exact G | intros _; apply agrees_scanOverlay; assumption].
Qed.

Lemma agrees_whenReady s m : agrees sized (Strict.whenReady s m) (App.whenReady s m).
Proof.
  intros w Hs. unfold Strict.whenReady, App.whenReady.
  destruct (videoRef w) as [v|]; [|split; [reflexivity | exact Hs]].
  destruct (canvasRef w) as [c|] eqn:Ec; [|split; [reflexivity | exact Hs]].
  destruct (readyState v =? 4); [|split; [reflexivity | exact Hs]].
  destruct (Hs c Ec) as [HW HH].
  apply (agrees_draw sized sized_emit sized_outside sized_sized); assumption.
Qed.

Lemma agrees_processFrame s m : agrees sized (Strict.processFrame s m) (App.processFrame s m).
Proof.
  unfold Strict.processFrame, App.processFrame.
  apply agrees_bind; [apply agrees_whenReady | intros _].
  apply agrees_lift; [exact sized_outside | apply requestFrame_canvas].
Qed.

Lemma strict_after_whenReady s m w :
  Strict.whenReady s m w = (Normal tt, exec (App.whenReady s m) w) ->
  Strict.processFrame s m w = (Normal tt, exec (App.processFrame s m) w).
Proof.
  intros E. unfold Strict.processFrame, Strict.bind, App.processFrame, exec, App.bind in *.
  rewrite E. unfold lift, App.bind.
  destruct (App.whenReady s m w) as [[] w1]. cbn [snd].
  destruct (requestAnimationFrame (ProcessFrame s m) w1). reflexivity.
Qed.

(** Where no call throws, the invocation returns and does what
    [App.processFrame] does. *)
Lemma strict_processFrame s m w :
  throwing s m w = false ->
  Strict.processFrame s m w = (Normal tt, exec (App.processFrame s m) w).
Proof.
  intros Ht. apply strict_after_whenReady.
  unfold throwing, zeroCanvas in Ht. unfold Strict.whenReady, App.whenReady, exec.
  destruct (videoRef w) as [v|]; [|reflexivity].
  destruct (canvasRef w) as [c|] eqn:Ec; [|reflexivity].
  destruct (readyState v =? 4); [|reflexivity].
  cbn [andb] in Ht.
  destruct (context2d c) eqn:Hx;
    [|unfold Strict.draw, App.draw; rewrite Hx; reflexivity].
  cbn [andb] in Ht.
  destruct ((width c =? 0) || (height c =? 0)) eqn:Hz.
  - cbn [andb] in Ht.
    assert (Hm : m <> Relief) by (intros ->; discriminate).
    assert (Hg : Qlt_bool 0 (glow s) = false) by (destruct m; [exact Ht | exact Ht | discriminate]).
    destruct (agrees_draw_plain s m v c Hm Hg w I) as [E _]. rewrite E.
    destruct (App.draw s m v c w) as [[] w1]. reflexivity.
  - apply orb_false_iff in Hz. destruct Hz as [Hw Hh]. apply Z.eqb_neq in Hw, Hh.
    assert (Hs : sized w).
    { intros c0 Hc0. rewrite Ec in Hc0. injection Hc0 as <-. split; assumption. }
    destruct (agrees_draw sized sized_emit sized_outside sized_sized s m v c Hw Hh w Hs) as [E _].
    rewrite E. destruct (App.draw s m v c w) as [[] w1]. reflexivity.
Qed.


Lemma throwing_sized s m w : sized w -> throwing s m w = false.
Proof.
  unfold throwing, zeroCanvas. intros Hs.
  destruct (videoRef w); [|reflexivity].
  destruct (canvasRef w) as [c|] eqn:Ec; [|reflexivity].
  destruct (Hs c Ec) as [Hw Hh].
  apply Z.eqb_neq in Hw, Hh. rewrite Hw, Hh.
  destruct (readyState h =? 4), (context2d c); reflexivity.
Qed.

Lemma sized_processFrame s m w : sized w -> sized (exec (App.processFrame s m) w).
Proof. intros Hs. apply (agrees_processFrame s m w Hs). Qed.

Lemma strict_callbacks q : forall w,
  sized w ->
  fold_left (fun w' (e : Z * Callback) => snd (Strict.runCallback (snd e) w')) q w
  = fold_left (fun w' (e : Z * Callback) => exec (App.runCallback (snd e)) w') q w /\
  sized (fold_left (fun w' (e : Z * Callback) => exec (App.runCallback (snd e)) w') q w).
Proof.
  induction q as [|[h [s m]] q IH]; intros w Hs; cbn [fold_left]; [split; [reflexivity | exact Hs]|].
  cbn [Strict.runCallback App.runCallback snd].
  destruct (agrees_processFrame s m w Hs) as [E S]. rewrite E. cbn [snd].
  apply IH. exact S.
Qed.

Lemma sized_step w e : sizedMetadata e = true -> sized w -> sized (App.step w e).
Proof.
  intros He Hs. destruct e as [p f | vw vh | rs fr | vw vh | | s | m |]; cbn [App.step].
  - unfold initCamera, exec, App.bind, attach.
    destruct p as [labels | msg]; [|destruct f as [labels | msg']]; cbn;
      try (destruct (videoRef w); cbn); exact Hs.
  - cbn in He. apply andb_true_iff in He. destruct He as [Hw Hh].
    apply Z.ltb_lt in Hw, Hh.
    unfold loadedmetadata, exec. destruct (videoRef w) as [v|]; [|exact Hs].
    destruct (onloadedmetadata v) as [[|]|]; cbn; unfold App.bind, sizeCanvas, play; cbn.
    + destruct (canvasRef w) as [c|] eqn:Ec; cbn.
      * intros c' Hc'. cbn in Hc'. injection Hc' as <-. cbn. split; lia.
      * intros c' Hc'. cbn in Hc'. rewrite Ec in Hc'. discriminate.
    + exact Hs.
    + exact Hs.
  - unfold videoProgress, exec. destruct (videoRef w); exact Hs.
  - unfold sourceResize, exec. destruct (videoRef w); exact Hs.
  - unfold exec, App.animationFrame. cbn [snd].
    apply (strict_callbacks (frameRequests w) (set_frameRequests [] w)). exact Hs.
  - unfold rerender, exec, App.bind, frameEffectCleanup, frameEffect, App.bind,
      requestAnimationFrame, cancelAnimationFrame. cbn.
    destruct (requestRef w) as [h|]; [destruct (h =? 0)|]; exact Hs.
  - destruct (Mode_eqb m (mode w)); [exact Hs|].
    unfold rerender, exec, App.bind, frameEffectCleanup, frameEffect, App.bind,
      requestAnimationFrame, cancelAnimationFrame. cbn.
    destruct (requestRef w) as [h|]; [destruct (h =? 0)|]; exact Hs.
  - exact Hs.
Qed.

Lemma strict_step w e : sized w -> Strict.step w e = App.step w e.
Proof.
  intros Hs. destruct e; try reflexivity.
  cbn [Strict.step App.step]. unfold Strict.animationFrame, exec, App.animationFrame.
  cbn [snd]. apply (strict_callbacks (frameRequests w) (set_frameRequests [] w)). exact Hs.
Qed.

Lemma strict_run events : forall w,
  forallb sizedMetadata events = true -> sized w ->
  Strict.run w events = App.run w events /\ sized (App.run w events).
Proof.
  unfold Strict.run, App.run.
  induction events as [|e events IH]; intros w He Hs; cbn [fold_left].
  - split; [reflexivity | exact Hs].
  - cbn [forallb] in He. apply andb_true_iff in He. destruct He as [He1 He2].
    rewrite (strict_step w e Hs). apply IH; [exact He2|]. apply sized_step; assumption.
Qed.

Lemma sized_mounted rnd has2d frame : sized (mounted rnd has2d frame).
Proof. intros c Hc. cbn in Hc. injection Hc as <-. cbn. split; discriminate. Qed.

(** ** Where the invocation throws *)




End StrictFacts.




(** X4. While the metadata report a positive size, the 2D context
    composites source-over at full opacity between any two events: every
    frame resets the operation before drawing and the glow pass puts
    both back after its self-draw, so nothing a frame sets leaks into the
    next one. *)
Theorem frames_on_a_sized_canvas_leave_the_compositing_state_clean :
  forall (host : Host) rnd has2d frame events c,
    forallb Strict.sizedMetadata events = true ->
    App.canvasRef (Strict.run (App.mounted rnd has2d frame) events) = Some c ->
    Dom.stateAfter (Dom.calls c) = Dom.mkCtxState Dom.SourceOver 1.
Proof.
  intros host rnd has2d frame events c He Hc.
  destruct (strict_run events _ He (sized_mounted rnd has2d frame)) as [E _].
  rewrite E in Hc.
  exact (run_clean events _ (mounted_clean rnd has2d frame) c Hc).
Qed.

Lemma frames_on_a_sized_canvas_leave_the_compositing_state_clean_witness :
  let frame := fun _ _ : Z => Dom.mkPixel 9 9 9 255 in
  let w := Strict.run (H := RefHost.host) (App.mounted (fun _ => 0%Q) true frame)
             [ App.InitCameraDone (App.GumResolves ["video"%string]) (App.GumRejects "");
               App.LoadedMetadata 64 48;
               App.VideoProgress 4 frame;
               App.SetMode App.Scan;
               App.AnimationFrame ] in
  exists c, App.canvasRef w = Some c /\
            In (Dom.SetGlobalCompositeOperation Dom.Screen) (Dom.calls c) /\
            Dom.stateAfter (Dom.calls c) = Dom.mkCtxState Dom.SourceOver 1.
Proof.
  intros frame w.
  assert (E : exists c, App.canvasRef w = Some c /\
                        In (Dom.SetGlobalCompositeOperation Dom.Screen) (Dom.calls c)).
  { eexists. split; [vm_compute; reflexivity|]. cbn. do 7 right. left. reflexivity. }
  destruct E as (c & Hc & Hin). exists c. split; [exact Hc|]. split; [exact Hin|].
  exact (frames_on_a_sized_canvas_leave_the_compositing_state_clean RefHost.host
           (fun _ => 0%Q) true frame
           [ App.InitCameraDone (App.GumResolves ["video"%string]) (App.GumRejects "");
             App.LoadedMetadata 64 48;
             App.VideoProgress 4 frame;
             App.SetMode App.Scan;
             App.AnimationFrame ] c eq_refl Hc).
Defined.

(** X10. While the metadata report a positive size, exactly one frame
    callback is pending at every moment of the component's life, and it
    is the [processFrame] of the settings and mode of the latest render:
    a change of a setting or of the mode replaces the pending callback,
    and no frame is ever drawn with settings older than the last
    change. *)
Theorem pending_frame_on_a_sized_canvas_carries_the_latest_settings :
  forall (host : Host) (rnd : nat -> Q) (has2d : bool) (frame : Dom.Raster)
         (events : list App.Event),
    forallb Strict.sizedMetadata events = true ->
    let w := Strict.run (App.mounted rnd has2d frame) events in
    exists h,
      App.frameRequests w = [(h, App.ProcessFrame (App.settings w) (App.mode w))] /\
      App.requestRef w = Some h.
Proof.
  intros host rnd has2d frame events He w.
  destruct (strict_run events _ He (sized_mounted rnd has2d frame)) as [E _].
  unfold w. rewrite E.
  destruct (run_current events _ (mounted_current rnd has2d frame)) as (h & Hq & Hr & _).
  exists h. split; assumption.
Qed.

(** A change of the glow strength and of the mode, with frames in
    between. *)
Lemma pending_frame_on_a_sized_canvas_carries_the_latest_settings_witness :
  let frame := fun _ _ : Z => Dom.mkPixel 9 9 9 255 in
  let w := Strict.run (H := RefHost.host) (App.mounted (fun _ => 0%Q) true frame)
             [ App.InitCameraDone (App.GumResolves ["video"%string]) (App.GumRejects "");
               App.LoadedMetadata 64 48;
               App.VideoProgress 4 frame;
               App.AnimationFrame;
               App.SetMode App.Scan;
               App.AnimationFrame ] in
  exists h, App.frameRequests w = [(h, App.ProcessFrame App.INITIAL_SETTINGS App.Scan)].
Proof.
  intros frame w.
  destruct (pending_frame_on_a_sized_canvas_carries_the_latest_settings RefHost.host
              (fun _ => 0%Q) true frame
              [ App.InitCameraDone (App.GumResolves ["video"%string]) (App.GumRejects "");
                App.LoadedMetadata 64 48;
                App.VideoProgress 4 frame;
                App.AnimationFrame;
                App.SetMode App.Scan;
                App.AnimationFrame ] eq_refl) as (h & Hq & _).
  exists h. fold frame in Hq. fold w in Hq. rewrite Hq.
  assert (Es : App.settings w = App.INITIAL_SETTINGS) by (vm_compute; reflexivity).
  assert (Em : App.mode w = App.Scan) by (vm_compute; reflexivity).
  rewrite Es, Em. reflexivity.
Defined.

Section GlowPassFacts.
Import Dom App Props Strict.
Context `{Host}.

(** A frame with glow on a canvas without a zero dimension, outside
    relief mode: it returns, and its log has the base grade, the three
    writes of the glow pass and the self-draw. *)
Lemma glow_frame_log s m w v c :
  sized w -> m <> Relief ->
  videoRef w = Some v -> canvasRef w = Some c -> readyState v = 4 -> context2d c = true ->
  (0 < glow s)%Q ->
  exists post,
    fst (Strict.processFrame s m w) = Normal tt /\
    canvasRef (snd (Strict.processFrame s m w))
    = Some (mkCanvas (width c) (height c) (context2d c)
              (calls c ++ baseOps s c ++ firstn 3 (glowOps s) ++ DrawCanvas 0 0 :: post)).
Proof.
  intros Hs Hm Hv Hc Hr Hx Hg.
  rewrite (strict_processFrame s m w (throwing_sized s m w Hs)). cbn [fst snd].
  destruct (processFrame_standard s m v c w Hv Hc Hr Hx Hm) as (rest & E & _).
  rewrite (proj2 (Qlt_bool_true 0 (glow s)) Hg) in E.
  exists (skipn 4 (glowOps s) ++ rest). split; [reflexivity|].
  rewrite E. cbn [glowOps firstn skipn baseOps app]. reflexivity.
Qed.







End GlowPassFacts.

(** X5. On a canvas without a zero dimension a frame with glow, outside
    relief mode, draws the canvas onto itself, and the opacity the
    context has at that call is glow / 150 capped at 1: for a strength of
    at most 150 the self-draw runs at exactly glow / 150 (at most 2/3 on
    the slider's range of 0 to 100), and above 150 the context ignores
    the assignment and the pass runs at full opacity. *)
Theorem glow_pass_draws_at_strength_over_150_capped_at_one :
  forall (host : Host) (s : CameraSettings) (m : App.Mode) rnd has2d frame events v c,
    let w := Strict.run (App.mounted rnd has2d frame) events in
    forallb Strict.sizedMetadata events = true ->
    m <> App.Relief ->
    App.videoRef w = Some v -> App.canvasRef w = Some c ->
    Dom.readyState v = 4 -> Dom.context2d c = true ->
    (0 < glow s)%Q ->
    exists pre post,
      fst (Strict.processFrame s m w) = Normal tt /\
      App.canvasRef (snd (Strict.processFrame s m w))
      = Some (Dom.mkCanvas (Dom.width c) (Dom.height c) (Dom.context2d c)
                (Dom.calls c ++ pre ++ Dom.DrawCanvas 0 0 :: post)) /\
      existsb Strict.selfDraw pre = false /\
      let st := Dom.stateAfter (Dom.calls c ++ pre) in
      Dom.globalCompositeOperation st = Dom.Screen /\
      ((glow s <= 150)%Q -> Dom.globalAlpha st = (glow s / 150)%Q) /\
      ((glow s <= 100)%Q -> (Dom.globalAlpha st <= 2 # 3)%Q) /\
      ((150 < glow s)%Q -> Dom.globalAlpha st = 1%Q).
Proof.
  intros host s m rnd has2d frame events v c w He Hm Hv Hc Hr Hx Hg.
  destruct (strict_run events _ He (sized_mounted rnd has2d frame)) as [E Hs].
  fold w in E. rewrite <- E in Hs.
  pose proof (run_clean events _ (mounted_clean rnd has2d frame) c) as Hclean.
  rewrite <- E in Hclean. specialize (Hclean Hc).
  destruct (glow_frame_log s m w v c Hs Hm Hv Hc Hr Hx Hg) as (post & Hn & Hl).
  exists (Props.baseOps s c ++ firstn 3 (Props.glowOps s)), post.
  split; [exact Hn|]. split; [rewrite Hl, <- !app_assoc; reflexivity|].
  split; [reflexivity|].
  destruct (glow_alpha_cases (glow s) Hg) as (Hin & Hout).
  cbv zeta. rewrite stateAfter_app, Hclean. cbn.
  destruct (Qle_bool 0 (glow s / 150) && Qle_bool (glow s / 150) 1) eqn:Ecap; cbn.
  - split; [reflexivity|]. split; [reflexivity|]. split.
    + intros Hc1. assert (E2 : (glow s / 150 == glow s * (1 # 150))%Q) by reflexivity.
      rewrite E2. lra.
    + intros Hc1. discriminate (Hout Hc1).
  - split; [reflexivity|]. split; [|split].
    + intros Hc1. discriminate (Hin Hc1).
    + intros Hc1. assert (Hc2 : (glow s <= 150)%Q) by lra. discriminate (Hin Hc2).
    + reflexivity.
Qed.

(** The first decoded frame with the initial settings, whose glow is 10,
    and with a glow of 200. *)
Lemma glow_pass_draws_at_strength_over_150_capped_at_one_witness :
  let frame := fun _ _ : Z => Dom.mkPixel 9 9 9 255 in
  let events :=
    [ App.InitCameraDone (App.GumResolves ["video"%string]) (App.GumRejects "");
      App.LoadedMetadata 64 48;
      App.VideoProgress 4 frame ] in
  let w := Strict.run (H := RefHost.host) (App.mounted (fun _ => 0%Q) true frame) events in
  let c := Dom.mkCanvas 64 48 true [Dom.ResetBySize; Dom.ResetBySize] in
  (exists pre post,
     App.canvasRef (snd (Strict.processFrame (H := RefHost.host)
                           App.INITIAL_SETTINGS App.Camera w))
     = Some (Dom.mkCanvas 64 48 true (Dom.calls c ++ pre ++ Dom.DrawCanvas 0 0 :: post)) /\
     Dom.globalAlpha (Dom.stateAfter (Dom.calls c ++ pre)) = (10 / 150)%Q) /\
  (exists pre post,
     App.canvasRef (snd (Strict.processFrame (H := RefHost.host)
                           (App.with_glow 200 App.INITIAL_SETTINGS) App.Scan w))
     = Some (Dom.mkCanvas 64 48 true (Dom.calls c ++ pre ++ Dom.DrawCanvas 0 0 :: post)) /\
     Dom.globalAlpha (Dom.stateAfter (Dom.calls c ++ pre)) = 1%Q).
Proof.
  intros frame events w c.
  pose (v := Dom.mkVideo 4 64 48 (Some [Dom.mkTrack "video" 0])
                         (Some Dom.SizeCanvasAndPlay) 1 frame).
  assert (Hv : App.videoRef w = Some v) by (vm_compute; reflexivity).
  assert (Hc : App.canvasRef w = Some c) by (vm_compute; reflexivity).
  split.
  - destruct (glow_pass_draws_at_strength_over_150_capped_at_one RefHost.host
                App.INITIAL_SETTINGS App.Camera (fun _ => 0%Q) true frame events v c
                eq_refl ltac:(discriminate) Hv Hc eq_refl eq_refl eq_refl)
      as (pre & post & _ & Hl & _ & _ & Ha & _).
    exists pre, post. split; [exact Hl|]. apply Ha. discriminate.
  - destruct (glow_pass_draws_at_strength_over_150_capped_at_one RefHost.host
                (App.with_glow 200 App.INITIAL_SETTINGS) App.Scan (fun _ => 0%Q) true
                frame events v c
                eq_refl ltac:(discriminate) Hv Hc eq_refl eq_refl eq_refl)
      as (pre & post & _ & Hl & _ & _ & _ & _ & Ha).
    exists pre, post. split; [exact Hl|]. apply Ha. reflexivity.
Defined.




(** C8. Teardown, at any point of the component's life, cancels the
    pending cycle: afterwards no callback is pending and animation frames
    change nothing, so [processFrame] is never invoked again.  It stops
    no track: the cleanup of the mount effect reaches the stream through
    [videoRef.current], which is [null] by the time it runs, so the video
    element is left as it was, with [stop] called on none of the tracks
    of its stream. *)
Theorem teardown_ends_the_loop_and_stops_no_track :
  forall (host : Host) rnd has2d frame events,
    let w := App.run (App.mounted rnd has2d frame) events in
    let left := fst (App.unmount w) in
    let w' := snd (App.unmount w) in
    left = App.videoRef w /\
    (forall v stream,
       left = Some v -> Dom.srcObject v = Some stream ->
       Forall (fun t => Dom.stopCalls t = 0%nat) stream) /\
    App.videoRef w' = None /\
    App.frameRequests w' = [] /\
    (forall n, App.run w' (repeat App.AnimationFrame n) = w').
Proof.
  intros host rnd has2d frame events w left w'.
  destruct (reachable_Inv rnd has2d frame events) as (Hp & Ht & _). fold w in Hp, Ht.
  pose (d := App.set_canvasRef None (App.set_videoRef None w)).
  assert (Hu : App.unmount w = (App.videoRef w, App.exec App.frameEffectCleanup d)).
  { unfold App.unmount, App.bind, App.detachRefs, App.exec.
    fold d. rewrite (surjective_pairing (App.cameraEffectCleanup d)).
    replace (snd (App.cameraEffectCleanup d)) with d
      by (symmetry; apply (cameraEffectCleanup_detached d); reflexivity).
    destruct (App.frameEffectCleanup d). reflexivity. }
  unfold left, w'. rewrite Hu. cbn [fst snd].
  assert (Hq : App.frameRequests (App.exec App.frameEffectCleanup d) = []).
  { apply frameEffectCleanup_cancels. exact Hp. }
  split; [reflexivity|]. split; [|split; [|split]].
  - intros v stream Hv Hs. exact (Ht v stream Hv Hs).
  - rewrite frameEffectCleanup_outside. reflexivity.
  - exact Hq.
  - induction n as [|n IH]; [reflexivity|]. cbn [repeat App.run fold_left App.step].
    rewrite animationFrame_idle by exact Hq. exact IH.
Qed.

(** A camera with a video and an audio track, torn down after its first
    frame was drawn: the element that leaves the document still holds
    both tracks, neither of them stopped. *)
Lemma teardown_ends_the_loop_and_stops_no_track_witness :
  let w := App.run (H := RefHost.host)
             (App.mounted (fun _ => 0%Q) true (fun _ _ => Dom.mkPixel 0 0 0 255))
             [ App.InitCameraDone (App.GumResolves ["video"%string; "audio"%string])
                                  (App.GumRejects "");
               App.LoadedMetadata 1280 720;
               App.VideoProgress 4 (fun _ _ => Dom.mkPixel 9 9 9 255);
               App.AnimationFrame ] in
  (exists v, fst (App.unmount w) = Some v /\
             Dom.srcObject v = Some [Dom.mkTrack "video" 0; Dom.mkTrack "audio" 0]) /\
  App.frameRequests (snd (App.unmount w)) = [].
Proof.
  intros w.
  destruct (teardown_ends_the_loop_and_stops_no_track RefHost.host
              (fun _ => 0%Q) true (fun _ _ => Dom.mkPixel 0 0 0 255)
              [ App.InitCameraDone (App.GumResolves ["video"%string; "audio"%string])
                                   (App.GumRejects "");
                App.LoadedMetadata 1280 720;
                App.VideoProgress 4 (fun _ _ => Dom.mkPixel 9 9 9 255);
                App.AnimationFrame ]) as (Hleft & _ & _ & Hq & _).
  split; [|exact Hq].
  exists (Dom.mkVideo 4 1280 720
            (Some [Dom.mkTrack "video" 0; Dom.mkTrack "audio" 0])
            (Some Dom.SizeCanvasAndPlay) 1 (fun _ _ => Dom.mkPixel 9 9 9 255)).
  split; [|reflexivity].
  fold w in Hleft. rewrite Hleft. vm_compute. reflexivity.
Defined.

(** X13. The scan panel of lines 398-416 shows the advice text for a
    falsy result.  For a truthy result it throws a TypeError when
    [vertices] is absent or null, and, with numeric [vertices] and
    [topologyScore], when [defects] is absent or null.  With [defects]
    an empty array it shows the count and the bar width; with a first
    defect it shows them and the defect, as the text React makes of it
    when that is a string or a number, and React throws when the first
    defect is an object. *)
Theorem scan_panel_shows_the_first_defect_unless_it_is_an_object :
  forall (host : Host) (Number_toLocaleString : Q -> string)
         (Structured_toLocaleString Structured_toString : JSON -> Completion string)
         (Structured_toNumber : JSON -> Completion Dom.JSNum)
         (String_toNumber : string -> Dom.JSNum) (r : JSON),
    let panel := Surface.scanPanel Number_toLocaleString Structured_toLocaleString
                   Structured_toString Structured_toNumber String_toNumber r in
    (Surface.truthy r = false -> panel = Normal Surface.Advice) /\
    (Surface.truthy r = true -> Surface.nullish (getField r "vertices") ->
       panel = Throw TypeError) /\
    (forall n score,
       Surface.truthy r = true ->
       getField r "vertices" = Some (JNumber n) ->
       getField r "topologyScore" = Some (JNumber score) ->
       let shows := fun box =>
         Normal (Surface.Result
                   (Surface.mkReadout (Number_toLocaleString n ++ " POLY")
                                      (Number_toString score ++ "%") box)) in
       (Surface.nullish (getField r "defects") -> panel = Throw TypeError) /\
       (getField r "defects" = Some (JArray []) -> panel = shows None) /\
       (forall d rest,
          getField r "defects" = Some (JArray (d :: rest)) ->
          (forall s, d = JString s -> panel = shows (Some (Surface.Text s))) /\
          (forall k, d = JNumber k ->
             panel = shows (Some (Surface.Text (Number_toString k)))) /\
          (d = JNull -> panel = shows (Some Surface.Nothing)) /\
          (forall fields, d = JObject fields -> panel = Throw Surface.notAChild))).
Proof.
  intros host NL SL SS SN StN r panel. unfold panel, Surface.scanPanel.
  split; [|split].
  - intros ->. reflexivity.
  - intros -> [-> | ->]; reflexivity.
  - intros n score -> -> ->. cbv zeta. cbn. split; [|split].
    + intros [-> | ->]; reflexivity.
    + intros ->. reflexivity.
    + intros d rest Hd. remember (d :: rest) as items eqn:Hi. rewrite Hd. cbn.
      subst items. cbn [List.length]. rewrite Nat2Z.inj_succ.
      assert (E : App.Qlt_bool 0 (inject_Z (Z.succ (Z.of_nat (List.length rest)))) = true).
      { apply Qlt_bool_true. change 0%Q with (inject_Z 0). rewrite <- Zlt_Qlt. lia. }
      repeat split; intros; subst d; cbn; rewrite ?E; cbn; try rewrite E; reflexivity.
Qed.

(** A result without [vertices], and one whose first defect is an
    object, as a model that answers with structured defects gives it. *)
Lemma scan_panel_shows_the_first_defect_unless_it_is_an_object_witness :
  Surface.scanPanel (H := RefHost.host) RefHost.showQ (fun _ => Throw TypeError)
    (fun _ => Throw TypeError) (fun _ => Throw TypeError) (fun _ => None)
    (JObject [("topologyScore", JNumber 80)]%string)
  = Throw TypeError /\
  Surface.scanPanel (H := RefHost.host) RefHost.showQ (fun _ => Throw TypeError)
    (fun _ => Throw TypeError) (fun _ => Throw TypeError) (fun _ => None)
    (JObject [("vertices", JNumber 850); ("topologyScore", JNumber 80);
              ("defects", JArray [JObject [("type", JString "hole")]])]%string)
  = Throw Surface.notAChild.
Proof.
  split.
  - destruct (scan_panel_shows_the_first_defect_unless_it_is_an_object RefHost.host
                RefHost.showQ
                (fun _ => Throw TypeError) (fun _ => Throw TypeError)
                (fun _ => Throw TypeError) (fun _ => None)
                (JObject [("topologyScore", JNumber 80)]%string))
      as (_ & Hc & _).
    exact (Hc eq_refl (or_introl eq_refl)).
  - destruct (scan_panel_shows_the_first_defect_unless_it_is_an_object RefHost.host
                RefHost.showQ
                (fun _ => Throw TypeError) (fun _ => Throw TypeError)
                (fun _ => Throw TypeError) (fun _ => None)
                (JObject [("vertices", JNumber 850); ("topologyScore", JNumber 80);
                          ("defects", JArray [JObject [("type", JString "hole")]])]%string))
      as (_ & _ & Hc).
    destruct (Hc 850%Q 80%Q eq_refl eq_refl eq_refl) as (_ & _ & Hd).
    destruct (Hd (JObject [("type", JString "hole")]%string) [] eq_refl) as (_ & _ & _ & Ho).
    exact (Ho _ eq_refl).
Defined.

(* ===================================================================== *)
(** * The frame loop of the other App                                     *)
(* ===================================================================== *)

Section QuantumFacts.
Import Dom Quantum.
Context `{Host}.

Lemma sameCamera_refl w : sameCamera w w.
Proof. repeat split. Qed.

Lemma sameCamera_trans w1 w2 w3 : sameCamera w1 w2 -> sameCamera w2 w3 -> sameCamera w1 w3.
Proof.
  intros (a1 & a2 & a3 & a4 & a5 & a6) (b1 & b2 & b3 & b4 & b5 & b6).
  repeat split; congruence.
Qed.

Lemma processFrame_dead s m w : contextless w = true -> processFrame s m w = w.
Proof.
  unfold contextless, processFrame.
  destruct (videoRef w) as [v|]; [|discriminate].
  destruct (canvasRef w) as [c|]; [|discriminate].
  intros Hd. apply andb_true_iff in Hd. destruct Hd as [-> Hc].
  apply negb_true_iff in Hc. rewrite Hc. reflexivity.
Qed.

(** What throws depends on the size of the canvas only. *)
Lemma refuses_size c c' op :
  width c' = width c -> height c' = height c -> refuses c' op = refuses c op.
Proof. intros Hw Hh. destruct op as [[]|]; cbn; rewrite ?Hw, ?Hh; reflexivity. Qed.

(** Calls none of which throws are all made. *)
Lemma perform_all ops : forall c,
  Forall (fun op => refuses c op = None) ops ->
  perform ops c
  = (Normal tt, mkCanvas (width c) (height c) (context2d c) (calls c ++ ops)).
Proof.
  induction ops as [|op ops IH]; intros c Hf; cbn [perform].
  - rewrite app_nil_r. destruct c; reflexivity.
  - rewrite (Forall_inv Hf). rewrite IH.
    + cbn [width height context2d calls]. rewrite <- app_assoc. reflexivity.
    + eapply Forall_impl; [|exact (Forall_inv_tail Hf)].
      intros o Ho. rewrite <- Ho. apply refuses_size; reflexivity.
Qed.

(** Calls that throw on no canvas are made, and the rest follows. *)
Lemma perform_app pre rest : forall c,
  Forall (fun op => forall c', refuses c' op = None) pre ->
  perform (pre ++ rest) c
  = perform rest (mkCanvas (width c) (height c) (context2d c) (calls c ++ pre)).
Proof.
  induction pre as [|op pre IH]; intros c Hf; cbn [perform app].
  - rewrite app_nil_r. destruct c; reflexivity.
  - rewrite (Forall_inv Hf c). rewrite (IH _ (Forall_inv_tail Hf)).
    cbn [width height context2d calls]. rewrite <- app_assoc. reflexivity.
Qed.

(** Whether or not a call throws, the canvas keeps its size and context,
    and its log is only appended to. *)
Lemma perform_keeps ops : forall c,
  width (snd (perform ops c)) = width c /\ height (snd (perform ops c)) = height c /\
  context2d (snd (perform ops c)) = context2d c /\
  exists done, calls (snd (perform ops c)) = calls c ++ done.
Proof.
  induction ops as [|op ops IH]; intros c; cbn [perform].
  - repeat split. exists []. rewrite app_nil_r. reflexivity.
  - destruct (refuses c op).
    + repeat split. exists []. rewrite app_nil_r. reflexivity.
    + destruct (IH (mkCanvas (width c) (height c) (context2d c) (calls c ++ [op])))
        as (Hw & Hh & Hx & done & Hd).
      cbn [width height context2d calls] in *.
      split; [exact Hw|]. split; [exact Hh|]. split; [exact Hx|].
      exists (op :: done). rewrite Hd, <- app_assoc. reflexivity.
Qed.

Lemma resizeOnChange_context v c : context2d (resizeOnChange v c) = context2d c.
Proof. unfold resizeOnChange. destruct (negb _); reflexivity. Qed.

Lemma resizeOnChange_sized v c :
  videoWidth v <> 0 -> videoHeight v <> 0 -> width c <> 0 -> height c <> 0 ->
  width (resizeOnChange v c) <> 0 /\ height (resizeOnChange v c) <> 0.
Proof.
  intros Hvw Hvh Hw Hh. unfold resizeOnChange.
  destruct (negb _); cbn; split; assumption.
Qed.

(** With a size to the video and to the canvas no call of a frame
    throws. *)
Lemma frameOps_safe s m v r :
  videoWidth v <> 0 -> videoHeight v <> 0 -> width r <> 0 -> height r <> 0 ->
  Forall (fun op => refuses r op = None) (frameOps s m v r).
Proof.
  intros Hvw Hvh Hw Hh.
  assert (Z1 : (width r =? 0) || (height r =? 0) = false).
  { apply orb_false_iff. split; apply Z.eqb_neq; assumption. }
  assert (Z2 : (videoWidth v =? 0) || (videoHeight v =? 0) = false).
  { apply orb_false_iff. split; apply Z.eqb_neq; assumption. }
  unfold frameOps. repeat (constructor; [reflexivity|]).
  destruct m.
  - unfold cinemaOps. repeat (apply Forall_app; split).
    + repeat (constructor; [reflexivity|]). constructor.
    + destruct (upscale s); [|constructor].
      repeat (constructor; [cbn; rewrite ?Z1; reflexivity|]). constructor.
    + destruct (App.Qlt_bool 0 (glow s)); [|constructor].
      repeat (constructor; [cbn; rewrite ?Z1; reflexivity|]). constructor.
  - unfold topographyOps. apply Forall_map. apply Forall_app. split.
    + repeat (constructor; [cbn; rewrite ?Z2; reflexivity|]). constructor.
    + apply (loopOps_Forall (fun op => refuses r (Ctx op) = None) _ _ _ 0); [lia | | lia].
      intros j _. repeat (apply Forall_app; split).
      * repeat constructor.
      * apply (loopOps_Forall (fun op => refuses r (Ctx op) = None) _ _ _ 0); [lia | | lia].
        intros i _. destruct (i =? 0); repeat constructor.
      * repeat constructor.
  - unfold reliefOps. repeat (constructor; [cbn; rewrite ?Z1; reflexivity|]). constructor.
Qed.

Lemma histogramUpdate_outside w :
  let w' := histogramUpdate w in
  settings w' = settings w /\ mode w' = mode w /\ cameraReady w' = cameraReady w /\
  error w' = error w /\ videoRef w' = videoRef w /\ canvasRef w' = canvasRef w /\
  requestRef w' = requestRef w /\ frameRequests w' = frameRequests w /\
  nextHandle w' = nextHandle w.
Proof. unfold histogramUpdate. destruct (App.Qlt_bool _ _); repeat split. Qed.

(** A frame on a decoded video, with a context, when the video and the
    canvas have a size: every call is made, the histogram is sampled and
    the next frame requested. *)
Lemma processFrame_draws s m w v c :
  videoRef w = Some v -> canvasRef w = Some c ->
  (readyState v =? 4) = true -> context2d c = true -> sized w ->
  let r := resizeOnChange v c in
  processFrame s m w
  = requestFrame (ProcessFrame s m)
      (histogramUpdate
         (set_canvasRef
            (Some (mkCanvas (width r) (height r) (context2d r) (calls r ++ frameOps s m v r)))
            w)).
Proof.
  intros Ev Ec Er Hc [Sv Sc] r. unfold processFrame. rewrite Ev, Ec, Er, Hc.
  destruct (Sv v Ev) as [Hvw Hvh]. destruct (Sc c Ec) as [Hw Hh].
  destruct (resizeOnChange_sized v c Hvw Hvh Hw Hh) as [Rw Rh].
  rewrite (perform_all _ _ (frameOps_safe s m v (resizeOnChange v c) Hvw Hvh Rw Rh)).
  reflexivity.
Qed.

Lemma requestFrame_alive cb w :
  sized w ->
  sameCamera w (requestFrame cb w) /\ sized (requestFrame cb w) /\
  frameRequests (requestFrame cb w) = frameRequests w ++ [(nextHandle w, cb)] /\
  requestRef (requestFrame cb w) = Some (nextHandle w) /\
  nextHandle (requestFrame cb w) = nextHandle w + 1.
Proof. intros Hs. split; [repeat split|]. split; [exact Hs|]. repeat split. Qed.

Lemma processFrame_alive s m w :
  contextless w = false -> sized w ->
  sameCamera w (processFrame s m w) /\ sized (processFrame s m w) /\
  frameRequests (processFrame s m w) = frameRequests w ++ [(nextHandle w, ProcessFrame s m)] /\
  requestRef (processFrame s m w) = Some (nextHandle w) /\
  nextHandle (processFrame s m w) = nextHandle w + 1.
Proof.
  intros Ha Hs. unfold contextless in Ha.
  destruct (videoRef w) as [v|] eqn:Ev; [destruct (canvasRef w) as [c|] eqn:Ec|].
  - destruct (readyState v =? 4) eqn:Er; cbn [andb] in Ha.
    + apply negb_false_iff in Ha.
      rewrite (processFrame_draws s m w v c Ev Ec Er Ha Hs).
      destruct Hs as [Sv Sc].
      destruct (Sv v Ev) as [Hvw Hvh]. destruct (Sc c Ec) as [Hw Hh].
      destruct (resizeOnChange_sized v c Hvw Hvh Hw Hh) as [Rw Rh].
      cbv zeta. set (p := mkCanvas _ _ _ _).
      assert (Px : context2d p = true)
        by (unfold p; cbn [context2d]; rewrite resizeOnChange_context; exact Ha).
      assert (Pw : width p <> 0 /\ height p <> 0)
        by (unfold p; cbn [width height]; split; assumption).
      clearbody p.
      destruct (histogramUpdate_outside (set_canvasRef (Some p) w))
        as (Es & Em & Ey & Ee & Ev' & Ec' & Eq & Ef & En).
      set (w1 := histogramUpdate _) in *. clearbody w1.
      cbn [settings mode cameraReady error videoRef canvasRef requestRef frameRequests
           nextHandle set_canvasRef] in Es, Em, Ey, Ee, Ev', Ec', Eq, Ef, En.
      unfold sameCamera, contextless, sized, requestFrame.
      cbn [settings mode cameraReady error videoRef canvasRef requestRef frameRequests
           nextHandle].
      rewrite Es, Em, Ey, Ee, Ev', Ec', Ef, En, Ev, Ec, Er, Px, Ha.
      split; [repeat split|]. split; [|repeat split].
      split; [intros v1 E1; injection E1 as <-; split; assumption|].
      intros c1 E1. injection E1 as <-. exact Pw.
    + assert (E : processFrame s m w = requestFrame (ProcessFrame s m) w)
        by (unfold processFrame; rewrite Ev, Ec, Er; reflexivity).
      rewrite E. apply requestFrame_alive, Hs.
  - assert (E : processFrame s m w = requestFrame (ProcessFrame s m) w)
      by (unfold processFrame; rewrite Ev, Ec; reflexivity).
    rewrite E. apply requestFrame_alive, Hs.
  - assert (E : processFrame s m w = requestFrame (ProcessFrame s m) w)
      by (unfold processFrame; rewrite Ev; reflexivity).
    rewrite E. apply requestFrame_alive, Hs.
Qed.

(** What a frame does to the canvas when it gets to draw: the calls made
    until one throws. *)
Lemma processFrame_painted s m w v c :
  videoRef w = Some v -> canvasRef w = Some c ->
  (readyState v =? 4) = true -> context2d c = true ->
  canvasRef (processFrame s m w)
  = Some (snd (perform (frameOps s m v (resizeOnChange v c)) (resizeOnChange v c))).
Proof.
  intros Ev Ec Er Hc. unfold processFrame. rewrite Ev, Ec, Er, Hc.
  destruct (perform _ _) as [[[]|e] painted]; cbn [snd]; [|reflexivity].
  unfold histogramUpdate. destruct (App.Qlt_bool _ _); reflexivity.
Qed.



(** The callbacks of one animation frame, run in order. *)
Lemma callbacks_dead q : forall w,
  contextless w = true ->
  fold_left (fun w' (e : Z * Callback) => runCallback (snd e) w') q w = w.
Proof.
  induction q as [|[h [s m]] q IH]; intros w Hd; cbn; [reflexivity|].
  rewrite (processFrame_dead s m w Hd). apply IH, Hd.
Qed.

Lemma callbacks_alive q : forall w,
  contextless w = false -> sized w ->
  let w' := fold_left (fun w' (e : Z * Callback) => runCallback (snd e) w') q w in
  sameCamera w w' /\ sized w' /\
  map snd (frameRequests w') = map snd (frameRequests w) ++ map snd q /\
  nextHandle w' = nextHandle w + Z.of_nat (List.length q).
Proof.
  induction q as [|[h [s m]] q IH]; intros w Ha Hs; cbn [fold_left].
  - cbn. rewrite app_nil_r, Z.add_0_r. split; [apply sameCamera_refl|].
    split; [exact Hs|]. split; reflexivity.
  - cbn [runCallback snd].
    destruct (processFrame_alive s m w Ha Hs) as (S1 & Z1 & Q1 & _ & N1).
    assert (Ha' : contextless (processFrame s m w) = false)
      by (destruct S1 as (_ & _ & _ & _ & _ & ->); exact Ha).
    destruct (IH _ Ha' Z1) as (S2 & Z2 & Q2 & N2). cbv zeta in S2, Z2, Q2, N2.
    split; [exact (sameCamera_trans _ _ _ S1 S2)|]. split; [exact Z2|]. split.
    + rewrite Q2, Q1, map_app, <- app_assoc. reflexivity.
    + rewrite N2, N1. cbn [List.length]. lia.
Qed.

Lemma ascending_weaken q : forall low low', low' <= low -> ascending low q -> ascending low' q.
Proof.
  destruct q as [|[h cb] q]; intros low low' Hl Ha; cbn in *; [exact I|].
  destruct Ha as [Hh Ha]. split; [lia | exact Ha].
Qed.

Lemma ascending_snoc q : forall low n cb,
  ascending low q -> Forall (fun e : Z * Callback => fst e < n) q -> low < n ->
  ascending low (q ++ [(n, cb)]).
Proof.
  induction q as [|[h cb'] q IH]; intros low n cb Ha Hf Hl; cbn in *.
  - split; [exact Hl | exact I].
  - destruct Ha as [Hh Ha]. split; [exact Hh|].
    apply IH; [exact Ha | exact (Forall_inv_tail Hf) |].
    exact (Forall_inv Hf).
Qed.

Lemma ascending_below q : forall low h cb,
  ascending low (q ++ [(h, cb)]) ->
  low < h /\ Forall (fun e : Z * Callback => fst e < h) q.
Proof.
  induction q as [|[h' cb'] q IH]; intros low h cb Ha; cbn in *.
  - split; [apply Ha | constructor].
  - destruct Ha as [Hh Ha]. destruct (IH _ _ _ Ha) as [Hl Hf].
    split; [lia|]. constructor; [exact Hl | exact Hf].
Qed.

Lemma wellQueued_request w w' cb :
  wellQueued w ->
  frameRequests w' = frameRequests w ++ [(nextHandle w, cb)] ->
  requestRef w' = Some (nextHandle w) ->
  nextHandle w' = nextHandle w + 1 ->
  wellQueued w'.
Proof.
  intros (Ha & Hf & Hn & Hr) Eq Er En. unfold wellQueued. rewrite Eq, Er, En.
  split; [|split; [|split]].
  - apply ascending_snoc; assumption.
  - apply Forall_app. split.
    + eapply Forall_impl; [|exact Hf]. cbn. intros e He. lia.
    + constructor; [cbn; lia | constructor].
  - lia.
  - intros q h cb' E. apply app_inj_tail in E. destruct E as [_ E].
    injection E as -> _. reflexivity.
Qed.

Lemma wellQueued_same w w' :
  wellQueued w -> frameRequests w' = frameRequests w -> requestRef w' = requestRef w ->
  nextHandle w' = nextHandle w -> wellQueued w'.
Proof. unfold wellQueued. intros Hw -> -> ->. exact Hw. Qed.

Lemma wellQueued_emptied w : wellQueued w -> wellQueued (set_frameRequests [] w).
Proof.
  intros (_ & _ & Hn & _). unfold wellQueued. cbn.
  split; [exact I|]. split; [constructor|]. split; [exact Hn|].
  intros q h cb E. destruct q; discriminate.
Qed.

(** A frame requests its successor or, when it returns early or throws,
    leaves the queue as it is. *)
Lemma processFrame_queue s m w :
  (frameRequests (processFrame s m w) = frameRequests w ++ [(nextHandle w, ProcessFrame s m)] /\
   requestRef (processFrame s m w) = Some (nextHandle w) /\
   nextHandle (processFrame s m w) = nextHandle w + 1) \/
  (frameRequests (processFrame s m w) = frameRequests w /\
   requestRef (processFrame s m w) = requestRef w /\
   nextHandle (processFrame s m w) = nextHandle w).
Proof.
  unfold processFrame.
  destruct (videoRef w) as [v|]; [|left; repeat split].
  destruct (canvasRef w) as [c|]; [|left; repeat split].
  destruct (readyState v =? 4); [|left; repeat split].
  destruct (context2d c); [|right; repeat split].
  destruct (perform _ _) as [[[]|e] painted]; [|right; repeat split].
  left. unfold histogramUpdate. destruct (App.Qlt_bool _ _); repeat split.
Qed.

Lemma callbacks_wellQueued q : forall w,
  wellQueued w ->
  wellQueued (fold_left (fun w' (e : Z * Callback) => runCallback (snd e) w') q w).
Proof.
  induction q as [|[h [s m]] q IH]; intros w Hw; cbn [fold_left]; [exact Hw|].
  apply IH. cbn [runCallback snd].
  destruct (processFrame_queue s m w) as [(Q1 & R1 & N1) | (Q1 & R1 & N1)].
  - exact (wellQueued_request w _ _ Hw Q1 R1 N1).
  - exact (wellQueued_same w _ Hw Q1 R1 N1).
Qed.

Lemma frameEffect_wellQueued w : wellQueued w -> wellQueued (frameEffect w).
Proof.
  intros Hw. unfold frameEffect. destruct (cameraReady w); [|exact Hw].
  apply (wellQueued_request w _ (ProcessFrame (settings w) (mode w)) Hw); reflexivity.
Qed.

Lemma step_wellQueued w e : wellQueued w -> wellQueued (step w e).
Proof.
  intros Hw. destruct e as [r | vw vh | rs fr | vw vh | | s | m]; cbn [step].
  - unfold initCamera. destruct r as [labels | msg].
    + cbn. destruct (videoRef w); exact Hw.
    + exact Hw.
  - unfold loadedmetadata. destruct (videoRef w) as [v|]; [|exact Hw].
    destruct (onloadedmetadata v); [|exact Hw].
    destruct (cameraReady w); [exact Hw|].
    apply frameEffect_wellQueued. exact Hw.
  - unfold videoProgress. destruct (videoRef w); exact Hw.
  - unfold sourceResize. destruct (videoRef w); exact Hw.
  - unfold animationFrame. apply callbacks_wellQueued, wellQueued_emptied, Hw.
  - unfold rerender. apply frameEffect_wellQueued. exact Hw.
  - destruct (Mode_eqb m (mode w)); [exact Hw|].
    unfold rerender. apply frameEffect_wellQueued. exact Hw.
Qed.

Lemma run_wellQueued events : forall w, wellQueued w -> wellQueued (run w events).
Proof.
  unfold run. induction events as [|e events IH]; intros w Hw; cbn; [exact Hw|].
  apply IH, step_wellQueued, Hw.
Qed.

Lemma mounted_wellQueued rnd has2d frame : wellQueued (mounted rnd has2d frame).
Proof.
  unfold wellQueued. cbn. split; [exact I|]. split; [constructor|]. split; [lia|].
  intros q h cb E. destruct q; discriminate.
Qed.

Lemma filter_keeps_below q h :
  Forall (fun e : Z * Callback => fst e < h) q ->
  List.filter (fun e : Z * Callback => negb (fst e =? h)) q = q.
Proof.
  induction q as [|e q IH]; intros Hf; cbn; [reflexivity|].
  replace (fst e =? h) with false
    by (symmetry; apply Z.eqb_neq; pose proof (Forall_inv Hf); cbn in *; lia).
  cbn. rewrite IH; [reflexivity | exact (Forall_inv_tail Hf)].
Qed.

Lemma unmount_queue w q h cb :
  wellQueued w -> frameRequests w = q ++ [(h, cb)] -> frameRequests (unmount w) = q.
Proof.
  intros (Ha & _ & _ & Hr) E. rewrite E in Ha.
  destruct (ascending_below q 0 h cb Ha) as [Hh Hq].
  assert (C : frameRequests
                match requestRef w with
                | Some h0 => if h0 =? 0 then w else cancelAnimationFrame h0 w
                | None => w
                end = q).
  { rewrite (Hr q h cb E). replace (h =? 0) with false by (symmetry; apply Z.eqb_neq; lia).
    unfold cancelAnimationFrame. cbn. rewrite E, filter_app. cbn.
    rewrite Z.eqb_refl. cbn. rewrite app_nil_r. apply filter_keeps_below, Hq. }
  unfold unmount, cleanup. cbn [requestRef set_canvasRef set_videoRef].
  destruct (requestRef w) as [h0|]; [destruct (h0 =? 0)|]; exact C.
Qed.

(** Once the refs are detached every callback takes the first return
    and requests itself again. *)
Lemma unmount_detached w : videoRef (unmount w) = None /\ canvasRef (unmount w) = None.
Proof.
  unfold unmount, cleanup. cbn [requestRef set_canvasRef set_videoRef].
  destruct (requestRef w) as [h0|]; [destruct (h0 =? 0)|]; split; reflexivity.
Qed.




End QuantumFacts.

Section QuantumRuns.
Import Dom Quantum.
Context `{Host}.


Lemma frames_dead n w :
  contextless w = true ->
  run w (repeat AnimationFrame (S n)) = set_frameRequests [] w.
Proof.
  intros Hd. unfold run.
  assert (E : forall w0, contextless w0 = true ->
                         step w0 AnimationFrame = set_frameRequests [] w0).
  { intros w0 H0. cbn [step]. unfold animationFrame. apply callbacks_dead. exact H0. }
  induction n as [|n IH].
  - cbn [repeat fold_left]. apply E, Hd.
  - replace (repeat AnimationFrame (S (S n)))
      with (repeat AnimationFrame (S n) ++ [AnimationFrame])
      by (rewrite <- repeat_cons; reflexivity).
    rewrite fold_left_app, IH. cbn [fold_left]. rewrite E; [reflexivity | exact Hd].
Qed.

Lemma step_before w e :
  beforeMetadata e = true ->
  frameRequests w = [] -> requestRef w = None -> cameraReady w = false ->
  frameRequests (step w e) = [] /\ requestRef (step w e) = None /\
  cameraReady (step w e) = false /\ canvasRef (step w e) = canvasRef w.
Proof.
  intros Hb Hq Hr Hc.
  destruct e as [r | vw vh | rs fr | vw vh | | s | m]; try discriminate; cbn [step].
  - unfold initCamera. destruct r as [labels | msg]; cbn;
      [destruct (videoRef w); cbn|]; repeat split; assumption.
  - unfold videoProgress. destruct (videoRef w); cbn; repeat split; assumption.
  - unfold sourceResize. destruct (videoRef w); cbn; repeat split; assumption.
  - unfold animationFrame. rewrite Hq. cbn. repeat split; assumption.
  - unfold rerender, frameEffect. cbn. rewrite Hc. cbn. repeat split; assumption.
  - destruct (Mode_eqb m (mode w)); [repeat split; assumption|].
    unfold rerender, frameEffect. cbn. rewrite Hc. cbn. repeat split; assumption.
Qed.

Lemma run_before events : forall w,
  forallb beforeMetadata events = true ->
  frameRequests w = [] -> requestRef w = None -> cameraReady w = false ->
  frameRequests (run w events) = [] /\ requestRef (run w events) = None /\
  cameraReady (run w events) = false /\ canvasRef (run w events) = canvasRef w.
Proof.
  unfold run. induction events as [|e events IH]; intros w Hb Hq Hr Hc; cbn [fold_left].
  - repeat split; assumption.
  - cbn [forallb] in Hb. apply andb_true_iff in Hb. destruct Hb as [He Hb].
    destruct (step_before w e He Hq Hr Hc) as (Hq' & Hr' & Hc' & Hk).
    destruct (IH _ Hb Hq' Hr' Hc') as (A & B & C & D).
    repeat split; try assumption. rewrite D. exact Hk.
Qed.

End QuantumRuns.



(** X19. In the other App, when the frame is decoded and the canvas
    gives no 2D context, every pending [processFrame] returns without
    requesting another frame: after the first animation frame nothing is
    pending and nothing was drawn, and further frames change nothing. *)
Theorem frame_loop_ends_when_the_canvas_gives_no_context :
  forall (host : Host) (w : Quantum.World) (v : Quantum.Video) (c : Quantum.Canvas)
         (n : nat),
    Quantum.videoRef w = Some v -> Quantum.canvasRef w = Some c ->
    Quantum.readyState v = 4 -> Quantum.context2d c = false ->
    Quantum.run w (repeat Quantum.AnimationFrame (S n))
    = Quantum.set_frameRequests [] w.
Proof.
  intros host w v c n Hv Hc Hr Hx. apply frames_dead.
  unfold Quantum.contextless. rewrite Hv, Hc, Hr, Hx. reflexivity.
Qed.

Lemma frame_loop_ends_when_the_canvas_gives_no_context_witness :
  let frame := fun _ _ : Z => Dom.mkPixel 9 9 9 255 in
  let w := Quantum.mkWorld Quantum.INITIAL_SETTINGS Quantum.Cinema true None
             (repeat 10%Q 24)
             (Some (Quantum.mkVideo 4 64 48 (Some [Dom.mkTrack "video" 0])
                                    (Some "true"%string) true 1 frame))
             (Some (Quantum.mkCanvas 300 150 false []))
             (Some 1) [(1, Quantum.ProcessFrame Quantum.INITIAL_SETTINGS Quantum.Cinema)]
             2 (fun _ => 0%Q) 0 in
  Quantum.frameRequests
    (Quantum.run (H := RefHost.host) w (repeat Quantum.AnimationFrame 3)) = [].
Proof.
  intros frame w.
  rewrite (frame_loop_ends_when_the_canvas_gives_no_context RefHost.host w
             (Quantum.mkVideo 4 64 48 (Some [Dom.mkTrack "video" 0])
                              (Some "true"%string) true 1 frame)
             (Quantum.mkCanvas 300 150 false []) 2 eq_refl eq_refl eq_refl eq_refl).
  reflexivity.
Defined.

(** X20. The other App requests no animation frame and draws nothing
    until the metadata of a stream arrive: whatever else happens, the
    callback list stays empty, [requestRef] stays null and the canvas
    keeps its default size with an untouched context. *)
Theorem no_frame_is_requested_before_the_metadata_arrive :
  forall (host : Host) (rnd : nat -> Q) (has2d : bool) (frame : Dom.Raster)
         (events : list Quantum.Event),
    forallb Quantum.beforeMetadata events = true ->
    let w := Quantum.run (Quantum.mounted rnd has2d frame) events in
    Quantum.frameRequests w = [] /\ Quantum.requestRef w = None /\
    Quantum.cameraReady w = false /\
    Quantum.canvasRef w = Some (Quantum.mkCanvas 300 150 has2d []).
Proof.
  intros host rnd has2d frame events Hb w.
  exact (run_before events (Quantum.mounted rnd has2d frame) Hb eq_refl eq_refl eq_refl).
Qed.

Lemma no_frame_is_requested_before_the_metadata_arrive_witness :
  let frame := fun _ _ : Z => Dom.mkPixel 9 9 9 255 in
  Quantum.frameRequests
    (Quantum.run (H := RefHost.host) (Quantum.mounted (fun _ => 0%Q) true frame)
       [ Quantum.InitCameraDone (App.GumRejects "denied");
         Quantum.SetSettings (App.with_glow 40 Quantum.INITIAL_SETTINGS);
         Quantum.AnimationFrame; Quantum.SetMode Quantum.Relief ]) = [].
Proof.
  intros frame.
  exact (proj1 (no_frame_is_requested_before_the_metadata_arrive RefHost.host
                  (fun _ => 0%Q) true frame
                  [ Quantum.InitCameraDone (App.GumRejects "denied");
                    Quantum.SetSettings (App.with_glow 40 Quantum.INITIAL_SETTINGS);
                    Quantum.AnimationFrame; Quantum.SetMode Quantum.Relief ] eq_refl)).
Defined.

(** X21. Unmounting the other App cancels only the callback requested
    last: every other pending callback stays in the list, and unless the
    canvas gives no context each of them runs and requests itself again
    at the next animation frame. *)
Theorem unmount_cancels_only_the_newest_frame_loop :
  forall (host : Host) (rnd : nat -> Q) (has2d : bool) (frame : Dom.Raster)
         (events : list Quantum.Event) (q : list (Z * Quantum.Callback)) (h : Z)
         (cb : Quantum.Callback),
    let w := Quantum.run (Quantum.mounted rnd has2d frame) events in
    Quantum.frameRequests w = q ++ [(h, cb)] ->
    Quantum.frameRequests (Quantum.unmount w) = q /\
    (Quantum.contextless (Quantum.unmount w) = false ->
     map snd (Quantum.frameRequests
                (Quantum.step (Quantum.unmount w) Quantum.AnimationFrame))
     = map snd q).
Proof.
  intros host rnd has2d frame events q h cb w E.
  assert (Hw : Quantum.wellQueued w)
    by (apply run_wellQueued, mounted_wellQueued).
  pose proof (unmount_queue w q h cb Hw E) as U.
  split; [exact U|]. intros Ha. cbn [Quantum.step]. unfold Quantum.animationFrame.
  assert (Hz : Quantum.sized (Quantum.set_frameRequests [] (Quantum.unmount w))).
  { destruct (unmount_detached w) as [Dv Dc].
    split; cbn; intros x Hx; [rewrite Dv in Hx | rewrite Dc in Hx]; discriminate. }
  destruct (callbacks_alive (Quantum.frameRequests (Quantum.unmount w))
              (Quantum.set_frameRequests [] (Quantum.unmount w)) Ha Hz) as (_ & _ & Q1 & _).
  cbv zeta in Q1. rewrite Q1, U. reflexivity.
Qed.

Lemma unmount_cancels_only_the_newest_frame_loop_witness :
  let frame := fun _ _ : Z => Dom.mkPixel 9 9 9 255 in
  let s1 := App.with_glow 40 Quantum.INITIAL_SETTINGS in
  let w := Quantum.run (H := RefHost.host) (Quantum.mounted (fun _ => 0%Q) true frame)
             [ Quantum.InitCameraDone (App.GumResolves ["video"%string]);
               Quantum.LoadedMetadata 64 48; Quantum.SetSettings s1 ] in
  Quantum.frameRequests (Quantum.unmount w)
  = [(1, Quantum.ProcessFrame Quantum.INITIAL_SETTINGS Quantum.Cinema)].
Proof.
  intros frame s1 w.
  refine (proj1 (unmount_cancels_only_the_newest_frame_loop RefHost.host (fun _ => 0%Q)
                   true frame
                   [ Quantum.InitCameraDone (App.GumResolves ["video"%string]);
                     Quantum.LoadedMetadata 64 48; Quantum.SetSettings s1 ]
                   [(1, Quantum.ProcessFrame Quantum.INITIAL_SETTINGS Quantum.Cinema)]
                   2 (Quantum.ProcessFrame s1 Quantum.Cinema) _)).
  vm_compute. reflexivity.
Defined.

Section QuantumCanvas.
Import Dom Quantum.
Context `{Host}.

(** Every branch draws the video before any call that can throw. *)
Lemma frameOps_draws_the_video s m v r :
  exists pre rest,
    frameOps s m v r = pre ++ Ctx (DrawVideo 0 0 (videoWidth v) (videoHeight v)) :: rest /\
    Forall (fun op => forall c', refuses c' op = None) pre.
Proof.
  unfold frameOps. destruct m.
  - eexists [_; _; _], _. split; [reflexivity|]. repeat constructor.
  - eexists [_; _; _; _], _. split; [reflexivity|]. repeat constructor.
  - eexists [_; _], _. split; [reflexivity|]. repeat constructor.
Qed.

Lemma perform_draws_the_video s m v r :
  In (Ctx (DrawVideo 0 0 (videoWidth v) (videoHeight v)))
     (calls (snd (perform (frameOps s m v r) r))).
Proof.
  destruct (frameOps_draws_the_video s m v r) as (pre & rest & -> & Hpre).
  rewrite (perform_app pre _ r Hpre). cbn [perform refuses].
  match goal with
  | |- In _ (calls (snd (perform rest ?c0))) =>
      destruct (perform_keeps rest c0) as (_ & _ & _ & done & ->)
  end.
  cbn [calls]. apply in_or_app. left. apply in_or_app. right. left. reflexivity.
Qed.

End QuantumCanvas.

(** X22. A frame the other App draws leaves the canvas as wide as the
    video and draws the video at the video's size.  The height follows
    only together with the width: when the width differs both are set,
    and when the width agrees the canvas keeps its height, whatever the
    video's height is. *)
Theorem canvas_of_the_other_app_follows_the_video_width :
  forall (host : Host) (s : CameraSettings) (m : Quantum.Mode) (w : Quantum.World)
         (v : Quantum.Video) (c : Quantum.Canvas),
    Quantum.videoRef w = Some v -> Quantum.canvasRef w = Some c ->
    Quantum.readyState v = 4 -> Quantum.context2d c = true ->
    exists c',
      Quantum.canvasRef (Quantum.processFrame s m w) = Some c' /\
      Quantum.width c' = Quantum.videoWidth v /\
      (Quantum.width c <> Quantum.videoWidth v ->
         Quantum.height c' = Quantum.videoHeight v) /\
      (Quantum.width c = Quantum.videoWidth v -> Quantum.height c' = Quantum.height c) /\
      In (Quantum.Ctx (Dom.DrawVideo 0 0 (Quantum.videoWidth v) (Quantum.videoHeight v)))
         (Quantum.calls c').
Proof.
  intros host s m w v c Hv Hc Hr Hx.
  assert (Hr' : (Quantum.readyState v =? 4) = true) by (rewrite Hr; reflexivity).
  eexists. split; [apply (processFrame_painted s m w v c Hv Hc Hr' Hx)|].
  destruct (perform_keeps (Quantum.frameOps s m v (Quantum.resizeOnChange v c))
              (Quantum.resizeOnChange v c)) as (-> & -> & _ & _).
  split; [|split; [|split; [|apply perform_draws_the_video]]];
    unfold Quantum.resizeOnChange;
    destruct (Quantum.width c =? Quantum.videoWidth v) eqn:E;
    cbn [negb Quantum.width Quantum.height].
  - apply Z.eqb_eq, E.
  - reflexivity.
  - apply Z.eqb_eq in E. intros N. contradiction.
  - intros _. reflexivity.
  - intros _. reflexivity.
  - apply Z.eqb_neq in E. intros N. contradiction.
Qed.

Lemma canvas_of_the_other_app_follows_the_video_width_witness :
  let frame := fun _ _ : Z => Dom.mkPixel 9 9 9 255 in
  let v := Quantum.mkVideo 4 640 360 (Some [Dom.mkTrack "video" 0]) (Some "true"%string)
             true 1 frame in
  let c := Quantum.mkCanvas 640 480 true [] in
  let w := Quantum.mkWorld Quantum.INITIAL_SETTINGS Quantum.Relief true None
             (repeat 10%Q 24) (Some v) (Some c) (Some 1)
             [(1, Quantum.ProcessFrame Quantum.INITIAL_SETTINGS Quantum.Relief)]
             2 (fun _ => 0%Q) 0 in
  exists c',
    Quantum.canvasRef
      (Quantum.processFrame (H := RefHost.host) Quantum.INITIAL_SETTINGS Quantum.Relief w)
    = Some c' /\
    Quantum.height c' = 480 /\
    In (Quantum.Ctx (Dom.DrawVideo 0 0 640 360)) (Quantum.calls c').
Proof.
  intros frame v c w.
  destruct (canvas_of_the_other_app_follows_the_video_width RefHost.host
              Quantum.INITIAL_SETTINGS Quantum.Relief w v c eq_refl eq_refl eq_refl eq_refl)
    as (c' & E & _ & _ & Hh & Hi).
  exists c'. split; [exact E|]. split; [exact (Hh eq_refl) | exact Hi].
Defined.

Section QuantumPicture.
Import Dom Quantum QuantumProps.
Context `{Host}.

(** A frame leaves the histogram alone or samples it once. *)
Lemma processFrame_picture s m w :
  (histogramData (processFrame s m w) = histogramData w /\
   taken (processFrame s m w) = taken w) \/
  (histogramData (processFrame s m w) = histogramData (histogramUpdate w) /\
   taken (processFrame s m w) = taken (histogramUpdate w)).
Proof.
  unfold processFrame.
  destruct (videoRef w) as [v|] eqn:Ev; [|left; repeat split].
  destruct (canvasRef w) as [c|] eqn:Ec; [|left; repeat split].
  destruct (readyState v =? 4) eqn:Er; [|left; repeat split].
  destruct (context2d c) eqn:Hc; [|left; repeat split].
  destruct (perform _ _) as [[[]|e] painted]; [|left; repeat split].
  right. unfold histogramUpdate. cbn [canvasRef set_canvasRef randoms taken histogramData].
  destruct (App.Qlt_bool _ _); cbn; repeat split.
Qed.

Lemma processFrame_randoms s m w : randoms (processFrame s m w) = randoms w.
Proof.
  unfold processFrame.
  destruct (videoRef w) as [v|]; [|reflexivity].
  destruct (canvasRef w) as [c|]; [|reflexivity].
  destruct (readyState v =? 4); [|reflexivity].
  destruct (context2d c); [|reflexivity].
  destruct (perform _ _) as [[[]|e] painted]; [|reflexivity].
  unfold histogramUpdate. cbn [canvasRef set_canvasRef randoms].
  destruct (App.Qlt_bool _ _); reflexivity.
Qed.

(** The settings the cinema branch reads agree. *)
Lemma cinemaOps_reads s1 s2 w h :
  brightness s1 = brightness s2 -> contrast s1 = contrast s2 ->
  saturation s1 = saturation s2 -> upscale s1 = upscale s2 -> glow s1 = glow s2 ->
  cinemaOps s1 w h = cinemaOps s2 w h.
Proof. unfold cinemaOps. intros -> -> -> -> ->. reflexivity. Qed.

Lemma resample_length rnd : forall prev t, List.length (resample rnd t prev) = List.length prev.
Proof. induction prev as [|x prev IH]; intros t; cbn; [reflexivity | rewrite IH; reflexivity]. Qed.

Lemma resample_range rnd :
  Traces.unitInterval rnd ->
  forall prev t, Forall (fun v => (5 <= v <= 95)%Q) (resample rnd t prev).
Proof.
  intros U. induction prev as [|x prev IH]; intros t; cbn; constructor; [|apply IH].
  destruct (U t) as [U0 U1]. split; lra.
Qed.

Lemma histogramUpdate_bars w : bars w -> bars (histogramUpdate w).
Proof.
  intros (L & F). unfold histogramUpdate, bars.
  destruct (App.Qlt_bool _ _); cbn.
  - split; [rewrite resample_length; exact L|]. intros U. apply resample_range, U.
  - split; assumption.
Qed.

Lemma processFrame_bars s m w : bars w -> bars (processFrame s m w).
Proof.
  intros B. unfold bars. rewrite processFrame_randoms.
  destruct (processFrame_picture s m w) as [(-> & _) | (-> & _)].
  - exact B.
  - destruct (histogramUpdate_bars w B) as (L & F). split; [exact L|].
    intros U. apply F. unfold histogramUpdate. destruct (App.Qlt_bool _ _); exact U.
Qed.

Lemma callbacks_bars q : forall w,
  bars w -> bars (fold_left (fun w' (e : Z * Callback) => runCallback (snd e) w') q w).
Proof.
  induction q as [|[h [s m]] q IH]; intros w B; cbn [fold_left]; [exact B|].
  apply IH. cbn [runCallback snd]. apply processFrame_bars, B.
Qed.

Lemma step_bars w e : bars w -> bars (step w e).
Proof.
  intros B. destruct e as [r | vw vh | rs fr | vw vh | | s | m]; cbn [step].
  - unfold initCamera. destruct r as [labels | msg]; cbn; [destruct (videoRef w)|]; exact B.
  - unfold loadedmetadata. destruct (videoRef w) as [v|]; [|exact B].
    destruct (onloadedmetadata v); [|exact B].
    unfold frameEffect. destruct (cameraReady w); [exact B|]. exact B.
  - unfold videoProgress. destruct (videoRef w); exact B.
  - unfold sourceResize. destruct (videoRef w); exact B.
  - unfold animationFrame. apply callbacks_bars. exact B.
  - unfold rerender, frameEffect. cbn. destruct (cameraReady w); exact B.
  - destruct (Mode_eqb m (mode w)); [exact B|].
    unfold rerender, frameEffect. cbn. destruct (cameraReady w); exact B.
Qed.

Lemma step_randoms w e : randoms (step w e) = randoms w.
Proof.
  destruct e as [r | vw vh | rs fr | vw vh | | s | m]; cbn [step].
  - unfold initCamera. destruct r as [labels | msg]; cbn; [destruct (videoRef w)|]; reflexivity.
  - unfold loadedmetadata. destruct (videoRef w) as [v|]; [|reflexivity].
    destruct (onloadedmetadata v); [|reflexivity].
    unfold frameEffect. destruct (cameraReady w); reflexivity.
  - unfold videoProgress. destruct (videoRef w); reflexivity.
  - unfold sourceResize. destruct (videoRef w); reflexivity.
  - unfold animationFrame.
    assert (K : forall q w0, randoms (fold_left
                               (fun w' (e : Z * Callback) => runCallback (snd e) w') q w0)
                             = randoms w0).
    { induction q as [|[h [s m]] q IH]; intros w0; cbn [fold_left]; [reflexivity|].
      rewrite IH. cbn [runCallback snd]. apply processFrame_randoms. }
    rewrite K. reflexivity.
  - unfold rerender, frameEffect. cbn. destruct (cameraReady w); reflexivity.
  - destruct (Mode_eqb m (mode w)); [reflexivity|].
    unfold rerender, frameEffect. cbn. destruct (cameraReady w); reflexivity.
Qed.

Lemma run_bars events : forall w,
  bars w -> bars (run w events) /\ randoms (run w events) = randoms w.
Proof.
  unfold run. induction events as [|e events IH]; intros w B; cbn [fold_left].
  - split; [exact B | reflexivity].
  - destruct (IH _ (step_bars w e B)) as (B' & R'). split; [exact B'|].
    rewrite R'. apply step_randoms.
Qed.

End QuantumPicture.

(** X23. In the other App only brightness, contrast, saturation, upscale
    and glow reach the canvas, and only in cinema mode: after a frame,
    two settings values that agree on these five leave the same canvas
    and histogram, and in topography and relief mode any two settings
    values do.  The ISO and EXP sliders change nothing that is drawn. *)
Theorem only_five_settings_reach_the_canvas_of_the_other_app :
  forall (host : Host) (s1 s2 : CameraSettings) (m : Quantum.Mode) (w : Quantum.World),
    (m = Quantum.Cinema ->
       brightness s1 = brightness s2 /\ contrast s1 = contrast s2 /\
       saturation s1 = saturation s2 /\ upscale s1 = upscale s2 /\ glow s1 = glow s2) ->
    Quantum.canvasRef (Quantum.processFrame s1 m w)
    = Quantum.canvasRef (Quantum.processFrame s2 m w) /\
    Quantum.histogramData (Quantum.processFrame s1 m w)
    = Quantum.histogramData (Quantum.processFrame s2 m w).
Proof.
  intros host s1 s2 m w Hs. unfold Quantum.processFrame.
  destruct (Quantum.videoRef w) as [v|]; [|split; reflexivity].
  destruct (Quantum.canvasRef w) as [c|]; [|split; reflexivity].
  destruct (Quantum.readyState v =? 4); [|split; reflexivity].
  destruct (Quantum.context2d c); [|split; reflexivity].
  assert (E : Quantum.frameOps s1 m v (Quantum.resizeOnChange v c)
              = Quantum.frameOps s2 m v (Quantum.resizeOnChange v c)).
  { unfold Quantum.frameOps. destruct m; try reflexivity.
    destruct (Hs eq_refl) as (Hb & Hc & Ha & Hu & Hg).
    rewrite (cinemaOps_reads s1 s2 _ _ Hb Hc Ha Hu Hg). reflexivity. }
  rewrite E.
  destruct (Quantum.perform _ _) as [[[]|e] painted]; [|split; reflexivity].
  unfold Quantum.histogramUpdate. destruct (App.Qlt_bool _ _); split; reflexivity.
Qed.

Lemma only_five_settings_reach_the_canvas_of_the_other_app_witness :
  let frame := fun _ _ : Z => Dom.mkPixel 9 9 9 255 in
  let v := Quantum.mkVideo 4 64 48 (Some [Dom.mkTrack "video" 0]) (Some "true"%string)
             true 1 frame in
  let w := Quantum.mkWorld Quantum.INITIAL_SETTINGS Quantum.Cinema true None
             (repeat 10%Q 24) (Some v) (Some (Quantum.mkCanvas 64 48 true [])) (Some 1)
             [(1, Quantum.ProcessFrame Quantum.INITIAL_SETTINGS Quantum.Cinema)]
             2 (fun _ => 0%Q) 0 in
  let other := Surface.spread (Surface.Key_iso 3200)
                 (Surface.spread (Surface.Key_exposure 1) Quantum.INITIAL_SETTINGS) in
  Quantum.canvasRef
    (Quantum.processFrame (H := RefHost.host) Quantum.INITIAL_SETTINGS Quantum.Cinema w)
  = Quantum.canvasRef (Quantum.processFrame (H := RefHost.host) other Quantum.Cinema w).
Proof.
  intros frame v w other.
  apply (only_five_settings_reach_the_canvas_of_the_other_app RefHost.host
           Quantum.INITIAL_SETTINGS other Quantum.Cinema w).
  intros _. repeat split.
Defined.

(** X24. Over the whole life of the other App the histogram keeps its 24
    bars, and when [Math.random] stays in [0, 1) every bar is between 5
    and 95: the initial bars are 10 and a refresh replaces all of them by
    5 + 90 r. *)
Theorem histogram_of_the_other_app_keeps_24_bars_in_range :
  forall (host : Host) (rnd : nat -> Q) (has2d : bool) (frame : Dom.Raster)
         (events : list Quantum.Event),
    let w := Quantum.run (Quantum.mounted rnd has2d frame) events in
    List.length (Quantum.histogramData w) = 24%nat /\
    (Traces.unitInterval rnd ->
       Forall (fun v => (5 <= v <= 95)%Q) (Quantum.histogramData w)).
Proof.
  intros host rnd has2d frame events w.
  assert (B : QuantumProps.bars (Quantum.mounted rnd has2d frame)).
  { split; [reflexivity|]. intros _. cbn.
    repeat (constructor; [split; discriminate|]). constructor. }
  destruct (run_bars events _ B) as ((L & F) & R). fold w in L, F, R.
  split; [exact L|]. intros U. apply F. rewrite R. exact U.
Qed.

Lemma histogram_of_the_other_app_keeps_24_bars_in_range_witness :
  let frame := fun _ _ : Z => Dom.mkPixel 9 9 9 255 in
  Forall (fun v => (5 <= v <= 95)%Q)
    (Quantum.histogramData
       (Quantum.run (H := RefHost.host) (Quantum.mounted (fun _ => 0.95%Q) true frame)
          [ Quantum.InitCameraDone (App.GumResolves ["video"%string]);
            Quantum.LoadedMetadata 64 48; Quantum.VideoProgress 4 frame;
            Quantum.AnimationFrame ])).
Proof.
  intros frame.
  apply (proj2 (histogram_of_the_other_app_keeps_24_bars_in_range RefHost.host
                  (fun _ => 0.95%Q) true frame
                  [ Quantum.InitCameraDone (App.GumResolves ["video"%string]);
                    Quantum.LoadedMetadata 64 48; Quantum.VideoProgress 4 frame;
                    Quantum.AnimationFrame ])).
  intros n. split; [discriminate | reflexivity].
Defined.
